(** * platform_linux.cc: the Linux platform queries of node

    A shallow embedding of [src/platform_linux.cc] (namespace [node],
    class [Platform]) and the properties of its queries.

    The file has two halves.  The first holds the definitions: the part of
    the C library the source calls ([fscanf], [sscanf], [fgets],
    [strncmp], [strchr], [readlink], [strdup], [free]), the V8 array the
    source fills, one definition per function of the source under the
    source's name, and the vocabulary of the statements.  The second half
    holds the lemmas.

    Conventions.
    - Text (file contents, C strings without their terminator) is a
      [list ascii]; [txt "..."] writes a literal.
    - A C object that may hold an indeterminate value (an automatic variable
      that was never assigned, or the target of a conversion whose result the
      type cannot represent) is an [option Z]: [None] is "indeterminate".
    - Executions that leave the behaviour the C standard defines (a store
      past the end of an array, a null pointer handed to [strcpy], a division
      by zero) end in [Undefined]. *)

From Stdlib Require Import ZArith Ascii String List Lia Bool.
From stdpp Require Import base tactics option list gmap strings pretty.

Local Open Scope Z_scope.

(* ------------------------------------------------------------------ *)
(** * Part I. Definitions                                               *)
(* ------------------------------------------------------------------ *)

(** ** Text *)

Abbreviation text := (list ascii).

Definition txt (s : string) : text := list_ascii_of_string s.

Definition NUL : ascii := "000"%char.
Definition LF : ascii := "010"%char.

(** Decimal rendering of a natural number, as the kernel prints the numeric
    fields of its records. *)
Definition dec (n : N) : text := txt (pretty n).

(** ** Outcomes *)

(** The result of a call: it returns, or it leaves defined behaviour. *)
Inductive outcome (A : Type) : Type :=
| Returns (a : A)
| Undefined.
Arguments Returns {A} a.
Arguments Undefined {A}.

#[global] Instance outcome_bind : MBind outcome := λ A B k m,
  match m with
  | Returns a => k a
  | Undefined => Undefined
  end.

(** What a statement of a body with an [error:] label can do: fall through
    to the next statement, jump to the label, or go out of bounds. *)
Inductive flow (A : Type) : Type :=
| Next (a : A)
| GotoError
| OutOfBounds.
Arguments Next {A} a.
Arguments GotoError {A}.
Arguments OutOfBounds {A}.

#[global] Instance flow_bind : MBind flow := λ A B k m,
  match m with
  | Next a => k a
  | GotoError => GotoError
  | OutOfBounds => OutOfBounds
  end.

(** ** The C library *)

Module CLib.

Definition EOF : Z := -1.

(** [isspace] in the C locale. *)
Definition isspace (c : ascii) : bool :=
  let n := N_of_ascii c in
  ((n =? 32) || ((9 <=? n) && (n <=? 13)))%N.

Definition isdigit (c : ascii) : bool :=
  let n := N_of_ascii c in ((48 <=? n) && (n <=? 57))%N.

Definition digit_value (c : ascii) : Z := Z.of_N (N_of_ascii c) - 48.

(** The value of a run of decimal digits, most significant first. *)
Definition decimal_value (ds : text) : Z :=
  fold_left (fun acc c => 10 * acc + digit_value c) ds 0.

(** The longest prefix of [s] whose characters satisfy [p], and the rest. *)
Fixpoint span (p : ascii → bool) (s : text) : text * text :=
  match s with
  | c :: r => if p c then let '(a, b) := span p r in (c :: a, b) else ([], s)
  | [] => ([], [])
  end.

Definition skip_space (s : text) : text := snd (span isspace s).

(** *** Formats

    The directives the source's format strings are made of. *)
Inductive conversion : Type :=
| ConvInt (signed : bool) (bits : Z)   (* %d  %u  %llu *)
| ConvChar                             (* %c *)
| ConvStr.                             (* %s *)

Inductive directive : Type :=
| DSpace                                   (* white space in the format *)
| DLit (c : ascii)                         (* an ordinary character *)
| DConv (suppress : bool) (k : conversion) (* %...  or  %*... *).

(** The conversion specifications that occur in the source. *)
Definition specifications : list (string * directive) :=
  [ ("%*llu", DConv true (ConvInt false 64));
    ("%llu", DConv false (ConvInt false 64));
    ("%*s", DConv true ConvStr);
    ("%d", DConv false (ConvInt true 32));
    ("%u", DConv false (ConvInt false 32));
    ("%c", DConv false ConvChar) ]%string.

Fixpoint strip_prefix (p s : text) : option text :=
  match p, s with
  | [], _ => Some s
  | a :: p', b :: s' => if Ascii.eqb a b then strip_prefix p' s' else None
  | _ :: _, [] => None
  end.

Fixpoint find_specification (specs : list (string * directive)) (s : text)
  : option (directive * text) :=
  match specs with
  | [] => None
  | (p, d) :: specs' =>
      match strip_prefix (txt p) s with
      | Some r => Some (d, r)
      | None => find_specification specs' s
      end
  end.

Fixpoint parse_format_go (fuel : nat) (s : text) : list directive :=
  match fuel, s with
  | S fuel', c :: r =>
      match find_specification specifications s with
      | Some (d, r') => d :: parse_format_go fuel' r'
      | None =>
          (if isspace c then DSpace else DLit c) :: parse_format_go fuel' r
      end
  | _, _ => []
  end.

(** A format string as its directives. *)
Definition parse_format (fmt : string) : list directive :=
  parse_format_go (String.length fmt) (txt fmt).

(** *** Scanning *)

Inductive value : Type :=
| VInt (v : option Z)      (* [None]: not representable in the target *)
| VChar (c : ascii)
| VStr (s : text).

Inductive item : Type :=
| Matched (v : value) (rest : text)
| MatchingFailure (rest : text)
| InputFailure.

(** The value a numeric conversion stores.  The standard leaves a result
    that the target type cannot represent undefined; it is kept here as an
    indeterminate value. *)
Definition int_result (signed : bool) (bits : Z) (negative : bool) (n : Z)
  : option Z :=
  let v := if negative then - n else n in
  if signed
  then if (- 2 ^ (bits - 1) <=? v) && (v <? 2 ^ (bits - 1)) then Some v else None
  else if (0 <=? v) && (v <? 2 ^ bits) then Some v else None.

(** An optionally signed decimal integer, after white space.  A sign that
    no digit follows has been read when the failure is found: it is
    consumed.  The end of the input before any character of the number is an
    input failure. *)
Definition scan_int (signed : bool) (bits : Z) (s : text) : item :=
  match skip_space s with
  | [] => InputFailure
  | c :: r =>
      let negative := Ascii.eqb c "-"%char in
      let body := if negative || Ascii.eqb c "+"%char then r else c :: r in
      match span isdigit body with
      | ([], rest) => MatchingFailure rest
      | (ds, rest) =>
          Matched (VInt (int_result signed bits negative (decimal_value ds))) rest
      end
  end.

Definition scan_item (k : conversion) (s : text) : item :=
  match k with
  | ConvInt signed bits => scan_int signed bits s
  | ConvChar =>
      match s with
      | [] => InputFailure
      | c :: r => Matched (VChar c) r
      end
  | ConvStr =>
      match skip_space s with
      | [] => InputFailure
      | s' => let '(w, rest) := span (fun c => negb (isspace c)) s' in
              Matched (VStr w) rest
      end
  end.

(** The result of one call: the return value, the values assigned through
    the pointer arguments (in order), and the input that remains. *)
Record scanned : Type := Scanned {
  count : Z;
  assigned : list value;
  remaining : text
}.

(** The return value is the number of values assigned, or [EOF] when the
    input ends before the first of them. *)
Fixpoint scan (fmt : list directive) (s : text) (done : list value) : scanned :=
  match fmt with
  | [] => Scanned (Z.of_nat (length done)) done s
  | DSpace :: fmt' => scan fmt' (skip_space s) done
  | DLit c :: fmt' =>
      match s with
      | [] => Scanned (if done is [] then EOF else Z.of_nat (length done)) done s
      | c' :: r =>
          if Ascii.eqb c c' then scan fmt' r done
          else Scanned (Z.of_nat (length done)) done s
      end
  | DConv suppress k :: fmt' =>
      match scan_item k s with
      | Matched v r => scan fmt' r (if suppress then done else done ++ [v])
      | MatchingFailure r => Scanned (Z.of_nat (length done)) done r
      | InputFailure =>
          Scanned (if done is [] then EOF else Z.of_nat (length done)) done []
      end
  end.

(** [fscanf(f, fmt, ...)] on a stream whose unread content is [s];
    [sscanf(s, fmt, ...)] is the same function of the string [s]. *)
Definition fscanf (s : text) (fmt : string) : scanned :=
  scan (parse_format fmt) s [].

Definition sscanf (s : text) (fmt : string) : scanned :=
  scan (parse_format fmt) s [].

(** [fgets(line, size, fp)] called until it returns [NULL]: the successive
    contents of [line].  Each call stores at most [size - 1] characters and
    stops after a newline.  [room] counts the characters the current call
    may still store, [cur] holds those it has stored, last first. *)
Fixpoint fgets_go (size : nat) (room : nat) (cur : text) (s : text)
  : list text :=
  match s with
  | [] => if cur is [] then [] else [rev cur]
  | c :: r =>
      if Ascii.eqb c LF || (room <=? 1)%nat
      then rev (c :: cur) :: fgets_go size (size - 1) [] r
      else fgets_go size (room - 1) (c :: cur) r
  end.

Definition fgets_all (size : nat) (s : text) : list text :=
  fgets_go size (size - 1) [] s.

(** What the string functions see of an array: the characters before the
    first NUL. *)
Definition c_str (a : text) : text :=
  fst (span (fun c => negb (Ascii.eqb c NUL)) a).

(** [strncmp(s, lit, n) == 0], for a literal [lit] of at least [n]
    characters. *)
Definition strncmp_eq (s : text) (lit : string) (n : nat) : bool :=
  bool_decide (take n (c_str s) = take n (txt lit)).

(** [strchr(s, c)] as an index into [s]. *)
Fixpoint strchr (s : text) (c : ascii) : option nat :=
  match s with
  | [] => None
  | a :: r => if Ascii.eqb a c then Some 0%nat else S <$> strchr r c
  end.

(** *** The heap

    Blocks are named by their address and hold their bytes, terminator
    included.  Allocation is taken to succeed. *)
Abbreviation addr := positive.
Abbreviation heap := (gmap positive (list ascii)).

(** The C string that starts a block, if the block is terminated. *)
Definition string_at (m : heap) (p : addr) : option text :=
  b ← m !! p;
  if bool_decide (NUL ∈ b) then Some (c_str b) else None.

(** [strdup(p)]: a new block with a copy of the string at [p]. *)
Definition strdup (m : heap) (p : addr) : outcome (addr * heap) :=
  match string_at m p with
  | Some s => let q := fresh (dom m) in Returns (q, <[q := s ++ [NUL]]> m)
  | None => Undefined
  end.

(** [free(p)], for [p] not null. *)
Definition free (m : heap) (p : addr) : outcome heap :=
  if m !! p is Some _ then Returns (delete p m) else Undefined.

(** [readlink(path, buf, bufsiz)] where the link at [path] resolves to
    [target] ([None]: the call fails).  The result is the return value and
    the new content of the array [buf].  The kernel takes [bufsiz] as an
    [int] and fails with [EINVAL] when that is not positive; otherwise the
    call places at most that many bytes and adds no terminator. *)
Definition readlink (target : option text) (buf : text) (bufsiz : Z)
  : outcome (Z * text) :=
  match target with
  | None => Returns (-1, buf)
  | Some t =>
      let size := (bufsiz + 2 ^ 31) `mod` 2 ^ 32 - 2 ^ 31 in  (* [int bufsiz] *)
      if size <=? 0 then Returns (-1, buf)                      (* EINVAL *)
      else
        let n := Z.min (Z.of_nat (length t)) size in
        if n <=? Z.of_nat (length buf)
        then Returns (n, take (Z.to_nat n) t ++ drop (Z.to_nat n) buf)
        else Undefined
  end.

End CLib.

(** ** The V8 array *)

Module V8.

(** A JavaScript array: a sequence of slots, some of them holes. *)
Abbreviation Array A := (list (option A)).

(** [Array::New(n)] *)
Definition Array_New {A} (n : nat) : Array A := replicate n None.

(** [a->Length()] *)
Definition Length {A} (a : Array A) : nat := length a.

(** [a->Set(i, v)]: a store past the end extends the array. *)
Definition Set_ {A} (a : Array A) (i : nat) (v : A) : Array A :=
  if (i <? length a)%nat then <[i := Some v]> a
  else a ++ replicate (i - length a) None ++ [Some v].

End V8.

(** ** The source *)

Module Platform.
Import CLib.

(** *** The process title *)

(** The state the title functions share with the rest of the process:
    the heap, [static char *process_title] ([None] is [NULL]), the task
    name the kernel keeps, and the exception V8 has pending. *)
Record process : Type := Process {
  memory : heap;
  process_title : option addr;
  task_name : text;
  pending_exception : option string
}.

(** The state at program start: statics are zero. *)
Definition process_start (m : heap) (name : text) : process :=
  Process m None name None.

(** Conversion to [int] of a value that may not fit. *)
Definition to_int (v : Z) : Z := (v + 2 ^ 31) `mod` 2 ^ 32 - 2 ^ 31.

(** [prctl(PR_SET_NAME, name)]: the kernel keeps the first 15 bytes. *)
Definition prctl_set_name (m : heap) (name : option addr) (old : text) : text :=
  match name ≫= string_at m with
  | Some s => take 15 s
  | None => old
  end.

(** [char** Platform::SetupArgs(int argc, char *argv[])], given [argv[0]].
    The return value is [argv] itself. *)
Definition SetupArgs (argv0 : addr) (st : process) : outcome process :=
  '(q, m) ← strdup (memory st) argv0;
  Returns (Process m (Some q) (task_name st) (pending_exception st)).

(** [void Platform::SetProcessTitle(char *title)].  [PR_SET_NAME_defined]
    tells which branch of [#ifdef PR_SET_NAME] was compiled. *)
Definition SetProcessTitle (PR_SET_NAME_defined : bool) (title : addr)
    (st : process) : outcome process :=
  if PR_SET_NAME_defined then
    m1 ← (if process_title st is Some p then free (memory st) p
          else Returns (memory st));
    '(q, m2) ← strdup m1 title;
    Returns (Process m2 (Some q)
               (prctl_set_name m2 (Some q) (task_name st))
               (pending_exception st))
  else
    Returns (Process (memory st) (process_title st) (task_name st)
               (Some "'process.title' is not writable on your system, sorry."%string)).

(** [const char* Platform::GetProcessTitle(int *len)]: the pointer
    returned and the value stored in [*len]. *)
Definition GetProcessTitle (st : process) : outcome (option addr * Z) :=
  match process_title st with
  | Some p =>
      match string_at (memory st) p with
      | Some s => Returns (Some p, to_int (Z.of_nat (length s)))
      | None => Undefined
      end
  | None => Returns (None, 0)
  end.

(** The calls a program makes on the title, for statements about
    histories. *)
Inductive title_call : Type :=
| CallSetupArgs (argv0 : addr)
| CallSetProcessTitle (title : addr)
| CallGetProcessTitle.

Definition stores_title (c : title_call) : bool :=
  match c with
  | CallGetProcessTitle => false
  | _ => true
  end.

Definition run_call (PR_SET_NAME_defined : bool) (c : title_call)
    (st : process) : outcome process :=
  match c with
  | CallSetupArgs a => SetupArgs a st
  | CallSetProcessTitle t => SetProcessTitle PR_SET_NAME_defined t st
  | CallGetProcessTitle => _ ← GetProcessTitle st; Returns st
  end.

Fixpoint run_calls (PR_SET_NAME_defined : bool) (cs : list title_call)
    (st : process) : outcome process :=
  match cs with
  | [] => Returns st
  | c :: cs' =>
      st' ← run_call PR_SET_NAME_defined c st;
      run_calls PR_SET_NAME_defined cs' st'
  end.

(** *** GetMemory *)

(** [MAXPATHLEN] of <sys/param.h>. *)
Definition MAXPATHLEN : nat := 4096.

(** [static char buf[MAXPATHLEN + 1]] at program start. *)
Definition buf_start : text := replicate (MAXPATHLEN + 1) NUL.

(** Conversion to [size_t], [size_bits] wide. *)
Definition to_size_t (size_bits : Z) (v : Z) : Z := v `mod` 2 ^ size_bits.

(** The automatic variables the scanning statements share: the unread
    part of [f], [itmp] and [ctmp]. *)
Record frame : Type := Frame {
  fr_f : text;
  fr_itmp : option Z;
  fr_ctmp : option ascii
}.

(** [if (fscanf(f, "%d ", &itmp) == 0) goto error;] *)
Definition scan_d (fr : frame) : flow frame :=
  let r := fscanf (fr_f fr) "%d " in
  if count r =? 0 then GotoError
  else Next (Frame (remaining r)
               (if assigned r is [VInt v] then v else fr_itmp fr)
               (fr_ctmp fr)).

(** [if (fscanf(f, "%u ", &itmp) == 0) goto error;]: the unsigned value
    lands in the [int]. *)
Definition scan_u (fr : frame) : flow frame :=
  let r := fscanf (fr_f fr) "%u " in
  if count r =? 0 then GotoError
  else Next (Frame (remaining r)
               (if assigned r is [VInt v] then to_int <$> v else fr_itmp fr)
               (fr_ctmp fr)).

(** [if (fscanf(f, "%c ", &ctmp) == 0) goto error;] *)
Definition scan_c (fr : frame) : flow frame :=
  let r := fscanf (fr_f fr) "%c " in
  if count r =? 0 then GotoError
  else Next (Frame (remaining r) (fr_itmp fr)
               (if assigned r is [VChar c] then Some c else fr_ctmp fr)).

(** The [while (1)] loop of the executable name.  [cells] is the part of
    [buf] from [cbuf] on; the result is what that part holds at [break],
    and the unread input.  With no cell left, [cbuf] points past [buf]. *)
Fixpoint exec_file_loop (cells : text) (f : text) (foundExeEnd : bool)
  : flow (text * text) :=
  match cells with
  | [] => OutOfBounds
  | old :: cells' =>
      let r := fscanf f "%c" in
      if count r =? 0 then GotoError
      else
        let cur := if assigned r is [VChar c] then c else old in
        if Ascii.eqb cur ")" then
          '(cs, f') ← exec_file_loop cells' (remaining r) true;
          Next (cur :: cs, f')
        else if foundExeEnd && Ascii.eqb cur " " then
          Next (NUL :: cells', remaining r)
        else
          '(cs, f') ← exec_file_loop cells' (remaining r) foundExeEnd;
          Next (cur :: cs, f')
  end.

(** The statements under [/* Exec file */]: the new content of [buf] and
    the unread input. *)
Definition exec_file (buf : text) (f : text) : flow (text * text) :=
  match buf with
  | [] => OutOfBounds
  | old :: cells =>
      let r := fscanf f "%c" in                                (* ( *)
      if count r =? 0 then GotoError
      else
        let first := if assigned r is [VChar c] then c else old in
        '(cs, f') ← exec_file_loop cells (remaining r) false;
        Next (first :: cs, f')
  end.

(** An out-parameter after the call. *)
Inductive stored : Type :=
| Untouched
| Stored (v : option Z).

Record memory_result : Type := MemoryResult {
  mem_return : Z;
  mem_rss : stored;
  mem_vsize : stored;
  mem_buf : text
}.

(** The fields from the state to the start time: one statement each. *)
Definition fields_3_to_22 (fr : frame) : flow frame :=
  fr ← scan_c fr;   (* State *)
  fr ← scan_d fr;   (* Parent process *)
  fr ← scan_d fr;   (* Process group *)
  fr ← scan_d fr;   (* Session id *)
  fr ← scan_d fr;   (* TTY *)
  fr ← scan_d fr;   (* TTY owner process group *)
  fr ← scan_u fr;   (* Flags *)
  fr ← scan_u fr;   (* Minor faults (no memory page) *)
  fr ← scan_u fr;   (* Minor faults, children *)
  fr ← scan_u fr;   (* Major faults (memory page faults) *)
  fr ← scan_u fr;   (* Major faults, children *)
  fr ← scan_d fr;   (* utime *)
  fr ← scan_d fr;   (* stime *)
  fr ← scan_d fr;   (* utime, children *)
  fr ← scan_d fr;   (* stime, children *)
  fr ← scan_d fr;   (* jiffies remaining in current time slice *)
  fr ← scan_d fr;   (* 'nice' value *)
  fr ← scan_u fr;   (* jiffies until next timeout *)
  fr ← scan_u fr;   (* jiffies until next SIGALRM *)
  scan_d fr.        (* start time (jiffies since system boot) *)

(** The fields after the resident set size. *)
Definition fields_25_to_28 (fr : frame) : flow frame :=
  fr ← scan_u fr;   (* rlim *)
  fr ← scan_u fr;   (* Start of text *)
  fr ← scan_u fr;   (* End of text *)
  scan_u fr.        (* Start of stack *)

(** [int Platform::GetMemory(size_t *rss, size_t *vsize)].
    [proc_self_stat] is the content of /proc/self/stat ([None]: [fopen]
    fails), [buf] the content of the static array on entry, [size_bits] the
    width of [size_t] and [getpagesize] what [getpagesize()] returns. *)
Definition GetMemory (size_bits : Z) (getpagesize : Z)
    (proc_self_stat : option text) (buf : text) : outcome memory_result :=
  match proc_self_stat with
  | None => Returns (MemoryResult (-1) Untouched Untouched buf)
  | Some content =>
      let page_size := to_size_t size_bits getpagesize in
      let fr := Frame content None None in
      match scan_d fr with                                     (* PID *)
      | OutOfBounds => Undefined
      | GotoError => Returns (MemoryResult (-1) Untouched Untouched buf)
      | Next fr =>
      match exec_file buf (fr_f fr) with                       (* Exec file *)
      | OutOfBounds => Undefined
      | GotoError => Returns (MemoryResult (-1) Untouched Untouched buf)
      | Next (buf, f) =>
      match fr ← fields_3_to_22 (Frame f (fr_itmp fr) (fr_ctmp fr));
            scan_u fr with                                     (* Virtual memory size *)
      | OutOfBounds => Undefined
      | GotoError => Returns (MemoryResult (-1) Untouched Untouched buf)
      | Next fr =>
      let vsize := to_size_t size_bits <$> fr_itmp fr in
      match scan_u fr with                                     (* Resident set size *)
      | OutOfBounds => Undefined
      | GotoError => Returns (MemoryResult (-1) Untouched (Stored vsize) buf)
      | Next fr =>
      let rss := (λ v, to_size_t size_bits (to_size_t size_bits v * page_size))
                   <$> fr_itmp fr in
      match fields_25_to_28 fr with
      | OutOfBounds => Undefined
      | GotoError => Returns (MemoryResult (-1) (Stored rss) (Stored vsize) buf)
      | Next _ => Returns (MemoryResult 0 (Stored rss) (Stored vsize) buf)
      end end end end end
  end.

(** *** GetExecutablePath *)

Record path_result : Type := PathResult {
  path_return : Z;
  path_size : Z;                (* [*size] after the call *)
  path_buffer : text;           (* the caller's array after the call *)
  path_stray : option Z         (* index of a store outside the array *)
}.

(** [int Platform::GetExecutablePath(char* buffer, size_t* size)].
    [exe] is what /proc/self/exe resolves to ([None]: [readlink] fails);
    [buffer] is the caller's array and [size] the value of [*size] on
    entry.  A store whose index lies outside [buffer] is reported, not
    performed. *)
Definition GetExecutablePath (size_bits : Z) (exe : option text)
    (buffer : text) (size : Z) : outcome path_result :=
  '(r, buffer) ← readlink exe buffer (to_size_t size_bits (size - 1));
  let size := to_size_t size_bits r in
  if size <=? 0 then Returns (PathResult (-1) size buffer None)
  else if size <? Z.of_nat (length buffer)
  then Returns (PathResult 0 size (<[Z.to_nat size := NUL]> buffer) None)
  else Returns (PathResult 0 size buffer (Some size)).

(** *** GetCPUInfo *)

(** The object [cputimes]; each number is the integer handed to
    [Number::New]. *)
Record CpuTimes : Type := MkCpuTimes {
  user : option Z;
  nice : option Z;
  sys : option Z;
  idle : option Z;
  irq : option Z
}.

(** The object [cpuinfo]. *)
Record CpuInfo : Type := MkCpuInfo {
  model : option text;
  speed : option Z;
  times : CpuTimes
}.

(** What the function reads: [sysconf(_SC_CLK_TCK)], the content of
    /proc/cpuinfo and of /proc/stat, and of
    /sys/devices/system/cpu/cpu<i>/cpufreq/cpuinfo_max_freq for each [i]
    ([None]: [fopen] fails). *)
Record cpu_sources : Type := CpuSources {
  clk_tck : Z;
  proc_cpuinfo : option text;
  proc_stat : option text;
  cpuinfo_max_freq : nat → option text
}.

(** The variables the first loop sets. *)
Record descriptor : Type := Descriptor {
  d_numcpus : nat;
  d_model : option text;       (* [None]: the array was never written *)
  d_cpuspeed : option Z
}.

(** The body of the loop over /proc/cpuinfo, for one [line]. *)
Definition descriptor_line (d : descriptor) (line : text) : outcome descriptor :=
  if strncmp_eq line "model name" 10 then
    let numcpus := S (d_numcpus d) in
    if (numcpus =? 1)%nat then
      match strchr (c_str line) ":" with
      | None => Undefined                    (* [NULL + 2] handed to [strcpy] *)
      | Some k =>
          match drop (k + 2) (c_str line) with
          | [] => Undefined                  (* [p] at or past the terminator *)
          | p => Returns (Descriptor numcpus (Some (removelast p)) (d_cpuspeed d))
          end
      end
    else Returns (Descriptor numcpus (d_model d) (d_cpuspeed d))
  else if strncmp_eq line "cpu MHz" 7 then
    if (d_numcpus d =? 1)%nat then
      let r := sscanf (c_str line) "%*s %*s : %u" in
      Returns (Descriptor (d_numcpus d) (d_model d)
                 (if assigned r is [VInt v] then v else d_cpuspeed d))
    else Returns d
  else Returns d.

Fixpoint descriptor_loop (d : descriptor) (lines : list text) : outcome descriptor :=
  match lines with
  | [] => Returns d
  | line :: lines' => d' ← descriptor_line d line; descriptor_loop d' lines'
  end.

(** The variables as the loop over /proc/cpuinfo leaves them. *)
Definition read_descriptor (fpModel : option text) : outcome descriptor :=
  match fpModel with
  | Some content =>
      descriptor_loop (Descriptor 0 None None) (fgets_all 511 content)
  | None => Returns (Descriptor 0 None None)
  end.

(** The variables the second loop carries from line to line. *)
Record counters : Type := Counters {
  cpuspeed : option Z;
  ticks_user : option Z;
  ticks_nice : option Z;
  ticks_sys : option Z;
  ticks_idle : option Z;
  ticks_intr : option Z
}.

(** The [k]-th value [sscanf] assigned, or the variable's old content. *)
Definition assigned_or (vs : list value) (k : nat) (old : option Z) : option Z :=
  match vs !! k with
  | Some (VInt v) => v
  | _ => old
  end.

(** [fopen], [fgets], [sscanf(line, "%u", &cpuspeed)], [cpuspeed /= 1000]. *)
Definition read_speed (fpSpeed : option text) (cpuspeed : option Z) : option Z :=
  match fpSpeed with
  | Some content =>
      match fgets_all 511 content with
      | line :: _ =>
          let r := sscanf (c_str line) "%u" in
          let cpuspeed := if assigned r is [VInt v] then v else cpuspeed in
          (λ v, v `div` 1000) <$> cpuspeed
      | [] => cpuspeed
      end
  | None => cpuspeed
  end.

(** The conversion of an [unsigned long long] to [double], to the nearest
    with ties to even: the value of the result, which is an integer.  A
    value below 2^53 is kept; above, the bits below the 53 leading ones are
    rounded away. *)
Definition to_double (n : Z) : Z :=
  let e := Z.log2 n - 52 in
  if e <=? 0 then n
  else
    let q := n `div` 2 ^ e in
    let r := n `mod` 2 ^ e in
    let half := 2 ^ (e - 1) in
    (if r <? half then q
     else if half <? r then q + 1
     else if Z.even q then q else q + 1) * 2 ^ e.

(** [Number::New(ticks * multiplier)]: the [unsigned long long] product,
    handed over as a [double]. *)
Definition milliseconds (multiplier : Z) (ticks : option Z) : option Z :=
  (λ t, to_double ((t * multiplier) `mod` 2 ^ 64)) <$> ticks.

(** What one iteration of the loop over /proc/stat assigns: the counters
    [sscanf] finds in [line], and the speed from the file [fpSpeed]. *)
Definition core_update (fpSpeed : option text) (c : counters) (line : text)
  : counters :=
  let r := sscanf (c_str line) "%*s %llu %llu %llu %llu %*llu %llu" in
  Counters (read_speed fpSpeed (cpuspeed c))
    (assigned_or (assigned r) 0 (ticks_user c))
    (assigned_or (assigned r) 1 (ticks_nice c))
    (assigned_or (assigned r) 2 (ticks_sys c))
    (assigned_or (assigned r) 3 (ticks_idle c))
    (assigned_or (assigned r) 4 (ticks_intr c)).

(** The object [cpuinfo] the iteration then builds. *)
Definition cpuinfo_object (multiplier : Z) (model : option text) (c : counters)
  : CpuInfo :=
  MkCpuInfo model (cpuspeed c)
    (MkCpuTimes (milliseconds multiplier (ticks_user c))
                (milliseconds multiplier (ticks_nice c))
                (milliseconds multiplier (ticks_sys c))
                (milliseconds multiplier (ticks_idle c))
                (milliseconds multiplier (ticks_intr c))).

(** The loop over /proc/stat. *)
Fixpoint counters_loop (max_freq : nat → option text) (multiplier : Z)
    (model : option text) (lines : list text) (i : nat) (c : counters)
    (cpus : V8.Array CpuInfo) : V8.Array CpuInfo :=
  match lines with
  | [] => cpus
  | line :: lines' =>
      if strncmp_eq line "cpu " 4 then
        counters_loop max_freq multiplier model lines' i c cpus   (* continue *)
      else if negb (strncmp_eq line "cpu" 3) then
        cpus                                                      (* break *)
      else
        let c := core_update (max_freq i) c line in
        counters_loop max_freq multiplier model lines' (S i) c
          (V8.Set_ cpus i (cpuinfo_object multiplier model c))    (* i++ *)
  end.

(** [int Platform::GetCPUInfo(Local<Array> *cpus)]: the return value and
    the array left in [*cpus]. *)
Definition GetCPUInfo (src : cpu_sources) : outcome (Z * V8.Array CpuInfo) :=
  let ticks := clk_tck src `mod` 2 ^ 32 in
  if ticks =? 0 then Undefined                                (* 1000 / 0 *)
  else
    let multiplier := (1000 `div` ticks) `mod` 2 ^ 32 in
    d ← read_descriptor (proc_cpuinfo src);
    let cpus := V8.Array_New (d_numcpus d) in
    let cpus :=
      match proc_stat src with
      | Some content =>
          counters_loop (cpuinfo_max_freq src) multiplier (d_model d)
            (fgets_all 511 content) 0
            (Counters (d_cpuspeed d) None None None None None) cpus
      | None => cpus
      end in
    Returns (0, cpus).

(** *** GetInterfaceAddresses *)

(** <net/if.h> and <sys/socket.h>. *)
Definition IFF_UP : Z := 0x1.
Definition IFF_LOOPBACK : Z := 0x8.
Definition IFF_RUNNING : Z := 0x40.
Definition AF_INET : Z := 2.
Definition AF_INET6 : Z := 10.
Definition PF_PACKET : Z := 17.

Record sockaddr : Type := Sockaddr {
  sa_family : Z;
  sa_data : list Z
}.

(** One element of the list [getifaddrs] returns; [ifa_next] is the tail
    of the Rocq list. *)
Record ifaddrs : Type := Ifaddrs {
  ifa_name : text;
  ifa_flags : Z;
  ifa_addr : option sockaddr       (* [None] is [NULL] *)
}.

(** The test [flags & FLAG] as a condition. *)
Definition has_flag (flags flag : Z) : bool := negb (Z.land flags flag =? 0).

(** [bool IsInternal(struct ifaddrs* addr)] *)
Definition IsInternal (addr : ifaddrs) : bool :=
  has_flag (ifa_flags addr) IFF_UP &&
  has_flag (ifa_flags addr) IFF_RUNNING &&
  has_flag (ifa_flags addr) IFF_LOOPBACK.

(** The object [o] of one address. *)
Record address_entry : Type := AddressEntry {
  address : text;
  family : string;
  internal : bool
}.

(** The JavaScript values the loop works on: the arrays created so far,
    named by handle, and the properties set on [ret] (a name is looked up
    among these). *)
Record js_heap : Type := JsHeap {
  arrays : list (V8.Array address_entry);
  ret : gmap text nat
}.

Inductive interfaces_result : Type :=
| JsUndefined
| Throws (syscall : string)
| Object_ (properties : gmap text (V8.Array address_entry)).

Section Interfaces.
(** [inet_ntop(af, src, ip, INET6_ADDRSTRLEN)]: the text left in [ip],
    which [bzero] has cleared. *)
Variable inet_ntop : Z → list Z → text.

(** The body of the loop over the entries. *)
Definition interface_entry (h : js_heap) (ent : ifaddrs) : js_heap :=
  if negb (has_flag (ifa_flags ent) IFF_UP && has_flag (ifa_flags ent) IFF_RUNNING)
  then h                                                       (* continue *)
  else
    match ifa_addr ent with
    | None => h                                                (* continue *)
    | Some sa =>
        if sa_family sa =? PF_PACKET then h                     (* continue *)
        else
          let name := ifa_name ent in
          let '(ifarr, h) :=
            match ret h !! name with
            | Some a => (a, h)
            | None =>
                let a := length (arrays h) in
                (a, JsHeap (arrays h ++ [V8.Array_New 0]) (<[name := a]> (ret h)))
            end in
          let '(ip, family) :=
            if sa_family sa =? AF_INET6 then
              (inet_ntop AF_INET6 (sa_data sa), "IPv6"%string)
            else if sa_family sa =? AF_INET then
              (inet_ntop AF_INET (sa_data sa), "IPv4"%string)
            else (txt "<unknown sa family>", "<unknown>"%string) in
          let o := AddressEntry ip family (has_flag (ifa_flags ent) IFF_LOOPBACK) in
          JsHeap (alter (λ a, V8.Set_ a (V8.Length a) o) ifarr (arrays h)) (ret h)
    end.

(** [Handle<Value> Platform::GetInterfaceAddresses()].  [addrs] is the
    list [getifaddrs] yields ([None]: the call fails); [ANDROID_defined]
    tells which branch of [#ifdef ANDROID] was compiled. *)
Definition GetInterfaceAddresses (ANDROID_defined : bool)
    (addrs : option (list ifaddrs)) : interfaces_result :=
  if ANDROID_defined then JsUndefined
  else
    match addrs with
    | None => Throws "getifaddrs"
    | Some addrs =>
        let h := foldl interface_entry (JsHeap [] ∅) addrs in
        Object_ ((λ a, default [] (arrays h !! a)) <$> ret h)
    end.
End Interfaces.

End Platform.

(** ** Vocabulary of the statements *)

(** [s] does not go on with a character that satisfies [p]. *)
Definition stops (p : ascii → bool) (s : text) : Prop :=
  match s with
  | [] => True
  | c :: _ => p c = false
  end.

(** Decimal rendering of an integer. *)
Definition sdec (z : Z) : text :=
  if z <? 0 then "-"%char :: dec (Z.to_N (- z)) else dec (Z.to_N z).

(** Whether, in [name], a space comes after a closing parenthesis
    ([seen]: one has been passed already). *)
Fixpoint space_after_paren (seen : bool) (name : text) : bool :=
  match name with
  | [] => false
  | c :: r =>
      if Ascii.eqb c ")" then space_after_paren true r
      else if seen && Ascii.eqb c " " then true
      else space_after_paren seen r
  end.

(** The first 28 fields of /proc/<pid>/stat, in the kernel's order, and
    what the record goes on with after them. *)
Record stat_record : Type := StatRecord {
  st_pid : Z;
  st_comm : text;
  st_state : ascii;
  st_ppid : Z;
  st_pgrp : Z;
  st_session : Z;
  st_tty_nr : Z;
  st_tpgid : Z;
  st_flags : N;
  st_minflt : N;
  st_cminflt : N;
  st_majflt : N;
  st_cmajflt : N;
  st_utime : Z;
  st_stime : Z;
  st_cutime : Z;
  st_cstime : Z;
  st_priority : Z;
  st_nice : Z;
  st_num_threads : N;
  st_itrealvalue : N;
  st_starttime : Z;
  st_vsize : N;
  st_rss : N;
  st_rsslim : N;
  st_startcode : N;
  st_endcode : N;
  st_startstack : N;
  st_more : text
}.

(** The record as the kernel prints it: the fields separated by one space,
    the executable name in parentheses. *)
Definition render (r : stat_record) : text :=
  sdec (st_pid r) ++ " "%char :: "("%char :: st_comm r ++ ")"%char :: " "%char
  :: st_state r :: " "%char
  :: sdec (st_ppid r) ++ " "%char :: sdec (st_pgrp r) ++ " "%char
  :: sdec (st_session r) ++ " "%char :: sdec (st_tty_nr r) ++ " "%char
  :: sdec (st_tpgid r) ++ " "%char
  :: dec (st_flags r) ++ " "%char :: dec (st_minflt r) ++ " "%char
  :: dec (st_cminflt r) ++ " "%char :: dec (st_majflt r) ++ " "%char
  :: dec (st_cmajflt r) ++ " "%char
  :: sdec (st_utime r) ++ " "%char :: sdec (st_stime r) ++ " "%char
  :: sdec (st_cutime r) ++ " "%char :: sdec (st_cstime r) ++ " "%char
  :: sdec (st_priority r) ++ " "%char :: sdec (st_nice r) ++ " "%char
  :: dec (st_num_threads r) ++ " "%char :: dec (st_itrealvalue r) ++ " "%char
  :: sdec (st_starttime r) ++ " "%char
  :: dec (st_vsize r) ++ " "%char :: dec (st_rss r) ++ " "%char
  :: dec (st_rsslim r) ++ " "%char :: dec (st_startcode r) ++ " "%char
  :: dec (st_endcode r) ++ " "%char :: dec (st_startstack r) ++ " "%char
  :: st_more r.

(** The line of /proc/stat for core [n]: the counters user, nice, system,
    idle, iowait and irq, and whatever the kernel prints after them. *)
Definition cpu_line (n user nice system idle iowait irq : N) (more : text) : text :=
  txt "cpu" ++ dec n ++ " "%char :: dec user ++ " "%char :: dec nice
    ++ " "%char :: dec system ++ " "%char :: dec idle ++ " "%char :: dec iowait
    ++ " "%char :: dec irq ++ more.

(** Of the lines of /proc/stat, those of the cores: the lines before the
    first that does not begin with "cpu", less the aggregate ones. *)
Fixpoint core_lines (lines : list text) : list text :=
  match lines with
  | [] => []
  | l :: r =>
      if CLib.strncmp_eq l "cpu " 4 then core_lines r
      else if CLib.strncmp_eq l "cpu" 3 then l :: core_lines r
      else []
  end.

(** Of the lines of /proc/cpuinfo, those that begin with "model name". *)
Definition model_name_lines (lines : list text) : list text :=
  filter (λ l, CLib.strncmp_eq l "model name" 10 = true) lines.

(** That a counter and its product with the multiplier fit
    [unsigned long long]. *)
Definition fits_ms (clk : Z) (ticks : N) : Prop :=
  Z.of_N ticks < 2 ^ 64 ∧ Z.of_N ticks * (1000 `div` clk) < 2 ^ 64.

(** An entry of the interface list that is up and running, has an address
    and is not of the packet family. *)
Definition surfaced (ent : Platform.ifaddrs) : bool :=
  Z.testbit (Platform.ifa_flags ent) 0 && Z.testbit (Platform.ifa_flags ent) 6
  && match Platform.ifa_addr ent with
     | Some sa => negb (Platform.sa_family sa =? Platform.PF_PACKET)
     | None => false
     end.

(** The title slot, when set, points to a live block. *)
Definition title_live (st : Platform.process) : Prop :=
  match Platform.process_title st with
  | Some p => is_Some (Platform.memory st !! p)
  | None => True
  end.

(** The heap less the block the title slot owns. *)
Definition without_title (st : Platform.process) : CLib.heap :=
  match Platform.process_title st with
  | Some p => delete p (Platform.memory st)
  | None => Platform.memory st
  end.

(** ** Invariants of the interface loop *)

(** The entries filed under [name]. *)
Definition filed (h : Platform.js_heap) (name : text)
  : V8.Array Platform.address_entry :=
  match Platform.ret h !! name with
  | Some a => default [] (Platform.arrays h !! a)
  | None => []
  end.

(** Every handle in [ret] names an array, and no two names share one. *)
Definition handles_ok (h : Platform.js_heap) : Prop :=
  (∀ name a, Platform.ret h !! name = Some a →
             (a < length (Platform.arrays h))%nat)
  ∧ (∀ n1 n2 a, Platform.ret h !! n1 = Some a → Platform.ret h !! n2 = Some a →
                n1 = n2).

(** How an entry and the slot made from it relate. *)
Definition entry_slot (ent : Platform.ifaddrs)
    (slot : option Platform.address_entry) : Prop :=
  ∃ o, slot = Some o
       ∧ (Platform.internal o = true ↔ Z.testbit (Platform.ifa_flags ent) 3 = true).

(** The heap after the loop has gone over [addrs]. *)
Definition filed_as (addrs : list Platform.ifaddrs) (h : Platform.js_heap) : Prop :=
  handles_ok h
  ∧ ∀ name,
      Forall2 entry_slot
        (filter (λ ent, surfaced ent = true ∧ Platform.ifa_name ent = name) addrs)
        (filed h name)
      ∧ (Platform.ret h !! name = None
         ↔ filter (λ ent, surfaced ent = true ∧ Platform.ifa_name ent = name) addrs
           = []).

(** ** Sample inputs *)

(** A text file, given by its lines. *)
Definition file_of (lines : list string) : text :=
  concat ((λ l, txt l ++ [LF]) <$> lines).

(** A heap with two caller strings and a slot that already owns a
    title. *)
Definition title_example : Platform.process :=
  Platform.Process {[ 1%positive := txt "node" ++ [NUL];
                      2%positive := txt "worker-1" ++ [NUL];
                      3%positive := txt "worker-2" ++ [NUL] ]}
    (Some 1%positive) (txt "node") None.

(** A record as the kernel prints it for a process with 3000000000 bytes
    of address space and 5000 resident pages. *)
Definition large_vsize_record : stat_record :=
  StatRecord 1234 (txt "node") "S" 1 1234 1234 0 (-1)
    4202496 500 0 0 0 10 5 0 0 20 0 6 0 100000
    3000000000 5000 18446744073709551615
    4194304 4198400 140736000000000 [].

(** Two cores; /proc/cpuinfo gives 1600 MHz; only core 0 has a frequency
    file, which gives 2400000 kHz. *)
Definition two_cores : Platform.cpu_sources :=
  Platform.CpuSources 100
    (Some (file_of ["processor : 0"; "model name : ARMv7 Processor rev 2";
                    "cpu MHz : 1600.000";
                    "processor : 1"; "model name : ARMv7 Processor rev 2";
                    "cpu MHz : 1600.000"]))
    (Some (file_of ["cpu  12 22 32 42 52 62 72"; "cpu0 1 2 3 4 5 6 7";
                    "cpu1 11 12 13 14 15 16 17"; "intr 5"]))
    (λ i, if i is O then Some (file_of ["2400000"]) else None).

(** The same machine with /proc/cpuinfo unreadable. *)
Definition no_cpuinfo : Platform.cpu_sources :=
  Platform.CpuSources 100 None (Platform.proc_stat two_cores)
    (Platform.cpuinfo_max_freq two_cores).


(** ** Vocabulary of the further properties *)

(** The title a history of calls sets last ([cur]: the one set before). *)
Fixpoint last_title (cs : list Platform.title_call) (cur : option CLib.addr)
  : option CLib.addr :=
  match cs with
  | [] => cur
  | Platform.CallSetProcessTitle t :: cs' => last_title cs' (Some t)
  | _ :: cs' => last_title cs' cur
  end.

(** A call that [SetProcessTitle] or [GetProcessTitle] can make on the
    caller's heap [m]: the title handed over is a string of [m]. *)
Definition title_call_ok (m : CLib.heap) (c : Platform.title_call) : Prop :=
  match c with
  | Platform.CallSetupArgs _ => False
  | Platform.CallSetProcessTitle t => is_Some (CLib.string_at m t)
  | Platform.CallGetProcessTitle => True
  end.

(** How the title slot and the heap stand when [cur] was set last over the
    caller's heap [m]: one block more than [m], the copy of that title. *)
Definition title_is (m : CLib.heap) (cur : option CLib.addr)
    (st : Platform.process) : Prop :=
  match cur with
  | Some t =>
      ∃ q s, Platform.process_title st = Some q ∧ m !! q = None
             ∧ CLib.string_at m t = Some s
             ∧ Platform.memory st = <[q := s ++ [NUL]]> m
  | None => Platform.process_title st = None ∧ Platform.memory st = m
  end.

(** The state and the fields up to the start time, as the kernel prints
    them, followed by [rest]. *)
Definition render_state_to_start (r : stat_record) (rest : text) : text :=
  st_state r :: " "%char
  :: sdec (st_ppid r) ++ " "%char :: sdec (st_pgrp r) ++ " "%char
  :: sdec (st_session r) ++ " "%char :: sdec (st_tty_nr r) ++ " "%char
  :: sdec (st_tpgid r) ++ " "%char
  :: dec (st_flags r) ++ " "%char :: dec (st_minflt r) ++ " "%char
  :: dec (st_cminflt r) ++ " "%char :: dec (st_majflt r) ++ " "%char
  :: dec (st_cmajflt r) ++ " "%char
  :: sdec (st_utime r) ++ " "%char :: sdec (st_stime r) ++ " "%char
  :: sdec (st_cutime r) ++ " "%char :: sdec (st_cstime r) ++ " "%char
  :: sdec (st_priority r) ++ " "%char :: sdec (st_nice r) ++ " "%char
  :: dec (st_num_threads r) ++ " "%char :: dec (st_itrealvalue r) ++ " "%char
  :: sdec (st_starttime r) ++ " "%char :: rest.

(** The first 22 fields of a record, followed by [rest]. *)
Definition render_head (r : stat_record) (rest : text) : text :=
  sdec (st_pid r) ++ " "%char :: "("%char :: st_comm r ++ ")"%char :: " "%char
  :: render_state_to_start r rest.

(** [s] begins with a character that is neither white space, nor a digit,
    nor a sign: no number can be read from it. *)
Definition no_number (s : text) : bool :=
  match s with
  | [] => false
  | c :: _ =>
      negb (CLib.isspace c) && negb (CLib.isdigit c)
      && negb (Ascii.eqb c "-") && negb (Ascii.eqb c "+")
  end.

(** A record of a process with 300000000 bytes of address space and 5000
    resident pages. *)
Definition sample_record : stat_record :=
  StatRecord 1234 (txt "my(app)") "S" 1 1234 1234 0 (-1)
    4202496 500 0 0 0 10 5 0 0 20 0 6 0 100000
    300000000 5000 18446744073709551615
    4194304 4198400 140736000000000 (txt "0 0" ++ [LF]).

(** The object the loop of [GetInterfaceAddresses] makes from an entry it
    does not skip: the text [inet_ntop] leaves in [ip], or the text copied
    there for a family that is neither, the family label, and the loopback
    test. *)
Definition entry_object (inet_ntop : Z → list Z → text)
    (ent : Platform.ifaddrs) : Platform.address_entry :=
  let family := from_option Platform.sa_family 0 (Platform.ifa_addr ent) in
  let data := from_option Platform.sa_data [] (Platform.ifa_addr ent) in
  Platform.AddressEntry
    (if family =? Platform.AF_INET6 then inet_ntop Platform.AF_INET6 data
     else if family =? Platform.AF_INET then inet_ntop Platform.AF_INET data
     else txt "<unknown sa family>")
    (if family =? Platform.AF_INET6 then "IPv6"%string
     else if family =? Platform.AF_INET then "IPv4"%string
     else "<unknown>"%string)
    (Platform.has_flag (Platform.ifa_flags ent) Platform.IFF_LOOPBACK).

(** A "model name" line of /proc/cpuinfo: the key, what stands between it
    and the colon, the character after the colon, the name, and the last
    character of the line. *)
Definition model_name_line (pad : text) (sep : ascii) (name : text)
    (last : ascii) : text :=
  txt "model name" ++ pad ++ ":"%char :: sep :: name ++ [last].

(** A "cpu MHz" line of /proc/cpuinfo: the key, white space, the colon, a
    space, the whole megahertz, and what follows them. *)
Definition cpu_MHz_line (pad : text) (mhz : N) (more : text) : text :=
  txt "cpu MHz" ++ pad ++ ":"%char :: " "%char :: dec mhz ++ more.

(** A line of /proc/cpuinfo that is neither. *)
Definition other_line (l : text) : Prop :=
  CLib.strncmp_eq l "model name" 10 = false
  ∧ CLib.strncmp_eq l "cpu MHz" 7 = false.

(** [lines] is empty or begins with a "model name" line. *)
Definition next_processor (lines : list text) : Prop :=
  match lines with
  | [] => True
  | l :: _ => CLib.strncmp_eq l "model name" 10 = true
  end.

(** The number of processors [GetCPUInfo] counts and the number of core
    lines it reads. *)
Definition processors (src : Platform.cpu_sources) : nat :=
  match Platform.proc_cpuinfo src with
  | Some info => length (model_name_lines (CLib.fgets_all 511 info))
  | None => 0
  end.

Definition cores (src : Platform.cpu_sources) : nat :=
  match Platform.proc_stat src with
  | Some content => length (core_lines (CLib.fgets_all 511 content))
  | None => 0
  end.

(** A line of /proc/stat for core [n] that ends after the idle counter, as
    kernels before 2.6 print it. *)
Definition short_cpu_line (n user nice system idle : N) : text :=
  txt "cpu" ++ dec n ++ " "%char :: dec user ++ " "%char :: dec nice
    ++ " "%char :: dec system ++ " "%char :: dec idle ++ [LF].

(** The machine of [two_cores] under a kernel that prints the line of
    core 1 without the counters after idle. *)
Definition short_second_core : Platform.cpu_sources :=
  Platform.CpuSources 100 (Platform.proc_cpuinfo two_cores)
    (Some (file_of ["cpu  12 22 32 42 52 62 72"; "cpu0 1 2 3 4 5 6 7"]
           ++ short_cpu_line 1 11 12 13 14))
    (Platform.cpuinfo_max_freq two_cores).



(** The machine of [two_cores] with a clock of 300 ticks a second. *)
Definition clock_300 : Platform.cpu_sources :=
  Platform.CpuSources 300 (Platform.proc_cpuinfo two_cores)
    (Platform.proc_stat two_cores) (Platform.cpuinfo_max_freq two_cores).

(** One core whose user counter is 2^53 + 1, at 100 ticks a second. *)
Definition long_running : Platform.cpu_sources :=
  Platform.CpuSources 100 None
    (Some (file_of ["cpu0 9007199254740993 2 3 4 5 6 7"])) (λ _, None).

(** A loopback address that is up and running. *)
Definition lo_entry : Platform.ifaddrs :=
  Platform.Ifaddrs (txt "lo") 0x49
    (Some (Platform.Sockaddr Platform.AF_INET [127; 0; 0; 1])).

(* ------------------------------------------------------------------ *)
(** * Part II. Properties                                               *)
(* ------------------------------------------------------------------ *)

(** ** Decimal text *)

Section Decimal.
Import CLib.

Lemma pretty_N_char_digit d :
  (d < 10)%N →
  isdigit (pretty_N_char d) = true ∧ digit_value (pretty_N_char d) = Z.of_N d.
Proof.
  intros Hd.
  assert (d = 0 ∨ d = 1 ∨ d = 2 ∨ d = 3 ∨ d = 4 ∨ d = 5 ∨ d = 6 ∨ d = 7
          ∨ d = 8 ∨ d = 9)%N as Hcases by lia.
  repeat (destruct Hcases as [->|Hcases]; [by vm_compute|]).
  subst d. by vm_compute.
Qed.

Lemma txt_String c s : txt (String c s) = c :: txt s.
Proof. reflexivity. Qed.

(** What [pretty_N_go] puts in front of its accumulator: digits, whose
    value is the number. *)
Lemma pretty_N_go_digits x s :
  ∃ ds, txt (pretty_N_go x s) = ds ++ txt s
        ∧ Forall (λ c, isdigit c = true) ds
        ∧ (∀ acc, fold_left (λ a c, 10 * a + digit_value c) ds acc
                  = acc * 10 ^ Z.of_nat (length ds) + Z.of_N x)
        ∧ ((0 < x)%N → ds ≠ [])
        ∧ (∀ k, (x < 10 ^ k)%N → (length ds ≤ N.to_nat k)%nat).
Proof.
  revert s. induction (N.lt_wf_0 x) as [x _ IH]; intros s.
  destruct (decide (x = 0)%N) as [->|Hx].
  { exists []. rewrite pretty_N_go_0. repeat split; simpl; auto with lia. }
  rewrite pretty_N_go_step by lia.
  destruct (IH (x `div` 10)%N) with (s := String (pretty_N_char (x `mod` 10)) s)
    as (ds & Heq & Hdig & Hval & _ & Hlen).
  { apply N.div_lt; lia. }
  destruct (pretty_N_char_digit (x `mod` 10)%N) as [Hd Hv].
  { apply N.mod_lt; lia. }
  exists (ds ++ [pretty_N_char (x `mod` 10)]).
  rewrite Heq, txt_String, <- app_assoc. split; [done|].
  split; [apply Forall_app; split; [done|by constructor]|].
  split; [|split].
  - intros acc. rewrite fold_left_app, Hval. simpl. rewrite Hv.
    rewrite length_app. simpl.
    replace (Z.of_nat (length ds + 1)) with (Z.of_nat (length ds) + 1) by lia.
    rewrite Z.pow_add_r, Z.pow_1_r by lia.
    pose proof (N.div_mod x 10 ltac:(lia)) as Hdm.
    rewrite N2Z.inj_div. rewrite N2Z.inj_mod.
    pose proof (Z.div_mod (Z.of_N x) 10 ltac:(lia)). simpl Z.of_N. lia.
  - intros _. by destruct ds.
  - intros k Hk. rewrite length_app. simpl.
    destruct (decide (k = 0)%N) as [->|Hk0].
    { simpl in Hk. lia. }
    specialize (Hlen (k - 1)%N).
    assert (x `div` 10 < 10 ^ (k - 1))%N as Hdiv.
    { apply N.Div0.div_lt_upper_bound.
      rewrite <- N.pow_succ_r'. by replace (N.succ (k - 1)) with k by lia. }
    specialize (Hlen Hdiv). lia.
Qed.

Lemma dec_spec n :
  dec n ≠ [] ∧ Forall (λ c, isdigit c = true) (dec n)
  ∧ decimal_value (dec n) = Z.of_N n
  ∧ (∀ k, (0 < k)%N → (n < 10 ^ k)%N → (length (dec n) ≤ N.to_nat k)%nat).
Proof.
  unfold dec, pretty, pretty_N. destruct (decide (n = 0)%N) as [->|Hn].
  { repeat split; [done|by repeat constructor|simpl; lia]. }
  destruct (pretty_N_go_digits n "") as (ds & -> & Hdig & Hval & Hne & Hlen).
  simpl. rewrite app_nil_r. split; [apply Hne; lia|]. split; [done|].
  split; [|by auto].
  unfold decimal_value. rewrite Hval. lia.
Qed.

Lemma dec_value n : decimal_value (dec n) = Z.of_N n.
Proof. apply dec_spec. Qed.

Lemma dec_digits n : Forall (λ c, isdigit c = true) (dec n).
Proof. apply dec_spec. Qed.

Lemma dec_nonempty n : dec n ≠ [].
Proof. apply dec_spec. Qed.

Lemma dec_length n k :
  (0 < k)%N → (n < 10 ^ k)%N → (length (dec n) ≤ N.to_nat k)%nat.
Proof. apply dec_spec. Qed.
End Decimal.

(** ** Scanning *)

Section Scanning.
Import CLib.

(** The three results of a call: a conversion, a matching failure, the end
    of the input. *)
Example fscanf_converts :
  fscanf (txt "1234 (node) S") "%d " = Scanned 1 [VInt (Some 1234)] (txt "(node) S").
Proof. reflexivity. Qed.

Example fscanf_matching_failure :
  fscanf (txt "(node) S") "%d " = Scanned 0 [] (txt "(node) S").
Proof. reflexivity. Qed.

Example fscanf_end_of_input : fscanf [] "%d " = Scanned EOF [] [].
Proof. reflexivity. Qed.

Example sscanf_cpu_MHz :
  assigned (sscanf (txt "cpu MHz		: 2400.000") "%*s %*s : %u") = [VInt (Some 2400)].
Proof. reflexivity. Qed.

Lemma span_app p a s :
  Forall (λ c, p c = true) a → stops p s → span p (a ++ s) = (a, s).
Proof.
  intros Ha Hs. induction Ha as [|c a Hc _ IH]; simpl.
  - destruct s as [|c s]; [done|]. simpl in *. by rewrite Hs.
  - by rewrite Hc, IH.
Qed.

Lemma span_stops p s : stops p s → span p s = ([], s).
Proof. intros. by apply (span_app p []). Qed.

Lemma skip_space_stops s : stops isspace s → skip_space s = s.
Proof. intros. unfold skip_space. by rewrite span_stops. Qed.

Lemma skip_space_cons c s : isspace c = true → skip_space (c :: s) = skip_space s.
Proof.
  intros Hc. unfold skip_space. simpl. rewrite Hc. by destruct (span isspace s).
Qed.

Lemma isdigit_not_space c : isdigit c = true → isspace c = false.
Proof.
  unfold isdigit, isspace. intros H.
  apply andb_true_iff in H as [H1 H2].
  apply N.leb_le in H1. apply N.leb_le in H2.
  apply orb_false_iff. split.
  - apply N.eqb_neq. lia.
  - apply andb_false_iff. right. apply N.leb_gt. lia.
Qed.

Lemma isdigit_not_sign c :
  isdigit c = true → Ascii.eqb c "-" || Ascii.eqb c "+" = false.
Proof.
  intros H. apply orb_false_iff.
  split; apply Ascii.eqb_neq; intros ->; by vm_compute in H.
Qed.

Lemma isdigit_not_NUL c : isdigit c = true → c ≠ NUL.
Proof. intros H ->. by vm_compute in H. Qed.

(** A decimal field followed by something that is no digit. *)
Lemma dec_app_stops n s :
  ∃ c r, dec n ++ s = c :: r ∧ isdigit c = true.
Proof.
  pose proof (dec_nonempty n) as Hne. pose proof (dec_digits n) as Hd.
  destruct (dec n) as [|c r]; [done|]. exists c, (r ++ s).
  split; [done|]. by inversion Hd.
Qed.

Lemma skip_space_dec n s : skip_space (dec n ++ s) = dec n ++ s.
Proof.
  destruct (dec_app_stops n s) as (c & r & Heq & Hc). rewrite Heq.
  apply skip_space_stops. simpl. by apply isdigit_not_space.
Qed.

(** The numeric conversions read back what [dec] printed. *)
Lemma scan_int_dec signed bits n s :
  stops isdigit s →
  scan_int signed bits (dec n ++ s)
  = Matched (VInt (int_result signed bits false (Z.of_N n))) s.
Proof.
  intros Hs. unfold scan_int. rewrite skip_space_dec.
  destruct (dec_app_stops n s) as (c & r & Heq & Hc). rewrite Heq.
  assert (Ascii.eqb c "-" = false) as Hneg.
  { apply isdigit_not_sign in Hc. by apply orb_false_iff in Hc as [? ?]. }
  rewrite (isdigit_not_sign c Hc), Hneg. rewrite <- Heq.
  rewrite (span_app isdigit (dec n) s (dec_digits n) Hs).
  rewrite dec_value.
  pose proof (dec_nonempty n). by destruct (dec n).
Qed.

Lemma int_result_unsigned bits n :
  0 ≤ n < 2 ^ bits → int_result false bits false n = Some n.
Proof.
  intros [H1 H2]. unfold int_result.
  apply Z.leb_le in H1. apply Z.ltb_lt in H2. by rewrite H1, H2.
Qed.

Lemma int_result_signed bits n :
  0 ≤ n < 2 ^ (bits - 1) → int_result true bits false n = Some n.
Proof.
  intros [H1 H2]. unfold int_result.
  assert (- 2 ^ (bits - 1) ≤ n) as H0 by lia.
  apply Z.leb_le in H0. apply Z.ltb_lt in H2. by rewrite H0, H2.
Qed.
End Scanning.

(** ** C strings and the heap *)

Section Strings.
Import CLib.

Lemma span_fst_Forall p s : Forall (λ c, p c = true) (fst (span p s)).
Proof.
  induction s as [|c s IH]; simpl; [done|].
  destruct (p c) eqn:Hc; [|done].
  destruct (span p s). simpl in *. by constructor.
Qed.

Lemma not_NUL_iff c : negb (Ascii.eqb c NUL) = true ↔ c ≠ NUL.
Proof. rewrite negb_true_iff. apply Ascii.eqb_neq. Qed.

Lemma c_str_no_NUL a : NUL ∉ c_str a.
Proof.
  unfold c_str. intros Hin.
  pose proof (span_fst_Forall (λ c, negb (Ascii.eqb c NUL)) a) as Hall.
  rewrite Forall_forall in Hall. apply Hall in Hin. by vm_compute in Hin.
Qed.

Lemma c_str_app_NUL s r : NUL ∉ s → c_str (s ++ NUL :: r) = s.
Proof.
  intros Hs. unfold c_str. rewrite span_app; [done| |done].
  apply Forall_forall. intros c Hc. apply not_NUL_iff. by intros ->.
Qed.

(** An array without NUL in front of its end: the string functions see
    the characters up to where the rest's own string ends. *)
Lemma c_str_app s r : NUL ∉ s → c_str (s ++ r) = s ++ c_str r.
Proof.
  intros Hs. unfold c_str. induction s as [|c s IH]; simpl; [done|].
  apply not_elem_of_cons in Hs as [Hc Hs].
  assert (Ascii.eqb c NUL = false) as -> by (apply Ascii.eqb_neq; congruence).
  simpl. specialize (IH Hs).
  destruct (span _ (s ++ r)), (span _ r). simpl in *. by rewrite IH.
Qed.

Lemma c_str_id s : NUL ∉ s → c_str s = s.
Proof.
  intros Hs. rewrite <- (app_nil_r s) at 1. by rewrite c_str_app, app_nil_r.
Qed.

Lemma string_at_no_NUL m p s : string_at m p = Some s → NUL ∉ s.
Proof.
  unfold string_at. destruct (m !! p) as [b|]; simpl; [|done].
  case_bool_decide; [|done]. intros [= <-]. apply c_str_no_NUL.
Qed.

Lemma string_at_insert_eq m q s :
  NUL ∉ s → string_at (<[q := s ++ [NUL]]> m) q = Some s.
Proof.
  intros Hs. unfold string_at. rewrite lookup_insert_eq. simpl.
  rewrite bool_decide_true by set_solver. by rewrite c_str_app_NUL.
Qed.

Lemma string_at_insert_ne m p q b :
  p ≠ q → string_at (<[q := b]> m) p = string_at m p.
Proof. intros. unfold string_at. by rewrite lookup_insert_ne. Qed.

Lemma string_at_delete_ne m p q :
  p ≠ q → string_at (delete q m) p = string_at m p.
Proof. intros. unfold string_at. by rewrite lookup_delete_ne. Qed.

Lemma string_at_live m p s : string_at m p = Some s → is_Some (m !! p).
Proof. unfold string_at. destruct (m !! p); [eauto|done]. Qed.

Lemma strdup_returns m p s :
  string_at m p = Some s →
  strdup m p = Returns (fresh (dom m), <[fresh (dom m) := s ++ [NUL]]> m).
Proof. intros H. unfold strdup. by rewrite H. Qed.

Lemma fresh_not_live (m : heap) : m !! fresh (dom m) = None.
Proof. apply not_elem_of_dom, is_fresh. Qed.
End Strings.

(** ** The process title *)

Section Title.
Import CLib Platform.

Lemma to_int_small n : 0 ≤ n < 2 ^ 31 → to_int n = n.
Proof. intros. unfold to_int. rewrite Z.mod_small; lia. Qed.

(** Freeing the slot leaves [without_title]. *)
Lemma free_title st :
  title_live st →
  (if process_title st is Some p then free (memory st) p else Returns (memory st))
  = Returns (without_title st).
Proof.
  unfold title_live, without_title, free.
  destruct (process_title st) as [p|]; [|done].
  by intros [b ->].
Qed.

Lemma string_at_without_title st a s :
  string_at (memory st) a = Some s → process_title st ≠ Some a →
  string_at (without_title st) a = Some s.
Proof.
  intros Hs Hne. unfold without_title.
  destruct (process_title st) as [p|]; [|done].
  rewrite string_at_delete_ne; [done|congruence].
Qed.

(** One call, on a platform with [PR_SET_NAME]. *)
Lemma SetProcessTitle_returns st a s :
  title_live st → string_at (memory st) a = Some s → process_title st ≠ Some a →
  let q := fresh (dom (without_title st)) in
  SetProcessTitle true a st
  = Returns (Process (<[q := s ++ [NUL]]> (without_title st)) (Some q)
               (take 15 s) (pending_exception st)).
Proof.
  intros Hlive Hs Hne q. unfold SetProcessTitle.
  rewrite free_title by done. simpl.
  rewrite (strdup_returns _ _ s) by by apply string_at_without_title.
  simpl. fold q. unfold prctl_set_name. simpl.
  rewrite string_at_insert_eq by by eapply string_at_no_NUL. done.
Qed.

Lemma GetProcessTitle_returns m q s name exc :
  string_at m q = Some s → Z.of_nat (length s) < 2 ^ 31 →
  GetProcessTitle (Process m (Some q) name exc)
  = Returns (Some q, Z.of_nat (length s)).
Proof.
  intros Hs Hlen. unfold GetProcessTitle. simpl. rewrite Hs.
  rewrite to_int_small by lia. done.
Qed.

(** C9: on a platform with the title facility, [GetProcessTitle] after
    [SetProcessTitle(t)] returns a pointer to a copy of [t] and the length
    of [t]; after a second [SetProcessTitle] the second title is the one
    returned, and the heap is the heap of the start, less the block the
    slot owned then, plus one block: the copy of the second title.  The
    titles are live C strings other than the slot's own block, shorter
    than 2^31 bytes. *)
Theorem SetProcessTitle_then_GetProcessTitle st a b ta tb :
  title_live st →
  string_at (memory st) a = Some ta → string_at (memory st) b = Some tb →
  process_title st ≠ Some a → process_title st ≠ Some b →
  Z.of_nat (length ta) < 2 ^ 31 → Z.of_nat (length tb) < 2 ^ 31 →
  ∃ st1 p1 st2 p2,
    SetProcessTitle true a st = Returns st1
    ∧ GetProcessTitle st1 = Returns (Some p1, Z.of_nat (length ta))
    ∧ string_at (memory st1) p1 = Some ta
    ∧ SetProcessTitle true b st1 = Returns st2
    ∧ GetProcessTitle st2 = Returns (Some p2, Z.of_nat (length tb))
    ∧ string_at (memory st2) p2 = Some tb
    ∧ without_title st !! p2 = None
    ∧ memory st2 = <[p2 := tb ++ [NUL]]> (without_title st).
Proof.
  intros Hlive Ha Hb Hna Hnb Hla Hlb.
  set (base := without_title st). set (q := fresh (dom base)).
  pose proof (fresh_not_live base) as Hq. fold q in Hq.
  pose proof (string_at_no_NUL _ _ _ Ha) as Hta.
  pose proof (string_at_no_NUL _ _ _ Hb) as Htb.
  set (st1 := Process (<[q := ta ++ [NUL]]> base) (Some q) (take 15 ta)
                (pending_exception st)).
  assert (SetProcessTitle true a st = Returns st1) as H1
    by by apply SetProcessTitle_returns.
  assert (without_title st1 = base) as Hbase1.
  { unfold without_title, st1. simpl. by apply delete_insert_id. }
  assert (string_at base b = Some tb) as Hb'
    by by apply string_at_without_title.
  assert (b ≠ q) as Hbq.
  { intros ->. apply string_at_live in Hb' as [? Hb']. congruence. }
  assert (SetProcessTitle true b st1
          = Returns (Process (<[q := tb ++ [NUL]]> base) (Some q) (take 15 tb)
                       (pending_exception st))) as H2.
  { rewrite (SetProcessTitle_returns st1 b tb).
    - by rewrite Hbase1.
    - unfold title_live, st1. simpl. rewrite lookup_insert_eq. eauto.
    - unfold st1. simpl. by rewrite string_at_insert_ne.
    - unfold st1. simpl. congruence. }
  eexists st1, q, _, q. split; [exact H1|].
  split; [by apply GetProcessTitle_returns; [apply string_at_insert_eq|]|].
  split; [by apply string_at_insert_eq|].
  split; [exact H2|].
  split; [by apply GetProcessTitle_returns; [apply string_at_insert_eq|]|].
  split; [by apply string_at_insert_eq|].
  done.
Qed.

Lemma SetProcessTitle_then_GetProcessTitle_witness :
  title_live title_example
  ∧ ∃ st1 p1 st2 p2,
    SetProcessTitle true 2%positive title_example = Returns st1
    ∧ GetProcessTitle st1 = Returns (Some p1, 8)
    ∧ string_at (memory st1) p1 = Some (txt "worker-1")
    ∧ SetProcessTitle true 3%positive st1 = Returns st2
    ∧ GetProcessTitle st2 = Returns (Some p2, 8)
    ∧ string_at (memory st2) p2 = Some (txt "worker-2")
    ∧ without_title title_example !! p2 = None
    ∧ memory st2 = <[p2 := txt "worker-2" ++ [NUL]]> (without_title title_example).
Proof.
  split; [by (vm_compute; eauto)|].
  apply (SetProcessTitle_then_GetProcessTitle title_example 2%positive 3%positive
           (txt "worker-1") (txt "worker-2")).
  - by (vm_compute; eauto).
  - by vm_compute.
  - by vm_compute.
  - done.
  - done.
  - by vm_compute.
  - by vm_compute.
Defined.

Lemma run_calls_reads PR_SET_NAME_defined cs m name :
  Forall (λ c, stores_title c = false) cs →
  run_calls PR_SET_NAME_defined cs (process_start m name)
  = Returns (process_start m name).
Proof.
  induction 1 as [|c cs Hc _ IH]; simpl; [done|].
  destruct c; simpl in *; done.
Qed.

(** C10: as long as neither [SetupArgs] nor [SetProcessTitle] has been
    called, [GetProcessTitle] returns the null pointer and stores 0 in
    [*len]. *)
Theorem GetProcessTitle_before_any_store PR_SET_NAME_defined cs m name :
  Forall (λ c, stores_title c = false) cs →
  ∃ st, run_calls PR_SET_NAME_defined cs (process_start m name) = Returns st
        ∧ GetProcessTitle st = Returns (None, 0).
Proof.
  intros Hcs. exists (process_start m name).
  split; [by apply run_calls_reads|done].
Qed.

Lemma GetProcessTitle_before_any_store_witness :
  Forall (λ c, stores_title c = false) [CallGetProcessTitle; CallGetProcessTitle]
  ∧ ∃ st, run_calls true [CallGetProcessTitle; CallGetProcessTitle]
            (process_start ∅ (txt "node")) = Returns st
          ∧ GetProcessTitle st = Returns (None, 0).
Proof.
  split; [by repeat constructor|].
  apply GetProcessTitle_before_any_store. by repeat constructor.
Defined.
End Title.

(** ** GetInterfaceAddresses *)

Section InterfaceAddresses.
Import Platform.
Variable inet_ntop : Z → list Z → text.

Lemma has_flag_testbit flags k :
  0 ≤ k → has_flag flags (2 ^ k) = Z.testbit flags k.
Proof.
  intros Hk. unfold has_flag.
  destruct (Z.testbit flags k) eqn:Hbit.
  - apply negb_true_iff, Z.eqb_neq. intros Hland.
    assert (Z.testbit (Z.land flags (2 ^ k)) k = true) as Hk'.
    { by rewrite Z.land_spec, Hbit, Z.pow2_bits_true. }
    rewrite Hland, Z.bits_0 in Hk'. done.
  - apply negb_false_iff, Z.eqb_eq. apply Z.bits_inj'. intros n Hn.
    rewrite Z.land_spec, Z.bits_0, Z.pow2_bits_eqb by done.
    destruct (Z.eqb_spec k n) as [<-|_].
    + by rewrite Hbit.
    + apply andb_false_r.
Qed.

Lemma has_flag_up flags : has_flag flags IFF_UP = Z.testbit flags 0.
Proof. by apply (has_flag_testbit flags 0). Qed.

Lemma has_flag_running flags : has_flag flags IFF_RUNNING = Z.testbit flags 6.
Proof. by apply (has_flag_testbit flags 6). Qed.

Lemma has_flag_loopback flags : has_flag flags IFF_LOOPBACK = Z.testbit flags 3.
Proof. by apply (has_flag_testbit flags 3). Qed.

Lemma interface_entry_skipped h ent :
  surfaced ent = false → interface_entry inet_ntop h ent = h.
Proof.
  unfold surfaced, interface_entry.
  rewrite has_flag_up, has_flag_running.
  destruct (Z.testbit (ifa_flags ent) 0 && Z.testbit (ifa_flags ent) 6);
    simpl; [|done].
  destruct (ifa_addr ent) as [sa|]; [|done].
  by destruct (sa_family sa =? PF_PACKET).
Qed.

Lemma Set_at_end {A} (a : V8.Array A) (v : A) :
  V8.Set_ a (V8.Length a) v = a ++ [Some v].
Proof.
  unfold V8.Set_, V8.Length. rewrite (proj2 (Nat.ltb_ge _ _)) by lia.
  by rewrite Nat.sub_diag.
Qed.

Lemma interface_entry_surfaced h ent :
  surfaced ent = true → handles_ok h →
  ∃ o, internal o = Z.testbit (ifa_flags ent) 3
    ∧ handles_ok (interface_entry inet_ntop h ent)
    ∧ ∀ name,
        filed (interface_entry inet_ntop h ent) name
        = (if decide (name = ifa_name ent) then filed h name ++ [Some o]
           else filed h name)
        ∧ (ret (interface_entry inet_ntop h ent) !! name = None
           ↔ ret h !! name = None ∧ name ≠ ifa_name ent).
Proof.
  unfold surfaced, interface_entry.
  rewrite has_flag_up, has_flag_running, has_flag_loopback.
  intros Hs [Hbound Hinj].
  apply andb_true_iff in Hs as [-> Hs]. cbn [negb].
  destruct (ifa_addr ent) as [sa|]; [|done].
  apply negb_true_iff in Hs. rewrite Hs.
  set (entry := (if sa_family sa =? AF_INET6 then _ else _)).
  destruct entry as [ip fam].
  exists (AddressEntry ip fam (Z.testbit (ifa_flags ent) 3)).
  split; [done|].
  destruct (ret h !! ifa_name ent) as [a|] eqn:Hname.
  - (* the name has its array *)
    pose proof (Hbound _ _ Hname) as Ha.
    destruct (lookup_lt_is_Some_2 (arrays h) a Ha) as [arr Harr].
    split; [split|]; cbn [ret arrays].
    + intros name a' Hn. rewrite length_alter. eauto.
    + done.
    + intros name. unfold filed. cbn [ret arrays].
      destruct (decide (name = ifa_name ent)) as [->|Hne].
      * rewrite Hname, list_lookup_alter_eq, Harr.
        cbn [fmap option_fmap option_map default].
        rewrite Set_at_end. split; [done|]. split; [done|by intros [? _]].
      * split; [|split; [done|by intros [? _]]].
        destruct (ret h !! name) as [a'|] eqn:Hn; [|done].
        rewrite list_lookup_alter_ne; [done|].
        intros <-. apply Hne. by apply (Hinj _ _ a).
  - (* a new array is made for the name *)
    set (a := length (arrays h)).
    assert (alter (λ arr, V8.Set_ arr (V8.Length arr)
                            (AddressEntry ip fam (Z.testbit (ifa_flags ent) 3)))
              a (arrays h ++ [V8.Array_New 0])
            = arrays h
              ++ [[Some (AddressEntry ip fam (Z.testbit (ifa_flags ent) 3))]])
      as Halter.
    { unfold a. by rewrite alter_app_r_alt, Nat.sub_diag by lia. }
    cbn [ret arrays]. rewrite Halter.
    split; [split|]; cbn [ret arrays].
    + intros name a'. rewrite length_app. cbn [length].
      destruct (decide (name = ifa_name ent)) as [->|Hne].
      * rewrite lookup_insert_eq. intros [= <-]. unfold a. lia.
      * rewrite lookup_insert_ne by done. intros Hn%Hbound. lia.
    + intros n1 n2 a'.
      destruct (decide (n1 = ifa_name ent)) as [->|Hne1];
        destruct (decide (n2 = ifa_name ent)) as [->|Hne2];
        rewrite ?lookup_insert_eq, ?lookup_insert_ne by done; try done.
      * intros [= <-] Hn%Hbound. unfold a in Hn. lia.
      * intros Hn%Hbound [= <-]. unfold a in Hn. lia.
      * apply Hinj.
    + intros name. unfold filed. cbn [ret arrays].
      destruct (decide (name = ifa_name ent)) as [->|Hne].
      * rewrite lookup_insert_eq, Hname.
        rewrite lookup_app_r by (unfold a; lia).
        unfold a. rewrite Nat.sub_diag. cbn [lookup list_lookup default].
        split; [done|]. split; [done|by intros [_ ?]].
      * rewrite lookup_insert_ne by done. split; [|split; [done|by intros [? _]]].
        destruct (ret h !! name) as [a'|] eqn:Hn; [|done].
        rewrite lookup_app_l; [done|]. by eapply Hbound.
Qed.

Lemma interface_entry_filed done h ent :
  filed_as done h → filed_as (done ++ [ent]) (interface_entry inet_ntop h ent).
Proof.
  intros [Hok Hfiled].
  destruct (surfaced ent) eqn:Hs.
  - destruct (interface_entry_surfaced h ent Hs Hok) as (o & Ho & Hok' & Hstep).
    split; [done|]. intros name.
    destruct (Hstep name) as [-> Hret]. destruct (Hfiled name) as [Hall Hnone].
    rewrite filter_app, Hret.
    destruct (decide (name = ifa_name ent)) as [->|Hne].
    + rewrite filter_cons_True, filter_nil by done. split.
      * apply Forall2_app; [done|]. constructor; [|done].
        exists o. split; [done|]. by rewrite Ho.
      * split; [by intros [_ ?]|]. intros Hnil. by destruct (filter _ done).
    + rewrite filter_cons_False, filter_nil, app_nil_r
        by (intros [_ ?]; congruence).
      split; [done|]. rewrite <- Hnone. split; [by intros [? _]|done].
  - rewrite interface_entry_skipped by done.
    split; [done|]. intros name. rewrite filter_app.
    rewrite filter_cons_False, filter_nil, app_nil_r
      by (intros [? _]; congruence).
    apply Hfiled.
Qed.

Lemma interface_loop_filed addrs done h :
  filed_as done h →
  filed_as (done ++ addrs) (foldl (interface_entry inet_ntop) h addrs).
Proof.
  revert done h. induction addrs as [|ent addrs IH]; intros done h Hh; simpl.
  - by rewrite app_nil_r.
  - replace (done ++ ent :: addrs) with ((done ++ [ent]) ++ addrs)
      by by rewrite <- app_assoc.
    apply IH. by apply interface_entry_filed.
Qed.

(** A list with a loopback address, an interface that is down, a packet
    entry and an entry without address: only the first and the last but one
    are filed. *)
Example GetInterfaceAddresses_sample :
  ∃ props,
    GetInterfaceAddresses inet_ntop false
      (Some [Ifaddrs (txt "lo") 0x49 (Some (Sockaddr AF_INET [127; 0; 0; 1]));
             Ifaddrs (txt "eth1") 0x1002 (Some (Sockaddr AF_INET [10; 0; 0; 2]));
             Ifaddrs (txt "eth0") 0x1043 (Some (Sockaddr PF_PACKET []));
             Ifaddrs (txt "eth0") 0x1043 (Some (Sockaddr AF_INET [10; 0; 0; 1]));
             Ifaddrs (txt "eth0") 0x1043 None])
    = Object_ props
    ∧ props !! txt "lo"
      = Some [Some (AddressEntry (inet_ntop AF_INET [127; 0; 0; 1]) "IPv4" true)]
    ∧ props !! txt "eth0"
      = Some [Some (AddressEntry (inet_ntop AF_INET [10; 0; 0; 1]) "IPv4" false)]
    ∧ props !! txt "eth1" = None.
Proof.
  eexists. split; [reflexivity|]. repeat split; by vm_compute.
Qed.
End InterfaceAddresses.

(** ** GetMemory: the executable name *)

Section ExecFile.
Import CLib Platform.

Lemma fscanf_c_cons c f : fscanf (c :: f) "%c" = Scanned 1 [VChar c] f.
Proof. reflexivity. Qed.

Lemma fscanf_c_eof : fscanf [] "%c" = Scanned EOF [] [].
Proof. reflexivity. Qed.

(** The loop on a name in which no space comes after a parenthesis: it
    stores the name and its closing parenthesis, ends the string over the
    space, and leaves the input at what follows. *)
Lemma exec_file_loop_name name : ∀ cells seen rest,
  space_after_paren seen name = false →
  (length name + 2 ≤ length cells)%nat →
  exec_file_loop cells (name ++ ")"%char :: " "%char :: rest) seen
  = Next (name ++ ")"%char :: NUL :: drop (length name + 2) cells, rest).
Proof.
  induction name as [|c name IH]; intros cells seen rest Hname Hlen.
  - destruct cells as [|c0 [|c1 cells]]; simpl in Hlen; try lia.
    simpl. destruct seen; reflexivity.
  - destruct cells as [|c0 cells]; simpl in Hlen; [lia|].
    cbn [app exec_file_loop]. rewrite fscanf_c_cons.
    cbn [count assigned remaining]. change (1 =? 0) with false. cbv iota.
    cbn [space_after_paren] in Hname.
    destruct (Ascii.eqb c ")") eqn:Hc.
    + rewrite IH by (done || lia). reflexivity.
    + destruct (seen && Ascii.eqb c " ") eqn:Hsp; [done|].
      rewrite IH by (done || lia). reflexivity.
Qed.

(** The statements under [/* Exec file */] on such a name. *)
Lemma exec_file_scans_name name rest buf :
  space_after_paren false name = false →
  (length name + 3 ≤ length buf)%nat →
  exec_file buf ("("%char :: name ++ ")"%char :: " "%char :: rest)
  = Next ("("%char :: name ++ ")"%char :: NUL :: drop (length name + 3) buf, rest).
Proof.
  intros Hname Hlen. destruct buf as [|b0 cells]; simpl in Hlen; [lia|].
  unfold exec_file. rewrite fscanf_c_cons.
  cbn [count assigned remaining]. change (1 =? 0) with false. cbv iota.
  rewrite exec_file_loop_name by (done || lia).
  replace (length name + 3)%nat with (S (length name + 2)) by lia.
  reflexivity.
Qed.

(** After a closing parenthesis the loop stores what comes before the
    next space and ends the string over that space. *)
Lemma exec_file_loop_after_paren b : ∀ cells rest,
  " "%char ∉ b → (length b + 1 ≤ length cells)%nat →
  exec_file_loop cells (b ++ " "%char :: rest) true
  = Next (b ++ NUL :: drop (length b + 1) cells, rest).
Proof.
  induction b as [|c b IH]; intros cells rest Hb Hlen.
  - destruct cells as [|c0 cells]; simpl in Hlen; [lia|]. reflexivity.
  - destruct cells as [|c0 cells]; simpl in Hlen; [lia|].
    apply not_elem_of_cons in Hb as [Hc Hb].
    cbn [app exec_file_loop]. rewrite fscanf_c_cons.
    cbn [count assigned remaining]. change (1 =? 0) with false. cbv iota.
    destruct (Ascii.eqb c ")") eqn:Hparen.
    + rewrite IH by (done || lia). reflexivity.
    + assert (Ascii.eqb c " " = false) as -> by (apply Ascii.eqb_neq; congruence).
      cbn [andb]. rewrite IH by (done || lia). reflexivity.
Qed.

(** Before the first closing parenthesis the loop stores every character,
    spaces too. *)
Lemma exec_file_loop_before_paren a : ∀ cells b rest,
  ")"%char ∉ a → " "%char ∉ b →
  (length a + length b + 2 ≤ length cells)%nat →
  exec_file_loop cells (a ++ ")"%char :: b ++ " "%char :: rest) false
  = Next (a ++ ")"%char :: b ++ NUL :: drop (length a + length b + 2) cells, rest).
Proof.
  induction a as [|c a IH]; intros cells b rest Ha Hb Hlen.
  - destruct cells as [|c0 cells]; simpl in Hlen; [lia|].
    cbn [app exec_file_loop]. rewrite fscanf_c_cons.
    cbn [count assigned remaining]. change (1 =? 0) with false. cbv iota.
    change (Ascii.eqb ")" ")") with true. cbv iota.
    rewrite exec_file_loop_after_paren by (done || lia).
    cbn [mbind flow_bind length]. do 3 f_equal.
    by replace (0 + length b + 2)%nat with (S (length b + 1)) by lia.
  - destruct cells as [|c0 cells]; simpl in Hlen; [lia|].
    apply not_elem_of_cons in Ha as [Hc Ha].
    cbn [app exec_file_loop]. rewrite fscanf_c_cons.
    cbn [count assigned remaining]. change (1 =? 0) with false. cbv iota.
    assert (Ascii.eqb c ")" = false) as -> by (apply Ascii.eqb_neq; congruence).
    cbn [andb]. rewrite IH by (done || lia). reflexivity.
Qed.

(** C2, as the code has it.  The scanner ends the name at the first space
    that comes after the first closing parenthesis: when the text after the
    opening parenthesis is [a], a closing parenthesis, [b], a space and
    [rest], with no closing parenthesis in [a] and no space in [b], [buf]
    then holds, as a string, the opening parenthesis, [a], the closing
    parenthesis and [b], and scanning resumes at [rest].  So when no space
    comes after a closing parenthesis inside the name, the name is ended at
    its trailing [)]: [buf] holds the name between its parentheses and
    scanning resumes at the state field.  (A name such as [my(app)]
    qualifies; [a) b] and [a)b c] do not.) *)
Theorem exec_file_name buf rest :
  (∀ a b,
     ")"%char ∉ a → " "%char ∉ b →
     (length a + length b + 3 ≤ length buf)%nat →
     NUL ∉ a ++ b →
     ∃ buf',
       exec_file buf ("("%char :: a ++ ")"%char :: b ++ " "%char :: rest)
       = Next (buf', rest)
       ∧ c_str buf' = "("%char :: a ++ ")"%char :: b
       ∧ drop (length a + length b + 3) buf'
         = drop (length a + length b + 3) buf)
  ∧ (∀ name,
       space_after_paren false name = false →
       (length name + 3 ≤ length buf)%nat →
       NUL ∉ name →
       ∃ buf',
         exec_file buf ("("%char :: name ++ ")"%char :: " "%char :: rest)
         = Next (buf', rest)
         ∧ c_str buf' = "("%char :: name ++ [")"%char]
         ∧ drop (length name + 3) buf' = drop (length name + 3) buf).
Proof.
  split.
  - intros a b Ha Hb Hlen Hnul.
    apply not_elem_of_app in Hnul as [Hnul_a Hnul_b].
    set (rest' := drop (length a + length b + 3) buf).
    exists (("("%char :: a ++ ")"%char :: b) ++ NUL :: rest').
    split; [|split].
    + destruct buf as [|b0 cells]; simpl in Hlen; [lia|].
      unfold exec_file. rewrite fscanf_c_cons.
      cbn [count assigned remaining]. change (1 =? 0) with false. cbv iota.
      rewrite exec_file_loop_before_paren by (done || lia).
      cbn [mbind flow_bind]. unfold rest'.
      replace (length a + length b + 3)%nat with (S (length a + length b + 2))
        by lia.
      cbn [drop app]. by rewrite <- app_assoc.
    + apply (c_str_app_NUL ("("%char :: a ++ ")"%char :: b) rest').
      rewrite not_elem_of_cons, not_elem_of_app, not_elem_of_cons.
      split; [done|]. split; [exact Hnul_a|]. split; [done|exact Hnul_b].
    + replace (length a + length b + 3)%nat
        with (length (("("%char :: a ++ ")"%char :: b) ++ [NUL]))
        by (rewrite length_app; cbn [length]; rewrite length_app; cbn [length]; lia).
      replace (("("%char :: a ++ ")"%char :: b) ++ NUL :: rest')
        with ((("("%char :: a ++ ")"%char :: b) ++ [NUL]) ++ rest')
        by (by rewrite <- app_assoc).
      apply drop_app_length.
  - intros name Hname Hlen Hnul. eexists.
    split; [by apply exec_file_scans_name|].
    set (rest' := drop (length name + 3) buf).
    split.
    + replace ("("%char :: name ++ ")"%char :: NUL :: rest')
        with (("("%char :: name ++ [")"%char]) ++ NUL :: rest')
        by (simpl; by rewrite <- app_assoc).
      apply c_str_app_NUL.
      rewrite not_elem_of_cons, not_elem_of_app, not_elem_of_cons.
      split; [done|]. split; [exact Hnul|]. split; [done|apply not_elem_of_nil].
    + replace ("("%char :: name ++ ")"%char :: NUL :: rest')
        with (("("%char :: name ++ [")"%char; NUL]) ++ rest')
        by (simpl; by rewrite <- app_assoc).
      replace (length name + 3)%nat
        with (length ("("%char :: name ++ [")"%char; NUL]))
        by (simpl; rewrite length_app; simpl; lia).
      apply drop_app_length.
Qed.

Lemma exec_file_name_witness :
  (∃ buf',
     exec_file buf_start (txt "(a)b c) S 1 ") = Next (buf', txt "c) S 1 ")
     ∧ c_str buf' = txt "(a)b"
     ∧ drop 5 buf' = drop 5 buf_start)
  ∧ space_after_paren false (txt "my(app)") = false
  ∧ (length (txt "my(app)") + 3 ≤ length buf_start)%nat
  ∧ ∃ buf',
      exec_file buf_start (txt "(my(app)) S 1 ") = Next (buf', txt "S 1 ")
      ∧ c_str buf' = txt "(my(app))"
      ∧ drop 10 buf' = drop 10 buf_start.
Proof.
  split.
  - apply (proj1 (exec_file_name buf_start (txt "c) S 1 ")) (txt "a") (txt "b")).
    + apply (bool_decide_unpack _). by vm_compute.
    + apply (bool_decide_unpack _). by vm_compute.
    + vm_compute; lia.
    + apply (bool_decide_unpack _). by vm_compute.
  - split; [reflexivity|]. split; [vm_compute; lia|].
    apply (proj2 (exec_file_name buf_start (txt "S 1 ")) (txt "my(app)") eq_refl).
    + vm_compute; lia.
    + apply (bool_decide_unpack _). by vm_compute.
Defined.

(** The claim of C2 fails for the name [a) b]: the scanner takes the first
    parenthesis that a space follows for the end, keeps [(a)], and resumes
    inside the name. *)
Lemma exec_file_stops_at_first_space :
  exec_file buf_start (txt "(a) b) S 1 ")
  = Next (txt "(a)" ++ NUL :: drop 4 buf_start, txt "b) S 1 ")
  ∧ exec_file buf_start (txt "(a) b) S 1 ")
    ≠ Next (txt "(a) b)" ++ NUL :: drop 7 buf_start, txt "S 1 ").
Proof.
  assert (exec_file buf_start (txt "(a) b) S 1 ")
          = Next (txt "(a)" ++ NUL :: drop 4 buf_start, txt "b) S 1 ")) as H
    by (vm_compute; reflexivity).
  split; [exact H|]. rewrite H. by intros [=].
Qed.
End ExecFile.

(** ** GetMemory: the return value and the results *)

Section Memory.
Import CLib Platform.

(** C1, as the code has it: a record that ends early is not an error.  At
    the end of the input [fscanf] returns [EOF], which the test against 0
    lets through: the record truncated after six fields yields success,
    with values left over from the fields that were there; the record
    truncated inside the name keeps the name loop going until [cbuf] is past
    the end of [buf]. *)
Theorem GetMemory_truncated_record :
  GetMemory 64 4096 (Some (txt "1234 (node) S 1 2 3")) buf_start
  = Returns (MemoryResult 0 (Stored (Some 12288)) (Stored (Some 3))
               (txt "(node)" ++ NUL :: drop 7 buf_start))
  ∧ GetMemory 64 4096 (Some (txt "1234 (node")) buf_start = Undefined.
Proof. split; vm_compute; reflexivity. Qed.

(** The sample record as text. *)
Example render_large_vsize_record :
  render large_vsize_record
  = txt "1234 (node) S 1 1234 1234 0 -1 4202496 500 0 0 0 10 5 0 0 20 0 6 0 "
    ++ txt "100000 3000000000 5000 18446744073709551615 "
    ++ txt "4194304 4198400 140736000000000 ".
Proof. vm_compute; reflexivity. Qed.

(** C5, as the code has it: the virtual size goes through the [int]
    [itmp], so on a platform with a 64-bit [size_t] a size of 2^31 bytes or
    more comes back sign-extended: 3000000000 bytes are reported as
    18446744072414584320.  (The 5000 resident pages of 4096 bytes are
    reported as they should be.) *)
Theorem GetMemory_vsize_sign_extended :
  GetMemory 64 4096 (Some (render large_vsize_record)) buf_start
  = Returns (MemoryResult 0 (Stored (Some 20480000))
               (Stored (Some 18446744072414584320))
               (txt "(node)" ++ NUL :: drop 7 buf_start))
  ∧ Z.of_N (st_vsize large_vsize_record) = 3000000000
  ∧ Z.of_N (st_rss large_vsize_record) * 4096 = 20480000.
Proof. repeat split; vm_compute; reflexivity. Qed.
End Memory.

(** ** GetExecutablePath *)

Section ExecutablePath.
Import CLib Platform.

Lemma to_size_t_minus_one size_bits :
  0 < size_bits → to_size_t size_bits (-1) = 2 ^ size_bits - 1.
Proof.
  intros H. unfold to_size_t.
  assert (1 < 2 ^ size_bits) by (apply Z.pow_gt_1; lia).
  symmetry. apply (Z.mod_unique_pos _ _ (-1)); lia.
Qed.

(** C4, as the code has it: when [readlink] fails, its -1 becomes the
    largest [size_t], the test [*size <= 0] is false, and the function
    stores a NUL at that index - outside the caller's array - and returns
    0. *)
Theorem GetExecutablePath_readlink_fails size_bits buffer size :
  0 < size_bits → Z.of_nat (length buffer) < 2 ^ size_bits →
  GetExecutablePath size_bits None buffer size
  = Returns (PathResult 0 (2 ^ size_bits - 1) buffer (Some (2 ^ size_bits - 1))).
Proof.
  intros Hbits Hlen. unfold GetExecutablePath, readlink.
  cbn [mbind outcome_bind]. rewrite to_size_t_minus_one by done.
  assert (1 < 2 ^ size_bits) by (apply Z.pow_gt_1; lia).
  rewrite (proj2 (Z.leb_gt _ _)) by lia.
  rewrite (proj2 (Z.ltb_ge _ _)) by lia. reflexivity.
Qed.

Lemma GetExecutablePath_readlink_fails_witness :
  0 < 64 ∧ Z.of_nat (length (replicate 4096 NUL)) < 2 ^ 64
  ∧ GetExecutablePath 64 None (replicate 4096 NUL) 4096
    = Returns (PathResult 0 (2 ^ 64 - 1) (replicate 4096 NUL) (Some (2 ^ 64 - 1))).
Proof.
  split; [lia|]. split; [vm_compute; reflexivity|].
  apply GetExecutablePath_readlink_fails; [lia|vm_compute; reflexivity].
Defined.

Lemma insert_drop_head {A} (x : A) (l : list A) n :
  (n < length l)%nat → <[0%nat := x]> (drop n l) = x :: drop (S n) l.
Proof.
  revert n. induction l as [|a l IH]; intros [|n] Hn; simpl in *; try lia.
  - by rewrite drop_0.
  - apply IH. lia.
Qed.

(** [readlink] with a size the kernel accepts. *)
Lemma readlink_places target buf bufsiz :
  0 < bufsiz < 2 ^ 31 →
  Z.min (Z.of_nat (length target)) bufsiz ≤ Z.of_nat (length buf) →
  readlink (Some target) buf bufsiz
  = Returns (Z.min (Z.of_nat (length target)) bufsiz,
             take (Z.to_nat (Z.min (Z.of_nat (length target)) bufsiz)) target
             ++ drop (Z.to_nat (Z.min (Z.of_nat (length target)) bufsiz)) buf).
Proof.
  intros Hsize Hfits. unfold readlink.
  replace ((bufsiz + 2 ^ 31) `mod` 2 ^ 32 - 2 ^ 31) with bufsiz
    by (rewrite Z.mod_small; lia).
  rewrite (proj2 (Z.leb_gt _ _)) by lia.
  by rewrite (proj2 (Z.leb_le _ _)) by lia.
Qed.

(** When the link resolves to a target that is not empty and fits, and
    the size passed is one the kernel accepts, the function returns 0 with
    the target's length, and the array holds the target followed by NUL. *)
Lemma GetExecutablePath_resolves size_bits target buffer :
  target ≠ [] → (length target < length buffer)%nat →
  Z.of_nat (length buffer) < 2 ^ size_bits →
  Z.of_nat (length buffer) ≤ 2 ^ 31 →
  GetExecutablePath size_bits (Some target) buffer (Z.of_nat (length buffer))
  = Returns (PathResult 0 (Z.of_nat (length target))
               (target ++ NUL :: drop (S (length target)) buffer) None).
Proof.
  intros Hne Hlen Hbits Hint. unfold GetExecutablePath, to_size_t.
  assert (0 < length target)%nat by (destruct target; simpl; [done|lia]).
  rewrite (Z.mod_small (Z.of_nat (length buffer) - 1)) by lia.
  rewrite readlink_places by lia.
  rewrite Z.min_l by lia.
  cbn [mbind outcome_bind]. rewrite Z.mod_small by lia.
  rewrite (proj2 (Z.leb_gt _ _)) by lia.
  rewrite (proj2 (Z.ltb_lt _ _)) by (rewrite length_app, length_take, length_drop; lia).
  rewrite Nat2Z.id, firstn_all. do 2 f_equal.
  rewrite insert_app_r_alt by lia. rewrite Nat.sub_diag.
  f_equal. by apply insert_drop_head.
Qed.
End ExecutablePath.

(** ** GetCPUInfo: reading lines and numbers *)

Section CpuText.
Import CLib Platform.

#[local] Opaque dec.

(** [fgets] hands out a line that fits as it stands. *)
Lemma fgets_go_line size l : ∀ room cur rest,
  LF ∉ l → (length l < room)%nat →
  fgets_go size room cur (l ++ LF :: rest)
  = (rev cur ++ l ++ [LF]) :: fgets_go size (size - 1) [] rest.
Proof.
  induction l as [|c l IH]; intros room cur rest Hl Hroom.
  - reflexivity.
  - apply not_elem_of_cons in Hl as [Hc Hl]. simpl in Hroom.
    cbn [app fgets_go].
    assert (Ascii.eqb c LF = false) as -> by (apply Ascii.eqb_neq; congruence).
    rewrite (proj2 (Nat.leb_gt _ _)) by lia. cbn [orb].
    rewrite IH by (done || lia). simpl. by rewrite <- app_assoc.
Qed.

Lemma fgets_all_line l rest :
  LF ∉ l → (length l < 510)%nat →
  fgets_all 511 (l ++ LF :: rest) = (l ++ [LF]) :: fgets_all 511 rest.
Proof. intros. unfold fgets_all. by rewrite fgets_go_line. Qed.

Lemma digits_no (c : ascii) (ds : text) :
  isdigit c = false → Forall (λ d, isdigit d = true) ds → c ∉ ds.
Proof.
  intros Hc Hds Hin. rewrite Forall_forall in Hds.
  apply Hds in Hin. congruence.
Qed.

Lemma dec_no_NUL n : NUL ∉ dec n.
Proof. apply digits_no; [done|apply dec_digits]. Qed.

Lemma dec_no_LF n : LF ∉ dec n.
Proof. apply digits_no; [done|apply dec_digits]. Qed.

Lemma dec_no_space n : Forall (λ c, negb (isspace c) = true) (dec n).
Proof.
  eapply Forall_impl; [apply dec_digits|]. intros c Hc. simpl in Hc.
  by rewrite isdigit_not_space.
Qed.

Lemma c_str_cons c s : c ≠ NUL → c_str (c :: s) = c :: c_str s.
Proof.
  intros Hc. apply (c_str_app [c]). apply not_elem_of_cons.
  split; [congruence|apply not_elem_of_nil].
Qed.

Lemma stops_c_str p s : stops p s → stops p (c_str s).
Proof.
  destruct s as [|c s]; [done|]. unfold c_str. simpl.
  destruct (negb (Ascii.eqb c NUL)); [|done].
  by destruct (span _ s).
Qed.

(** The steps of [scan] over a decimal field. *)
Lemma scan_space_dec fmt n s done :
  scan (DSpace :: fmt) (" "%char :: dec n ++ s) done = scan fmt (dec n ++ s) done.
Proof.
  cbn [scan]. by rewrite skip_space_cons, skip_space_dec.
Qed.

Lemma scan_int_step suppress signed bits fmt n s done :
  stops isdigit s →
  scan (DConv suppress (ConvInt signed bits) :: fmt) (dec n ++ s) done
  = scan fmt s
      (if suppress then done
       else done ++ [VInt (int_result signed bits false (Z.of_N n))]).
Proof. intros Hs. cbn [scan scan_item]. by rewrite scan_int_dec. Qed.

Lemma scan_str_step fmt w s done :
  w ≠ [] → Forall (λ c, negb (isspace c) = true) w →
  scan (DConv true ConvStr :: fmt) (w ++ " "%char :: s) done
  = scan fmt (" "%char :: s) done.
Proof.
  intros Hne Hw.
  change (scan (DConv true ConvStr :: fmt) (w ++ " "%char :: s) done)
    with (match scan_item ConvStr (w ++ " "%char :: s) with
          | Matched v r => scan fmt r done
          | MatchingFailure r => Scanned (Z.of_nat (length done)) done r
          | InputFailure =>
              Scanned (if done is [] then EOF else Z.of_nat (length done)) done []
          end).
  unfold scan_item. destruct w as [|c w]; [done|].
  rewrite skip_space_stops.
  - cbn [app]. cbv iota.
    change (c :: w ++ " "%char :: s) with ((c :: w) ++ " "%char :: s).
    rewrite span_app by done. reflexivity.
  - inversion Hw as [|? ? Hc _]. simpl. by apply negb_true_iff in Hc.
Qed.

Lemma parse_format_stat :
  parse_format "%*s %llu %llu %llu %llu %*llu %llu"
  = [DConv true ConvStr; DSpace;
     DConv false (ConvInt false 64); DSpace;
     DConv false (ConvInt false 64); DSpace;
     DConv false (ConvInt false 64); DSpace;
     DConv false (ConvInt false 64); DSpace;
     DConv true (ConvInt false 64); DSpace;
     DConv false (ConvInt false 64)].
Proof. reflexivity. Qed.

(** What [sscanf] finds in a core's line. *)
Lemma sscanf_cpu_line n user nice system idle iowait irq more :
  stops isdigit more →
  assigned (sscanf (c_str (cpu_line n user nice system idle iowait irq more))
              "%*s %llu %llu %llu %llu %*llu %llu")
  = [VInt (int_result false 64 false (Z.of_N user));
     VInt (int_result false 64 false (Z.of_N nice));
     VInt (int_result false 64 false (Z.of_N system));
     VInt (int_result false 64 false (Z.of_N idle));
     VInt (int_result false 64 false (Z.of_N irq))].
Proof.
  intros Hmore. unfold sscanf.
  rewrite parse_format_stat. unfold cpu_line.
  rewrite (c_str_app (txt "cpu")) by (apply (bool_decide_unpack _); by vm_compute).
  repeat first
    [ rewrite (c_str_app (dec _)) by apply dec_no_NUL
    | rewrite c_str_cons by discriminate ].
  rewrite (app_assoc (txt "cpu") (dec n)).
  rewrite scan_str_step; [|done|].
  2:{ apply Forall_app. split; [by repeat constructor|apply dec_no_space]. }
  rewrite scan_space_dec, scan_int_step by done.
  rewrite scan_space_dec, scan_int_step by done.
  rewrite scan_space_dec, scan_int_step by done.
  rewrite scan_space_dec, scan_int_step by done.
  rewrite scan_space_dec, scan_int_step by done.
  rewrite scan_space_dec, scan_int_step by by apply stops_c_str.
  reflexivity.
Qed.

Lemma sscanf_u n s :
  stops isdigit s →
  assigned (sscanf (dec n ++ s) "%u") = [VInt (int_result false 32 false (Z.of_N n))].
Proof.
  intros Hs. unfold sscanf.
  change (parse_format "%u") with [DConv false (ConvInt false 32)].
  by rewrite scan_int_step.
Qed.

(** The speed a frequency file yields. *)
Lemma read_speed_absent cpuspeed : read_speed None cpuspeed = cpuspeed.
Proof. reflexivity. Qed.

Lemma read_speed_file khz rest cpuspeed :
  (khz < 2 ^ 32)%N →
  read_speed (Some (dec khz ++ LF :: rest)) cpuspeed = Some (Z.of_N khz `div` 1000).
Proof.
  intros Hkhz. unfold read_speed.
  rewrite fgets_all_line.
  - rewrite c_str_id.
    + rewrite sscanf_u by done. rewrite int_result_unsigned; [done|].
      change (2 ^ 32) with (Z.of_N (2 ^ 32)). lia.
    + rewrite not_elem_of_app. split; [apply dec_no_NUL|].
      apply (bool_decide_unpack _). by vm_compute.
  - apply dec_no_LF.
  - pose proof (dec_length khz 10 ltac:(lia)) as Hlen.
    assert (khz < 10 ^ 10)%N as H10.
    { eapply N.lt_trans; [exact Hkhz|]. by vm_compute. }
    specialize (Hlen H10). simpl in Hlen. lia.
Qed.
End CpuText.

(** ** GetCPUInfo: the loops *)

Section CpuLoops.
Import CLib Platform.

#[local] Opaque dec.

Lemma Set_lookup_eq {A} (a : V8.Array A) i v : V8.Set_ a i v !! i = Some (Some v).
Proof.
  unfold V8.Set_. destruct (Nat.ltb_spec i (length a)).
  - by apply list_lookup_insert_eq.
  - rewrite lookup_app_r by lia.
    rewrite lookup_app_r by (rewrite length_replicate; lia).
    rewrite length_replicate. by rewrite Nat.sub_diag.
Qed.

Lemma Set_lookup_ne {A} (a : V8.Array A) i j v x :
  i ≠ j → a !! j = Some x → V8.Set_ a i v !! j = Some x.
Proof.
  intros Hne Hj. unfold V8.Set_. destruct (Nat.ltb_spec i (length a)).
  - by rewrite list_lookup_insert_ne.
  - apply lookup_app_l_Some. done.
Qed.

Section Loop.
Variables (max_freq : nat → option text) (multiplier : Z) (model : option text).

(** The loop leaves the slots below [i] as they are. *)
Lemma counters_loop_below lines : ∀ i c cpus j x,
  (j < i)%nat → cpus !! j = Some x →
  counters_loop max_freq multiplier model lines i c cpus !! j = Some x.
Proof.
  induction lines as [|line lines IH]; intros i c cpus j x Hj Hx; simpl; [done|].
  destruct (strncmp_eq line "cpu " 4); [by apply IH|].
  destruct (strncmp_eq line "cpu" 3); simpl; [|done].
  apply IH; [lia|]. apply Set_lookup_ne; [lia|done].
Qed.

(** The slot of the [k]-th core line: the object built from that line and
    the variables as the lines before left them; the speed among these is
    the speed put in the slot before, or for the first line the speed the
    loop started with. *)
Lemma counters_loop_slot lines : ∀ i c cpus k line,
  core_lines lines !! k = Some line →
  ∃ before,
    counters_loop max_freq multiplier model lines i c cpus !! (i + k)%nat
    = Some (Some (cpuinfo_object multiplier model
                    (core_update (max_freq (i + k)%nat) before line)))
    ∧ match k with
      | O => cpuspeed before = cpuspeed c
      | S j =>
          ∃ e, counters_loop max_freq multiplier model lines i c cpus !! (i + j)%nat
               = Some (Some e)
               ∧ cpuspeed before = speed e
      end.
Proof.
  induction lines as [|l lines IH]; intros i c cpus k line Hk; simpl in *; [done|].
  destruct (strncmp_eq l "cpu " 4); [by apply IH|].
  destruct (strncmp_eq l "cpu" 3); simpl in *; [|done].
  set (c' := core_update (max_freq i) c l).
  set (e := cpuinfo_object multiplier model c').
  assert (counters_loop max_freq multiplier model lines (S i) c' (V8.Set_ cpus i e) !! i
          = Some (Some e)) as Hi.
  { apply counters_loop_below; [lia|apply Set_lookup_eq]. }
  destruct k as [|k].
  - injection Hk as <-. exists c. rewrite Nat.add_0_r. done.
  - destruct (IH (S i) c' (V8.Set_ cpus i e) k line Hk) as (before & Hslot & Hprev).
    exists before. replace (i + S k)%nat with (S i + k)%nat by lia.
    split; [exact Hslot|].
    destruct k as [|j].
    + exists e. rewrite Nat.add_0_r. split; [exact Hi|]. by rewrite Hprev.
    + replace (i + S j)%nat with (S i + j)%nat by lia. exact Hprev.
Qed.

End Loop.

(** The first loop counts the lines that begin with "model name". *)
Lemma descriptor_loop_numcpus lines : ∀ d d',
  descriptor_loop d lines = Returns d' →
  d_numcpus d' = (d_numcpus d + length (model_name_lines lines))%nat.
Proof.
  unfold model_name_lines.
  induction lines as [|line lines IH]; intros d d' Hd; simpl in Hd.
  { injection Hd as <-. simpl. lia. }
  destruct (descriptor_line d line) as [d1|] eqn:Hline; [|done].
  cbn [mbind outcome_bind] in Hd. apply IH in Hd. rewrite Hd.
  unfold descriptor_line in Hline.
  destruct (strncmp_eq line "model name" 10) eqn:Hm.
  - rewrite filter_cons_True by done. simpl.
    destruct (S (d_numcpus d) =? 1)%nat.
    + destruct (strchr _ _); [|done].
      destruct (drop _ _); [done|]. injection Hline as <-. simpl. lia.
    + injection Hline as <-. simpl. lia.
  - rewrite filter_cons_False by (by rewrite Hm).
    destruct (strncmp_eq line "cpu MHz" 7).
    + destruct (d_numcpus d =? 1)%nat; injection Hline as <-; simpl; lia.
    + injection Hline as <-. lia.
Qed.

(** What [GetCPUInfo] computes, when it returns. *)
Lemma GetCPUInfo_returns src r cpus :
  GetCPUInfo src = Returns (r, cpus) →
  clk_tck src `mod` 2 ^ 32 ≠ 0
  ∧ r = 0
  ∧ ∃ d, read_descriptor (proc_cpuinfo src) = Returns d
         ∧ cpus = match proc_stat src with
                  | Some content =>
                      counters_loop (cpuinfo_max_freq src)
                        ((1000 `div` (clk_tck src `mod` 2 ^ 32)) `mod` 2 ^ 32)
                        (d_model d) (fgets_all 511 content) 0
                        (Counters (d_cpuspeed d) None None None None None)
                        (V8.Array_New (d_numcpus d))
                  | None => V8.Array_New (d_numcpus d)
                  end.
Proof.
  unfold GetCPUInfo. destruct (Z.eqb_spec (clk_tck src `mod` 2 ^ 32) 0); [done|].
  destruct (read_descriptor (proc_cpuinfo src)) as [d|]; [|done].
  cbn [mbind outcome_bind]. intros [= <- <-]. eauto.
Qed.
End CpuLoops.

(** ** GetCPUInfo: the speed of a core *)

Section CpuInfo.
Import CLib Platform.

#[local] Opaque dec.

Lemma multiplier_small clk :
  0 < clk < 2 ^ 32 → (1000 `div` (clk `mod` 2 ^ 32)) `mod` 2 ^ 32 = 1000 `div` clk.
Proof.
  intros Hclk. rewrite (Z.mod_small clk) by lia.
  apply Z.mod_small. split; [apply Z.div_pos; lia|].
  apply Z.le_lt_trans with 1000; [|done].
  apply Z.div_le_upper_bound; lia.
Qed.

Lemma to_double_small n : 0 ≤ n < 2 ^ 53 → to_double n = n.
Proof.
  intros Hn. unfold to_double.
  assert (Z.log2 n - 52 ≤ 0) as He.
  { destruct (Z.eq_dec n 0) as [->|Hne]; [done|].
    assert (Z.log2 n < 53) by (apply Z.log2_lt_pow2; lia). lia. }
  by rewrite (proj2 (Z.leb_le _ _)) by done.
Qed.

Lemma milliseconds_fits clk ticks :
  0 < clk → fits_ms clk ticks →
  milliseconds (1000 `div` clk) (int_result false 64 false (Z.of_N ticks))
  = Some (to_double (Z.of_N ticks * (1000 `div` clk))).
Proof.
  intros Hclk [Hticks Hms]. rewrite int_result_unsigned by lia.
  unfold milliseconds. simpl. do 2 f_equal.
  pose proof (Z.div_pos 1000 clk ltac:(lia) Hclk).
  apply Z.mod_small. split; [apply Z.mul_nonneg_nonneg; lia|done].
Qed.

(** The speed in the slot of a core line, from [counters_loop_slot]. *)
Lemma cpu_speed_slot src r cpus content k line :
  GetCPUInfo src = Returns (r, cpus) →
  proc_stat src = Some content →
  core_lines (fgets_all 511 content) !! k = Some line →
  ∃ d e previous,
    read_descriptor (proc_cpuinfo src) = Returns d
    ∧ cpus !! k = Some (Some e)
    ∧ speed e = read_speed (cpuinfo_max_freq src k) previous
    ∧ match k with
      | O => previous = d_cpuspeed d
      | S j => ∃ e', cpus !! j = Some (Some e') ∧ previous = speed e'
      end.
Proof.
  intros Hret Hstat Hline.
  apply GetCPUInfo_returns in Hret as (_ & _ & d & Hd & ->).
  rewrite Hstat.
  destruct (counters_loop_slot (cpuinfo_max_freq src)
              ((1000 `div` (clk_tck src `mod` 2 ^ 32)) `mod` 2 ^ 32)
              (d_model d) _ 0%nat (Counters (d_cpuspeed d) None None None None None)
              (V8.Array_New (d_numcpus d)) k _ Hline) as (before & Hslot & Hprev).
  exists d. eexists. exists (cpuspeed before).
  split; [done|]. split; [exact Hslot|]. split; [done|].
  destruct k as [|j]; [exact Hprev|].
  destruct Hprev as (e' & He' & Hspeed). by exists e'.
Qed.

(** C3, as the code has it: the speed reported for a core is the kHz value
    of its frequency file divided by 1000 when the file is there.  When the
    file is absent the speed is the one reported for the core before - for
    the first core, the speed taken from /proc/cpuinfo.  So a core without
    a file that follows a core with one reports that core's speed. *)
Theorem cpu_speed_per_core src r cpus content k line :
  GetCPUInfo src = Returns (r, cpus) →
  proc_stat src = Some content →
  core_lines (fgets_all 511 content) !! k = Some line →
  ∃ d e,
    read_descriptor (proc_cpuinfo src) = Returns d
    ∧ cpus !! k = Some (Some e)
    ∧ (∀ khz rest,
         cpuinfo_max_freq src k = Some (dec khz ++ LF :: rest) → (khz < 2 ^ 32)%N →
         speed e = Some (Z.of_N khz `div` 1000))
    ∧ (cpuinfo_max_freq src k = None →
       match k with
       | O => speed e = d_cpuspeed d
       | S j => ∃ e', cpus !! j = Some (Some e') ∧ speed e = speed e'
       end)
    ∧ (∀ j khz rest,
         k = S j → cpuinfo_max_freq src k = None →
         cpuinfo_max_freq src j = Some (dec khz ++ LF :: rest) → (khz < 2 ^ 32)%N →
         speed e = Some (Z.of_N khz `div` 1000)).
Proof.
  intros Hret Hstat Hline.
  destruct (cpu_speed_slot src r cpus content k line Hret Hstat Hline)
    as (d & e & previous & Hd & He & Hspeed & Hprev).
  exists d, e. split; [done|]. split; [done|].
  split; [|split].
  - intros khz rest Hfile Hkhz. rewrite Hspeed, Hfile. by apply read_speed_file.
  - intros Hfile. rewrite Hfile, read_speed_absent in Hspeed.
    destruct k as [|j]; [congruence|].
    destruct Hprev as (e' & He' & ->). eauto.
  - intros j khz rest -> Hfile Hfile_j Hkhz.
    rewrite Hfile, read_speed_absent in Hspeed.
    destruct Hprev as (e' & He' & ->). rewrite Hspeed.
    assert (is_Some (core_lines (fgets_all 511 content) !! j)) as [line_j Hline_j].
    { apply lookup_lt_is_Some. apply lookup_lt_Some in Hline. lia. }
    destruct (cpu_speed_slot src r cpus content j line_j Hret Hstat Hline_j)
      as (_ & e_j & previous_j & _ & He_j & Hspeed_j & _).
    rewrite He' in He_j. injection He_j as <-.
    rewrite Hspeed_j, Hfile_j. by apply read_speed_file.
Qed.

Lemma cpu_speed_per_core_witness :
  ∃ cpus,
    GetCPUInfo two_cores = Returns (0, cpus)
    ∧ ∃ d e,
        read_descriptor (proc_cpuinfo two_cores) = Returns d
        ∧ cpus !! 1%nat = Some (Some e)
        ∧ (∀ khz rest,
             cpuinfo_max_freq two_cores 1 = Some (dec khz ++ LF :: rest) →
             (khz < 2 ^ 32)%N → speed e = Some (Z.of_N khz `div` 1000))
        ∧ (cpuinfo_max_freq two_cores 1 = None →
           ∃ e', cpus !! 0%nat = Some (Some e') ∧ speed e = speed e')
        ∧ (∀ j khz rest,
             1%nat = S j → cpuinfo_max_freq two_cores 1 = None →
             cpuinfo_max_freq two_cores j = Some (dec khz ++ LF :: rest) →
             (khz < 2 ^ 32)%N → speed e = Some (Z.of_N khz `div` 1000)).
Proof.
  destruct (GetCPUInfo two_cores) as [[r cpus]|] eqn:Hret;
    [|by vm_compute in Hret].
  assert (r = 0) as -> by (by apply GetCPUInfo_returns in Hret as (_ & -> & _)).
  exists cpus. split; [reflexivity|].
  apply (cpu_speed_per_core two_cores 0 cpus
           (file_of ["cpu  12 22 32 42 52 62 72"; "cpu0 1 2 3 4 5 6 7";
                     "cpu1 11 12 13 14 15 16 17"; "intr 5"])
           1%nat (txt "cpu1 11 12 13 14 15 16 17" ++ [LF]) Hret);
    by (vm_compute; reflexivity).
Defined.

(** The claim of C3 fails on two cores of which only core 0 has a frequency
    file: core 1 does not report the 1600 MHz of /proc/cpuinfo but the 2400
    MHz read for core 0. *)
Lemma second_core_keeps_first_speed :
  ∃ d e0 e1,
    read_descriptor (proc_cpuinfo two_cores) = Returns d
    ∧ d_cpuspeed d = Some 1600
    ∧ cpuinfo_max_freq two_cores 0 = Some (dec 2400000 ++ [LF])
    ∧ cpuinfo_max_freq two_cores 1 = None
    ∧ GetCPUInfo two_cores = Returns (0, [Some e0; Some e1])
    ∧ speed e0 = Some 2400
    ∧ speed e1 = Some 2400
    ∧ speed e1 ≠ d_cpuspeed d.
Proof.
  eexists _, _, _. split; [vm_compute; reflexivity|].
  split; [reflexivity|]. split; [vm_compute; reflexivity|].
  split; [reflexivity|]. split; [vm_compute; reflexivity|].
  split; [reflexivity|]. split; [reflexivity|]. done.
Qed.

End CpuInfo.

(** ** GetMemory on a whole record *)

Section MemoryRecord.
Import CLib Platform.

#[local] Opaque dec.

Lemma stops_space_dec n s : stops isspace (dec n ++ s).
Proof.
  destruct (dec_app_stops n s) as (c & r & -> & Hc). simpl.
  by apply isdigit_not_space.
Qed.

Lemma stops_space_sdec z s : stops isspace (sdec z ++ s).
Proof. unfold sdec. destruct (z <? 0); [done|apply stops_space_dec]. Qed.

(** A signed decimal field is read back; the value is of no concern for
    the fields the function skips. *)
Lemma scan_int_sdec signed bits z s :
  stops isdigit s →
  ∃ v, scan_int signed bits (sdec z ++ s) = Matched (VInt v) s.
Proof.
  intros Hs. unfold sdec. destruct (z <? 0).
  - exists (int_result signed bits true (decimal_value (dec (Z.to_N (- z))))).
    unfold scan_int. rewrite skip_space_stops by reflexivity.
    cbn [app]. cbv iota. change (Ascii.eqb "-" "-") with true. cbn [orb].
    rewrite (span_app isdigit _ s (dec_digits _) Hs).
    pose proof (dec_nonempty (Z.to_N (- z))). by destruct (dec _).
  - eexists. by apply scan_int_dec.
Qed.

Lemma skip_one_space rest : stops isspace rest → skip_space (" "%char :: rest) = rest.
Proof. intros. by rewrite skip_space_cons, skip_space_stops. Qed.

Lemma scan_d_field z rest itmp ctmp :
  stops isspace rest →
  ∃ v, scan_d (Frame (sdec z ++ " "%char :: rest) itmp ctmp)
       = Next (Frame rest v ctmp).
Proof.
  intros Hrest. destruct (scan_int_sdec true 32 z (" "%char :: rest)) as [v Hv];
    [done|].
  exists v. unfold scan_d, fscanf. cbn [fr_f fr_itmp fr_ctmp].
  change (parse_format "%d ") with [DConv false (ConvInt true 32); DSpace].
  cbn [scan scan_item]. rewrite Hv. cbn [scan app].
  by rewrite skip_one_space.
Qed.

Lemma scan_u_field n rest itmp ctmp :
  stops isspace rest →
  scan_u (Frame (dec n ++ " "%char :: rest) itmp ctmp)
  = Next (Frame rest (to_int <$> int_result false 32 false (Z.of_N n)) ctmp).
Proof.
  intros Hrest. unfold scan_u, fscanf. cbn [fr_f fr_itmp fr_ctmp].
  change (parse_format "%u ") with [DConv false (ConvInt false 32); DSpace].
  rewrite scan_int_step by done. cbn [scan app].
  by rewrite skip_one_space.
Qed.

Lemma scan_c_field c rest itmp ctmp :
  stops isspace rest →
  scan_c (Frame (c :: " "%char :: rest) itmp ctmp) = Next (Frame rest itmp (Some c)).
Proof.
  intros Hrest. unfold scan_c, fscanf. cbn [fr_f fr_itmp fr_ctmp].
  change (parse_format "%c ") with [DConv false ConvChar; DSpace].
  cbn [scan scan_item app]. by rewrite skip_one_space.
Qed.

Lemma unsigned_field_small n :
  (n < 2 ^ 31)%N → to_int <$> int_result false 32 false (Z.of_N n) = Some (Z.of_N n).
Proof.
  intros Hn. assert (Z.of_N n < 2 ^ 31) by (change (2 ^ 31) with (Z.of_N (2 ^ 31)); lia).
  rewrite int_result_unsigned by lia. simpl. by rewrite to_int_small by lia.
Qed.

(** X4: on a record as the kernel prints it, whose
    name holds no space after a parenthesis and fits [buf], and whose
    virtual size and resident page count are below 2^31, [GetMemory]
    returns 0, the virtual size as it stands and the page count times the
    page size. *)
Lemma GetMemory_record size_bits getpagesize r buf :
  space_after_paren false (st_comm r) = false →
  (length (st_comm r) + 3 ≤ length buf)%nat →
  isspace (st_state r) = false → stops isspace (st_more r) →
  (st_vsize r < 2 ^ 31)%N → (st_rss r < 2 ^ 31)%N →
  32 ≤ size_bits → 0 ≤ getpagesize →
  Z.of_N (st_rss r) * getpagesize < 2 ^ size_bits → getpagesize < 2 ^ size_bits →
  GetMemory size_bits getpagesize (Some (render r)) buf
  = Returns (MemoryResult 0
               (Stored (Some (Z.of_N (st_rss r) * getpagesize)))
               (Stored (Some (Z.of_N (st_vsize r))))
               ("("%char :: st_comm r ++ ")"%char :: NUL
                :: drop (length (st_comm r) + 3) buf)).
Proof.
  intros Hcomm Hbuf Hstate Hmore Hvsize Hrss Hbits Hpage Hprod Hpage'.
  unfold GetMemory, render.
  (* PID *)
  edestruct (scan_d_field (st_pid r)) as [v ->]; [done|]. cbn [fr_f fr_itmp fr_ctmp].
  (* Exec file *)
  rewrite exec_file_scans_name by done.
  (* the fields up to the start time *)
  unfold fields_3_to_22.
  rewrite scan_c_field by apply stops_space_sdec. cbn [mbind flow_bind].
  repeat first
    [ rewrite scan_u_field by first [apply stops_space_sdec | apply stops_space_dec]
    | match goal with
      | |- context [scan_d (Frame (sdec ?z ++ " "%char :: ?rest) ?i ?c)] =>
          let v := fresh "v" in
          let Hv := fresh "Hv" in
          destruct (scan_d_field z rest i c) as [v Hv];
          [first [apply stops_space_sdec | apply stops_space_dec]|];
          rewrite Hv; clear Hv
      end
    | progress cbn [mbind flow_bind] ].
  (* rlim to start of stack *)
  unfold fields_25_to_28.
  repeat first
    [ rewrite scan_u_field by first [apply stops_space_dec | done]
    | progress cbn [mbind flow_bind fr_itmp] ].
  rewrite !unsigned_field_small by done.
  assert (2 ^ 32 ≤ 2 ^ size_bits) by (apply Z.pow_le_mono_r; lia).
  assert (Z.of_N (st_vsize r) < 2 ^ 31)
    by (change (2 ^ 31) with (Z.of_N (2 ^ 31)); lia).
  assert (Z.of_N (st_rss r) < 2 ^ 31)
    by (change (2 ^ 31) with (Z.of_N (2 ^ 31)); lia).
  cbn [fmap option_fmap option_map]. unfold to_size_t.
  rewrite (Z.mod_small (Z.of_N (st_vsize r))) by lia.
  rewrite (Z.mod_small (Z.of_N (st_rss r))) by lia.
  rewrite (Z.mod_small getpagesize) by lia.
  rewrite Z.mod_small by (split; [apply Z.mul_nonneg_nonneg; lia|done]).
  reflexivity.
Qed.

(** A record as the kernel prints one for a process with 5000 resident
    pages and 300 MB of address space. *)
Example GetMemory_record_sample :
  GetMemory 64 4096
    (Some (render (StatRecord 1234 (txt "my(app)") "S" 1 1234 1234 0 (-1)
                     4202496 500 0 0 0 10 5 0 0 20 0 6 0 100000
                     300000000 5000 18446744073709551615
                     4194304 4198400 140736000000000 (txt "0 0" ++ [LF]))))
    buf_start
  = Returns (MemoryResult 0 (Stored (Some 20480000)) (Stored (Some 300000000))
               (txt "(my(app))" ++ NUL :: drop 10 buf_start)).
Proof.
  vm_compute; reflexivity.
Qed.

(** The same record under the name [a) b]: the name loop stops inside the
    name, the state is taken from it, and the parent process field fails to
    match. *)
Example GetMemory_record_rejected :
  GetMemory 64 4096
    (Some (render (StatRecord 1234 (txt "a) b") "S" 1 1234 1234 0 (-1)
                     4202496 500 0 0 0 10 5 0 0 20 0 6 0 100000
                     300000000 5000 18446744073709551615
                     4194304 4198400 140736000000000 (txt "0 0" ++ [LF]))))
    buf_start
  = Returns (MemoryResult (-1) Untouched Untouched
               (txt "(a)" ++ NUL :: drop 4 buf_start)).
Proof. vm_compute; reflexivity. Qed.

Lemma scan_d_eof itmp ctmp : scan_d (Frame [] itmp ctmp) = Next (Frame [] itmp ctmp).
Proof. reflexivity. Qed.

Lemma scan_u_eof itmp ctmp : scan_u (Frame [] itmp ctmp) = Next (Frame [] itmp ctmp).
Proof. reflexivity. Qed.

Lemma scan_c_eof itmp ctmp : scan_c (Frame [] itmp ctmp) = Next (Frame [] itmp ctmp).
Proof. reflexivity. Qed.

Lemma fields_3_to_22_eof itmp ctmp :
  fields_3_to_22 (Frame [] itmp ctmp) = Next (Frame [] itmp ctmp).
Proof. reflexivity. Qed.

Lemma fields_25_to_28_eof itmp ctmp :
  fields_25_to_28 (Frame [] itmp ctmp) = Next (Frame [] itmp ctmp).
Proof. reflexivity. Qed.

(** A record that ends after the name is taken for a good one: every test
    that follows meets [EOF], not 0, and the results are made from what
    [itmp] held last. *)
Lemma GetMemory_record_cut_after_name size_bits getpagesize pid comm buf :
  space_after_paren false comm = false →
  (length comm + 3 ≤ length buf)%nat →
  ∃ rss vsize,
    GetMemory size_bits getpagesize
      (Some (sdec pid ++ " "%char :: "("%char :: comm ++ [")"%char; " "%char])) buf
    = Returns (MemoryResult 0 (Stored rss) (Stored vsize)
                 ("("%char :: comm ++ ")"%char :: NUL :: drop (length comm + 3) buf)).
Proof.
  intros Hcomm Hbuf. unfold GetMemory.
  edestruct (scan_d_field pid) as [v ->]; [done|]. cbn [fr_f fr_itmp fr_ctmp].
  rewrite exec_file_scans_name by done.
  rewrite fields_3_to_22_eof. cbn [mbind flow_bind].
  rewrite !scan_u_eof, fields_25_to_28_eof. eauto.
Qed.
End MemoryRecord.

(** ** The process title over histories *)

Section TitleHistory.
Import CLib Platform.

(** X1: [SetupArgs] stores a copy of [argv[0]] in a new block, which
    [GetProcessTitle] then returns with the string's length, and releases
    nothing: the heap is the heap before plus that block, so a title the
    slot held before stays allocated with no pointer left to it. *)
Theorem SetupArgs_copies_and_keeps st argv0 s :
  string_at (memory st) argv0 = Some s →
  Z.of_nat (length s) < 2 ^ 31 →
  ∃ st' q,
    SetupArgs argv0 st = Returns st'
    ∧ memory st !! q = None
    ∧ memory st' = <[q := s ++ [NUL]]> (memory st)
    ∧ GetProcessTitle st' = Returns (Some q, Z.of_nat (length s))
    ∧ string_at (memory st') q = Some s
    ∧ string_at (memory st') argv0 = Some s
    ∧ ∀ p, process_title st = Some p → is_Some (memory st !! p) →
           is_Some (memory st' !! p) ∧ process_title st' ≠ Some p.
Proof.
  intros Hs Hlen. set (q := fresh (dom (memory st))).
  pose proof (fresh_not_live (memory st)) as Hq. fold q in Hq.
  pose proof (string_at_no_NUL _ _ _ Hs) as Hnul.
  assert (argv0 ≠ q) as Hne.
  { intros ->. apply string_at_live in Hs as [? Hs]. congruence. }
  exists (Process (<[q := s ++ [NUL]]> (memory st)) (Some q) (task_name st)
            (pending_exception st)), q.
  split; [unfold SetupArgs; by rewrite (strdup_returns _ _ s)|].
  split; [done|]. split; [done|].
  split; [by apply GetProcessTitle_returns; [apply string_at_insert_eq|]|].
  split; [by apply string_at_insert_eq|].
  split; [cbn [memory]; by rewrite string_at_insert_ne|].
  intros p Hp [b Hb]. cbn [memory process_title].
  assert (p ≠ q) by congruence.
  split; [rewrite lookup_insert_ne by done; eauto|congruence].
Qed.

Lemma SetupArgs_copies_and_keeps_witness :
  string_at (memory title_example) 2%positive = Some (txt "worker-1")
  ∧ ∃ st' q,
      SetupArgs 2%positive title_example = Returns st'
      ∧ memory title_example !! q = None
      ∧ memory st' = <[q := txt "worker-1" ++ [NUL]]> (memory title_example)
      ∧ GetProcessTitle st' = Returns (Some q, 8)
      ∧ string_at (memory st') q = Some (txt "worker-1")
      ∧ string_at (memory st') 2%positive = Some (txt "worker-1")
      ∧ ∀ p, process_title title_example = Some p →
             is_Some (memory title_example !! p) →
             is_Some (memory st' !! p) ∧ process_title st' ≠ Some p.
Proof.
  split; [by vm_compute|].
  apply (SetupArgs_copies_and_keeps title_example 2%positive (txt "worker-1"));
    by vm_compute.
Defined.

Lemma title_is_live m cur st : title_is m cur st → title_live st.
Proof.
  unfold title_is, title_live. destruct cur as [t|].
  - intros (q & s & -> & _ & _ & ->). rewrite lookup_insert_eq. eauto.
  - by intros [-> _].
Qed.

Lemma title_is_without m cur st : title_is m cur st → without_title st = m.
Proof.
  unfold title_is, without_title. destruct cur as [t|].
  - intros (q & s & -> & Hq & _ & ->). by apply delete_insert_id.
  - by intros [-> ->].
Qed.

(** A string of the caller's heap is still there, and is not the slot's. *)
Lemma title_is_caller_string m cur st t s :
  title_is m cur st → string_at m t = Some s →
  string_at (memory st) t = Some s ∧ process_title st ≠ Some t.
Proof.
  unfold title_is. intros Hst Ht. destruct cur as [t0|].
  - destruct Hst as (q & s0 & -> & Hq & _ & ->).
    assert (t ≠ q).
    { intros ->. apply string_at_live in Ht as [? Ht]. congruence. }
    split; [by rewrite string_at_insert_ne|congruence].
  - destruct Hst as [-> ->]. done.
Qed.

Lemma run_call_title_is m cur st c :
  title_is m cur st → title_call_ok m c →
  ∃ st', run_call true c st = Returns st' ∧ title_is m (last_title [c] cur) st'.
Proof.
  intros Hst Hc. destruct c as [a|t|]; [done| |].
  - destruct Hc as [s Hs].
    destruct (title_is_caller_string m cur st t s Hst Hs) as [Hs' Hne].
    eexists. split.
    { cbn [run_call]. apply (SetProcessTitle_returns st t s);
        [by eapply title_is_live|done|done]. }
    cbn [last_title title_is]. rewrite (title_is_without m cur st Hst).
    exists (fresh (dom m)), s. cbn [process_title memory].
    split; [done|]. split; [apply fresh_not_live|done].
  - exists st. split; [|done]. cbn [run_call]. unfold GetProcessTitle.
    unfold title_is in Hst. destruct cur as [t0|].
    + destruct Hst as (q & s & -> & _ & Ht0 & ->).
      rewrite string_at_insert_eq by by eapply string_at_no_NUL. done.
    + by destruct Hst as [-> _].
Qed.

Lemma run_calls_title_is m cs : ∀ cur st,
  title_is m cur st → Forall (title_call_ok m) cs →
  ∃ st', run_calls true cs st = Returns st' ∧ title_is m (last_title cs cur) st'.
Proof.
  induction cs as [|c cs IH]; intros cur st Hst Hcs.
  - exists st. done.
  - inversion Hcs as [|? ? Hc Hcs']; subst.
    destruct (run_call_title_is m cur st c Hst Hc) as (st1 & Hrun & Hst1).
    destruct (IH _ _ Hst1 Hcs') as (st2 & Hruns & Hst2).
    exists st2. cbn [run_calls]. rewrite Hrun. cbn [mbind outcome_bind].
    split; [exact Hruns|]. by destruct c.
Qed.

(** X2: on a platform with the title facility, after any history of
    [SetProcessTitle] and [GetProcessTitle] calls from program start whose
    titles are strings of the caller, every call has returned, the slot
    holds a copy of the title set last (it is null if none was set), and
    the heap is the caller's heap plus that one copy: no earlier copy is
    left allocated, and no block of the caller was touched. *)
Theorem title_history_keeps_one_copy m name cs :
  Forall (title_call_ok m) cs →
  ∃ st,
    run_calls true cs (process_start m name) = Returns st
    ∧ without_title st = m
    ∧ match last_title cs None with
      | Some t =>
          ∃ q s, process_title st = Some q ∧ m !! q = None
                 ∧ string_at m t = Some s
                 ∧ memory st = <[q := s ++ [NUL]]> m
                 ∧ string_at (memory st) q = Some s
      | None => process_title st = None ∧ memory st = m
      end.
Proof.
  intros Hcs.
  destruct (run_calls_title_is m cs None (process_start m name)) as (st & Hrun & Hst);
    [done|done|].
  exists st. split; [done|]. split; [by eapply title_is_without|].
  unfold title_is in Hst. destruct (last_title cs None) as [t|]; [|done].
  destruct Hst as (q & s & Hq & Hfresh & Ht & Hmem).
  exists q, s. repeat (split; [done|]).
  rewrite Hmem. apply string_at_insert_eq. by eapply string_at_no_NUL.
Qed.

Lemma title_history_keeps_one_copy_witness :
  Forall (title_call_ok (memory title_example))
    [CallSetProcessTitle 2%positive; CallGetProcessTitle;
     CallSetProcessTitle 3%positive; CallSetProcessTitle 2%positive;
     CallSetProcessTitle 3%positive; CallGetProcessTitle]
  ∧ ∃ st,
      run_calls true
        [CallSetProcessTitle 2%positive; CallGetProcessTitle;
         CallSetProcessTitle 3%positive; CallSetProcessTitle 2%positive;
         CallSetProcessTitle 3%positive; CallGetProcessTitle]
        (process_start (memory title_example) (txt "node")) = Returns st
      ∧ without_title st = memory title_example
      ∧ ∃ q s, process_title st = Some q ∧ memory title_example !! q = None
               ∧ string_at (memory title_example) 3%positive = Some s
               ∧ memory st = <[q := s ++ [NUL]]> (memory title_example)
               ∧ string_at (memory st) q = Some s.
Proof.
  assert (Forall (title_call_ok (memory title_example))
            [CallSetProcessTitle 2%positive; CallGetProcessTitle;
             CallSetProcessTitle 3%positive; CallSetProcessTitle 2%positive;
             CallSetProcessTitle 3%positive; CallGetProcessTitle]) as Hok.
  { repeat constructor; by (vm_compute; eauto). }
  split; [exact Hok|].
  exact (title_history_keeps_one_copy (memory title_example) (txt "node") _ Hok).
Defined.
End TitleHistory.

(** ** GetExecutablePath: what the caller gets back *)

Section ExecutablePathResult.
Import CLib Platform.

(** X3: when /proc/self/exe resolves to a target that is not empty and the
    caller passes the length of its array, at least 2 and at most 2^31, in
    [*size], the function returns 0, stores in [*size] the smaller of the
    target's length and the array's length less one, and leaves in the
    array, as a NUL-terminated string, that many first bytes of the target:
    a target too long for the array is cut short without any report.  No
    store goes outside the array and the array keeps its length.  (For an
    array of more than 2^31 and at most 2^32 bytes the size handed to
    [readlink] is not positive as an [int], and the call fails.) *)
Theorem GetExecutablePath_returns_target size_bits target buffer :
  target ≠ [] → NUL ∉ target →
  (2 ≤ length buffer)%nat → Z.of_nat (length buffer) < 2 ^ size_bits →
  Z.of_nat (length buffer) ≤ 2 ^ 31 →
  ∃ r,
    GetExecutablePath size_bits (Some target) buffer (Z.of_nat (length buffer))
    = Returns r
    ∧ path_return r = 0
    ∧ path_size r = Z.of_nat (length target `min` (length buffer - 1))
    ∧ c_str (path_buffer r) = take (length target `min` (length buffer - 1)) target
    ∧ path_stray r = None
    ∧ length (path_buffer r) = length buffer.
Proof.
  intros Hne Hnul Hlen Hbits Hint.
  set (n := (length target `min` (length buffer - 1))%nat).
  assert (0 < length target)%nat by (destruct target; simpl; [done|lia]).
  assert (1 ≤ n ∧ n < length buffer)%nat as [Hn1 Hn2] by (unfold n; lia).
  assert (Z.min (Z.of_nat (length target)) (Z.of_nat (length buffer) - 1)
          = Z.of_nat n) as Hmin by (unfold n; lia).
  exists (PathResult 0 (Z.of_nat n)
            (take n target ++ NUL :: drop (S n) buffer) None).
  split.
  - unfold GetExecutablePath, to_size_t.
    rewrite (Z.mod_small (Z.of_nat (length buffer) - 1)) by lia.
    rewrite readlink_places by lia. rewrite Hmin.
    cbn [mbind outcome_bind]. rewrite Z.mod_small by lia.
    rewrite (proj2 (Z.leb_gt _ _)) by lia.
    rewrite (proj2 (Z.ltb_lt _ _))
      by (rewrite length_app, length_take, length_drop; lia).
    rewrite Nat2Z.id. do 2 f_equal.
    rewrite insert_app_r_alt by (rewrite length_take; lia).
    rewrite length_take. replace (n - n `min` length target)%nat with 0%nat by lia.
    f_equal. by apply insert_drop_head.
  - cbn [path_return path_size path_buffer path_stray].
    split; [done|]. split; [done|]. split.
    + apply c_str_app_NUL. intros Hin. apply Hnul.
      rewrite <- (take_drop n target). apply elem_of_app. by left.
    + split; [done|]. rewrite length_app, length_take. cbn [length].
      rewrite length_drop. lia.
Qed.

Lemma GetExecutablePath_returns_target_witness :
  txt "/usr/bin/node" ≠ [] ∧ (2 ≤ length (replicate 8 NUL))%nat
  ∧ ∃ r,
      GetExecutablePath 64 (Some (txt "/usr/bin/node")) (replicate 8 NUL) 8
      = Returns r
      ∧ path_return r = 0
      ∧ path_size r = 7
      ∧ c_str (path_buffer r) = txt "/usr/bi"
      ∧ path_stray r = None
      ∧ length (path_buffer r) = 8%nat.
Proof.
  split; [done|]. split; [vm_compute; lia|].
  apply (GetExecutablePath_returns_target 64 (txt "/usr/bin/node") (replicate 8 NUL)).
  - done.
  - apply (bool_decide_unpack _). by vm_compute.
  - vm_compute; lia.
  - by vm_compute.
  - by vm_compute.
Defined.

(** X20: a caller that passes 0 or 1 in [*size] gets no failure either:
    the size handed to [readlink] is then not positive as an [int],
    [readlink] fails whatever the link resolves to, its -1 becomes the
    largest [size_t], and the function returns 0 after a store outside the
    array, which it leaves as it was. *)
Theorem GetExecutablePath_size_too_small size_bits exe buffer size :
  32 ≤ size_bits → Z.of_nat (length buffer) < 2 ^ size_bits →
  size = 0 ∨ size = 1 →
  GetExecutablePath size_bits exe buffer size
  = Returns (PathResult 0 (2 ^ size_bits - 1) buffer (Some (2 ^ size_bits - 1))).
Proof.
  intros Hbits Hlen Hsize.
  assert (1 < 2 ^ size_bits) by (apply Z.pow_gt_1; lia).
  assert (readlink exe buffer (to_size_t size_bits (size - 1))
          = Returns (-1, buffer)) as Hfail.
  { destruct exe as [target|]; [|done]. unfold readlink.
    assert ((to_size_t size_bits (size - 1) + 2 ^ 31) `mod` 2 ^ 32 - 2 ^ 31 ≤ 0)
      as Hint.
    { destruct Hsize as [->| ->].
      - change (0 - 1) with (-1). rewrite to_size_t_minus_one by lia.
        replace (2 ^ size_bits) with (2 ^ (size_bits - 32) * 2 ^ 32)
          by (rewrite <- Z.pow_add_r by lia; f_equal; lia).
        replace (2 ^ (size_bits - 32) * 2 ^ 32 - 1 + 2 ^ 31)
          with (2 ^ 31 - 1 + 2 ^ (size_bits - 32) * 2 ^ 32) by lia.
        rewrite Z_mod_plus_full. by vm_compute.
      - unfold to_size_t. change (1 - 1) with 0. rewrite Z.mod_0_l by lia.
        by vm_compute. }
    by rewrite (proj2 (Z.leb_le _ _)) by exact Hint. }
  unfold GetExecutablePath. rewrite Hfail. cbn [mbind outcome_bind].
  rewrite to_size_t_minus_one by lia.
  rewrite (proj2 (Z.leb_gt _ _)) by lia.
  rewrite (proj2 (Z.ltb_ge _ _)) by lia. reflexivity.
Qed.

Lemma GetExecutablePath_size_too_small_witness :
  GetExecutablePath 64 (Some (txt "/usr/bin/node")) (replicate 8 NUL) 1
  = Returns (PathResult 0 (2 ^ 64 - 1) (replicate 8 NUL) (Some (2 ^ 64 - 1))).
Proof.
  apply (GetExecutablePath_size_too_small 64 (Some (txt "/usr/bin/node"))
           (replicate 8 NUL) 1).
  - lia.
  - by vm_compute.
  - by right.
Defined.
End ExecutablePathResult.

(** ** GetMemory: records that are whole, cut, or broken *)

Section MemoryEdges.
Import CLib Platform.

#[local] Opaque dec.

Lemma GetMemory_record_witness :
  space_after_paren false (st_comm sample_record) = false
  ∧ (st_vsize sample_record < 2 ^ 31)%N ∧ (st_rss sample_record < 2 ^ 31)%N
  ∧ GetMemory 64 4096 (Some (render sample_record)) buf_start
    = Returns (MemoryResult 0
                 (Stored (Some (Z.of_N (st_rss sample_record) * 4096)))
                 (Stored (Some (Z.of_N (st_vsize sample_record))))
                 ("("%char :: st_comm sample_record ++ ")"%char :: NUL
                  :: drop (length (st_comm sample_record) + 3) buf_start)).
Proof.
  split; [reflexivity|]. split; [reflexivity|]. split; [reflexivity|].
  apply (GetMemory_record 64 4096 sample_record buf_start);
    first [ reflexivity | by (vm_compute; lia) | lia ].
Defined.

Lemma no_number_stops s : no_number s = true → stops isspace s.
Proof.
  destruct s as [|c s]; [done|]. simpl.
  intros H. repeat (apply andb_true_iff in H as [H ?]).
  by apply negb_true_iff.
Qed.

Lemma scan_int_no_number signed bits s :
  no_number s = true → scan_int signed bits s = MatchingFailure s.
Proof.
  intros Hs. unfold scan_int. rewrite skip_space_stops by by apply no_number_stops.
  destruct s as [|c s]; [done|]. simpl in Hs.
  apply andb_true_iff in Hs as [Hs Hplus].
  apply andb_true_iff in Hs as [Hs Hminus].
  apply andb_true_iff in Hs as [_ Hdigit].
  apply negb_true_iff in Hplus, Hminus, Hdigit.
  rewrite Hplus, Hminus. cbn [orb].
  rewrite span_stops by done. reflexivity.
Qed.

Lemma scan_d_no_number s itmp ctmp :
  no_number s = true → scan_d (Frame s itmp ctmp) = GotoError.
Proof.
  intros Hs. unfold scan_d, fscanf. cbn [fr_f].
  change (parse_format "%d ") with [DConv false (ConvInt true 32); DSpace].
  cbn [scan scan_item]. by rewrite scan_int_no_number.
Qed.

Lemma scan_u_no_number s itmp ctmp :
  no_number s = true → scan_u (Frame s itmp ctmp) = GotoError.
Proof.
  intros Hs. unfold scan_u, fscanf. cbn [fr_f].
  change (parse_format "%u ") with [DConv false (ConvInt false 32); DSpace].
  cbn [scan scan_item]. by rewrite scan_int_no_number.
Qed.

(** X5: a record that does not begin with a number is turned down at the
    PID: the function returns -1, stores nothing in [*rss] and [*vsize],
    and leaves [buf] as it was. *)
Theorem GetMemory_rejects_first_field size_bits getpagesize content buf :
  no_number content = true →
  GetMemory size_bits getpagesize (Some content) buf
  = Returns (MemoryResult (-1) Untouched Untouched buf).
Proof.
  intros Hc. unfold GetMemory. by rewrite scan_d_no_number.
Qed.

Lemma GetMemory_rejects_first_field_witness :
  no_number (txt "(node) S 1 ") = true
  ∧ GetMemory 64 4096 (Some (txt "(node) S 1 ")) buf_start
    = Returns (MemoryResult (-1) Untouched Untouched buf_start).
Proof.
  split; [reflexivity|]. by apply GetMemory_rejects_first_field.
Defined.

Lemma scan_d_field_value z rest itmp ctmp :
  0 ≤ z < 2 ^ 31 → stops isspace rest →
  scan_d (Frame (sdec z ++ " "%char :: rest) itmp ctmp) = Next (Frame rest (Some z) ctmp).
Proof.
  intros Hz Hrest. unfold scan_d, fscanf. cbn [fr_f fr_itmp fr_ctmp].
  change (parse_format "%d ") with [DConv false (ConvInt true 32); DSpace].
  unfold sdec. destruct (Z.ltb_spec z 0) as [?|_]; [lia|].
  rewrite scan_int_step by done. cbn [scan app].
  rewrite skip_one_space by done. cbn [count assigned remaining].
  rewrite int_result_signed by (rewrite Z2N.id; lia).
  by rewrite Z2N.id by lia.
Qed.

(** The statements from the state to the start time, on the fields as
    the kernel prints them. *)
Lemma fields_3_to_22_record r rest itmp ctmp :
  stops isspace rest →
  ∃ v, fields_3_to_22 (Frame (render_state_to_start r rest) itmp ctmp)
       = Next (Frame rest v (Some (st_state r))).
Proof.
  intros Hrest. unfold fields_3_to_22, render_state_to_start.
  rewrite scan_c_field by apply stops_space_sdec. cbn [mbind flow_bind].
  repeat first
    [ rewrite scan_u_field by first [apply stops_space_sdec | apply stops_space_dec]
    | match goal with
      | |- context [scan_d (Frame (sdec ?z ++ " "%char :: ?rest) ?i ?c)] =>
          let v := fresh "v" in
          let Hv := fresh "Hv" in
          destruct (scan_d_field z rest i c) as [v Hv];
          [first [apply stops_space_sdec | apply stops_space_dec | exact Hrest]|];
          rewrite Hv; clear Hv
      end
    | progress cbn [mbind flow_bind] ].
  eauto.
Qed.

(** X6: when the record is in order up to the start time and the virtual
    size is not a number, the function returns -1 and has stored nothing
    in [*rss] and [*vsize]; [buf] already holds the name. *)
Theorem GetMemory_fails_at_virtual_size size_bits getpagesize r junk buf :
  space_after_paren false (st_comm r) = false →
  (length (st_comm r) + 3 ≤ length buf)%nat →
  no_number junk = true →
  GetMemory size_bits getpagesize (Some (render_head r junk)) buf
  = Returns (MemoryResult (-1) Untouched Untouched
               ("("%char :: st_comm r ++ ")"%char :: NUL
                :: drop (length (st_comm r) + 3) buf)).
Proof.
  intros Hcomm Hbuf Hjunk. unfold GetMemory, render_head.
  edestruct (scan_d_field (st_pid r)) as [v ->]; [done|]. cbn [fr_f fr_itmp fr_ctmp].
  rewrite exec_file_scans_name by done.
  destruct (fields_3_to_22_record r junk v None) as [v' ->];
    [by apply no_number_stops|].
  cbn [mbind flow_bind]. by rewrite scan_u_no_number.
Qed.

Lemma GetMemory_fails_at_virtual_size_witness :
  GetMemory 64 4096 (Some (render_head sample_record (txt "x 5000 "))) buf_start
  = Returns (MemoryResult (-1) Untouched Untouched
               ("("%char :: st_comm sample_record ++ ")"%char :: NUL
                :: drop (length (st_comm sample_record) + 3) buf_start)).
Proof.
  apply (GetMemory_fails_at_virtual_size 64 4096 sample_record (txt "x 5000 ")
           buf_start); first [reflexivity | by (vm_compute; lia)].
Defined.

(** X7: when the record is in order up to the virtual size and the
    resident set size is not a number, the function returns -1 although it
    has stored the virtual size in [*vsize] already; [*rss] is not
    written. *)
Theorem GetMemory_fails_at_resident_set size_bits getpagesize r junk buf :
  space_after_paren false (st_comm r) = false →
  (length (st_comm r) + 3 ≤ length buf)%nat →
  (st_vsize r < 2 ^ 31)%N → 32 ≤ size_bits →
  no_number junk = true →
  GetMemory size_bits getpagesize
    (Some (render_head r (dec (st_vsize r) ++ " "%char :: junk))) buf
  = Returns (MemoryResult (-1) Untouched (Stored (Some (Z.of_N (st_vsize r))))
               ("("%char :: st_comm r ++ ")"%char :: NUL
                :: drop (length (st_comm r) + 3) buf)).
Proof.
  intros Hcomm Hbuf Hvsize Hbits Hjunk. unfold GetMemory, render_head.
  edestruct (scan_d_field (st_pid r)) as [v ->]; [done|]. cbn [fr_f fr_itmp fr_ctmp].
  rewrite exec_file_scans_name by done.
  destruct (fields_3_to_22_record r (dec (st_vsize r) ++ " "%char :: junk) v None)
    as [v' ->]; [apply stops_space_dec|].
  cbn [mbind flow_bind].
  rewrite scan_u_field by by apply no_number_stops.
  rewrite scan_u_no_number by done. cbn [fr_itmp].
  rewrite unsigned_field_small by done.
  assert (2 ^ 32 ≤ 2 ^ size_bits) by (apply Z.pow_le_mono_r; lia).
  assert (Z.of_N (st_vsize r) < 2 ^ 31)
    by (change (2 ^ 31) with (Z.of_N (2 ^ 31)); lia).
  cbn [fmap option_fmap option_map]. unfold to_size_t.
  by rewrite Z.mod_small by lia.
Qed.

Lemma GetMemory_fails_at_resident_set_witness :
  GetMemory 64 4096
    (Some (render_head sample_record
             (dec (st_vsize sample_record) ++ " "%char :: txt "many")))
    buf_start
  = Returns (MemoryResult (-1) Untouched
               (Stored (Some (Z.of_N (st_vsize sample_record))))
               ("("%char :: st_comm sample_record ++ ")"%char :: NUL
                :: drop (length (st_comm sample_record) + 3) buf_start)).
Proof.
  apply (GetMemory_fails_at_resident_set 64 4096 sample_record (txt "many")
           buf_start); first [reflexivity | by (vm_compute; lia) | lia].
Defined.

(** X8: a record that ends after the name, with a PID between 0 and
    2^31, is taken for a good one: the function returns 0 and reports the
    PID as the virtual size and the PID times the page size as the resident
    set size. *)
Theorem GetMemory_cut_record_reports_pid size_bits getpagesize pid comm buf :
  space_after_paren false comm = false →
  (length comm + 3 ≤ length buf)%nat →
  0 ≤ pid < 2 ^ 31 → 32 ≤ size_bits →
  0 ≤ getpagesize < 2 ^ size_bits → pid * getpagesize < 2 ^ size_bits →
  GetMemory size_bits getpagesize
    (Some (sdec pid ++ " "%char :: "("%char :: comm ++ [")"%char; " "%char])) buf
  = Returns (MemoryResult 0 (Stored (Some (pid * getpagesize))) (Stored (Some pid))
               ("("%char :: comm ++ ")"%char :: NUL :: drop (length comm + 3) buf)).
Proof.
  intros Hcomm Hbuf Hpid Hbits Hpage Hprod. unfold GetMemory.
  rewrite scan_d_field_value by done. cbn [fr_f fr_itmp fr_ctmp].
  rewrite exec_file_scans_name by done.
  rewrite fields_3_to_22_eof. cbn [mbind flow_bind].
  rewrite !scan_u_eof, fields_25_to_28_eof. cbn [fr_itmp].
  assert (2 ^ 32 ≤ 2 ^ size_bits) by (apply Z.pow_le_mono_r; lia).
  cbn [fmap option_fmap option_map]. unfold to_size_t.
  rewrite (Z.mod_small pid) by lia.
  rewrite (Z.mod_small getpagesize) by lia.
  rewrite Z.mod_small by (split; [apply Z.mul_nonneg_nonneg; lia|lia]).
  reflexivity.
Qed.

Lemma GetMemory_cut_record_reports_pid_witness :
  GetMemory 64 4096 (Some (txt "1234 (node) ")) buf_start
  = Returns (MemoryResult 0 (Stored (Some (1234 * 4096))) (Stored (Some 1234))
               ("("%char :: txt "node" ++ ")"%char :: NUL
                :: drop (length (txt "node") + 3) buf_start)).
Proof.
  apply (GetMemory_cut_record_reports_pid 64 4096 1234 (txt "node") buf_start);
    first [reflexivity | by (vm_compute; lia) | lia].
Defined.

(** The name loop goes on as long as the input does not end the name. *)
Lemma exec_file_loop_overflows cells : ∀ name rest seen,
  space_after_paren seen name = false →
  (length cells ≤ length name)%nat →
  exec_file_loop cells (name ++ rest) seen = OutOfBounds.
Proof.
  induction cells as [|c0 cells IH]; intros name rest seen Hname Hlen; [done|].
  destruct name as [|c name]; simpl in Hlen; [lia|].
  cbn [app exec_file_loop]. rewrite fscanf_c_cons.
  cbn [count assigned remaining]. change (1 =? 0) with false. cbv iota.
  cbn [space_after_paren] in Hname.
  destruct (Ascii.eqb c ")") eqn:Hc.
  - by rewrite IH by (done || lia).
  - destruct (seen && Ascii.eqb c " ") eqn:Hsp; [done|].
    by rewrite IH by (done || lia).
Qed.

(** X9: the loop that copies the name checks no bound: when the text
    after the opening parenthesis goes on for as many characters as [buf]
    has left without a space after a closing parenthesis, the next store is
    outside [buf], and the behaviour of the call is undefined. *)
Theorem GetMemory_name_overruns_buf size_bits getpagesize pid name rest buf :
  space_after_paren false name = false →
  (length buf ≤ length name + 1)%nat →
  GetMemory size_bits getpagesize
    (Some (sdec pid ++ " "%char :: "("%char :: name ++ rest)) buf
  = Undefined.
Proof.
  intros Hname Hlen. unfold GetMemory.
  edestruct (scan_d_field pid) as [v ->]; [done|]. cbn [fr_f fr_itmp fr_ctmp].
  unfold exec_file. destruct buf as [|b0 cells]; [done|].
  rewrite fscanf_c_cons. cbn [count assigned remaining].
  change (1 =? 0) with false. cbv iota.
  rewrite exec_file_loop_overflows by (simpl in Hlen; done || lia). done.
Qed.

Lemma GetMemory_name_overruns_buf_witness :
  GetMemory 64 4096
    (Some (sdec 1 ++ " "%char :: "("%char :: replicate 4096 "a"%char
           ++ txt ") S 1 "))
    buf_start
  = Undefined.
Proof.
  apply (GetMemory_name_overruns_buf 64 4096 1 (replicate 4096 "a"%char)
           (txt ") S 1 ") buf_start).
  - by vm_compute.
  - vm_compute. lia.
Defined.
End MemoryEdges.

(** ** The objects of the interface addresses *)

Section InterfaceObjects.
Import Platform.
Variable inet_ntop : Z → list Z → text.

(** Filing an object under a name: the statements from [String::New] of
    the name to [ifarr->Set]. *)
Lemma filed_after_Set h nm o name :
  handles_ok h →
  filed (let '(ifarr, h') :=
           match ret h !! nm with
           | Some a => (a, h)
           | None =>
               let a := length (arrays h) in
               (a, JsHeap (arrays h ++ [V8.Array_New 0]) (<[nm := a]> (ret h)))
           end in
         JsHeap (alter (λ a, V8.Set_ a (V8.Length a) o) ifarr (arrays h')) (ret h'))
    name
  = if decide (name = nm) then filed h name ++ [Some o] else filed h name.
Proof.
  intros [Hbound Hinj].
  destruct (ret h !! nm) as [a|] eqn:Hname.
  - pose proof (Hbound _ _ Hname) as Ha.
    destruct (lookup_lt_is_Some_2 (arrays h) a Ha) as [arr Harr].
    unfold filed. cbn [ret arrays].
    destruct (decide (name = nm)) as [->|Hne].
    + rewrite Hname, list_lookup_alter_eq, Harr.
      cbn [fmap option_fmap option_map default]. by rewrite Set_at_end.
    + destruct (ret h !! name) as [a'|] eqn:Hn; [|done].
      rewrite list_lookup_alter_ne; [done|].
      intros <-. apply Hne. by apply (Hinj _ _ a).
  - unfold filed. cbn [ret arrays].
    rewrite alter_app_r_alt, Nat.sub_diag by lia. cbn [alter list_alter].
    destruct (decide (name = nm)) as [->|Hne].
    + rewrite lookup_insert_eq, Hname.
      rewrite lookup_app_r, Nat.sub_diag by lia. done.
    + rewrite lookup_insert_ne by done.
      destruct (ret h !! name) as [a'|] eqn:Hn; [|done].
      rewrite lookup_app_l; [done|]. by eapply Hbound.
Qed.

Lemma interface_entry_object h ent :
  surfaced ent = true → handles_ok h →
  ∀ name,
    filed (interface_entry inet_ntop h ent) name
    = if decide (name = ifa_name ent)
      then filed h name ++ [Some (entry_object inet_ntop ent)]
      else filed h name.
Proof.
  unfold surfaced, interface_entry, entry_object.
  rewrite has_flag_up, has_flag_running.
  intros Hs Hok name.
  apply andb_true_iff in Hs as [-> Hs]. cbn [negb].
  destruct (ifa_addr ent) as [sa|]; [|done].
  apply negb_true_iff in Hs. rewrite Hs. cbn [from_option].
  destruct (sa_family sa =? AF_INET6); [|destruct (sa_family sa =? AF_INET)];
    by rewrite <- filed_after_Set.
Qed.

Lemma interface_entry_handles h ent :
  handles_ok h → handles_ok (interface_entry inet_ntop h ent).
Proof.
  intros Hok. destruct (surfaced ent) eqn:Hs.
  - by destruct (interface_entry_surfaced inet_ntop h ent Hs Hok) as (_ & _ & ? & _).
  - by rewrite interface_entry_skipped.
Qed.

Lemma interface_loop_objects addrs h name :
  handles_ok h →
  filed (foldl (interface_entry inet_ntop) h addrs) name
  = filed h name
    ++ ((λ ent, Some (entry_object inet_ntop ent))
          <$> filter (λ ent, surfaced ent = true ∧ ifa_name ent = name) addrs).
Proof.
  revert h. induction addrs as [|ent addrs IH]; intros h Hok; simpl.
  - by rewrite app_nil_r.
  - rewrite IH by by apply interface_entry_handles.
    destruct (surfaced ent) eqn:Hs.
    + rewrite interface_entry_object by done.
      destruct (decide (name = ifa_name ent)) as [->|Hne].
      * rewrite filter_cons_True by done. by rewrite <- app_assoc.
      * by rewrite filter_cons_False by (intros [_ ?]; congruence).
    + rewrite interface_entry_skipped by done.
      by rewrite filter_cons_False by (intros [? _]; congruence).
Qed.

(** The arrays of the result, entry by entry. *)
Lemma GetInterfaceAddresses_objects addrs :
  ∃ props,
    GetInterfaceAddresses inet_ntop false (Some addrs) = Object_ props
    ∧ ∀ name,
        default [] (props !! name)
        = (λ ent, Some (entry_object inet_ntop ent))
            <$> filter (λ ent, surfaced ent = true ∧ ifa_name ent = name) addrs.
Proof.
  eexists. split; [reflexivity|]. intros name.
  transitivity (filed (foldl (interface_entry inet_ntop) (JsHeap [] ∅) addrs) name).
  - rewrite lookup_fmap. unfold filed. by destruct (ret _ !! name).
  - rewrite interface_loop_objects; [done|].
    split; intros *; cbn [ret]; by rewrite lookup_empty.
Qed.

Lemma surfaced_up_running ent :
  surfaced ent = true →
  has_flag (ifa_flags ent) IFF_UP = true
  ∧ has_flag (ifa_flags ent) IFF_RUNNING = true
  ∧ ∃ sa, ifa_addr ent = Some sa ∧ sa_family sa ≠ PF_PACKET.
Proof.
  unfold surfaced. rewrite has_flag_up, has_flag_running.
  intros Hs. apply andb_true_iff in Hs as [Hs Hsa].
  apply andb_true_iff in Hs as [-> ->]. split; [done|]. split; [done|].
  destruct (ifa_addr ent) as [sa|]; [|done]. exists sa. split; [done|].
  by apply negb_true_iff, Z.eqb_neq in Hsa.
Qed.

(** X10: the [internal] property of every object in the result is what
    [IsInternal] answers for the entry the object was made from, although
    the loop tests the loopback flag alone. *)
Theorem GetInterfaceAddresses_internal_is_IsInternal addrs :
  ∃ props,
    GetInterfaceAddresses inet_ntop false (Some addrs) = Object_ props
    ∧ ∀ name,
        Forall2 (λ ent slot, ∃ o, slot = Some o ∧ internal o = IsInternal ent)
          (filter (λ ent, surfaced ent = true ∧ ifa_name ent = name) addrs)
          (default [] (props !! name)).
Proof.
  destruct (GetInterfaceAddresses_objects addrs) as (props & Hprops & Hall).
  exists props. split; [done|]. intros name. rewrite Hall.
  apply Forall2_fmap_r, Forall_Forall2_diag, Forall_forall.
  intros ent [[Hs _] _]%list_elem_of_filter.
  eexists. split; [done|]. unfold IsInternal, entry_object. cbn [internal].
  destruct (surfaced_up_running ent Hs) as (-> & -> & _). done.
Qed.

(** X11: every object in the result is labelled by the address family of
    its entry: [IPv6] or [IPv4] with the text [inet_ntop] gives for the
    address, and for any other family [<unknown>] with the address text
    [<unknown sa family>]. *)
Theorem GetInterfaceAddresses_family_labels addrs :
  ∃ props,
    GetInterfaceAddresses inet_ntop false (Some addrs) = Object_ props
    ∧ ∀ name,
        Forall2
          (λ ent slot, ∃ o sa,
             slot = Some o ∧ ifa_addr ent = Some sa
             ∧ (sa_family sa = AF_INET6 →
                family o = "IPv6"%string
                ∧ address o = inet_ntop AF_INET6 (sa_data sa))
             ∧ (sa_family sa = AF_INET →
                family o = "IPv4"%string
                ∧ address o = inet_ntop AF_INET (sa_data sa))
             ∧ (sa_family sa ≠ AF_INET6 → sa_family sa ≠ AF_INET →
                family o = "<unknown>"%string
                ∧ address o = txt "<unknown sa family>"))
          (filter (λ ent, surfaced ent = true ∧ ifa_name ent = name) addrs)
          (default [] (props !! name)).
Proof.
  destruct (GetInterfaceAddresses_objects addrs) as (props & Hprops & Hall).
  exists props. split; [done|]. intros name. rewrite Hall.
  apply Forall2_fmap_r, Forall_Forall2_diag, Forall_forall.
  intros ent [[Hs _] _]%list_elem_of_filter.
  destruct (surfaced_up_running ent Hs) as (_ & _ & sa & Hsa & _).
  eexists _, sa. split; [done|]. split; [done|].
  unfold entry_object. rewrite Hsa. cbn [from_option family address].
  split; [|split].
  - intros ->. done.
  - intros ->. done.
  - intros H6%Z.eqb_neq H4%Z.eqb_neq. by rewrite H6, H4.
Qed.
(** C8, as the code has it.  Built with [ANDROID], the function returns
    undefined whatever the list.  Built without it, the entries filed
    under a name are, in the order of the list, those entries of the list
    with that name whose interface is up and running, whose address is not
    null and whose family is not packet: one object each, made from that
    entry alone - its [internal] true exactly when the entry has the
    loopback flag, its address the text [inet_ntop] gives for an IPv6 or
    IPv4 address and [<unknown sa family>] otherwise, its family [IPv6],
    [IPv4] or [<unknown>]; a name has a property exactly when such an entry
    exists. *)
Theorem GetInterfaceAddresses_surfaces addrs :
  (∀ list, GetInterfaceAddresses inet_ntop true list = JsUndefined)
  ∧ ∃ props,
      GetInterfaceAddresses inet_ntop false (Some addrs) = Object_ props
      ∧ ∀ name,
          Forall2
            (λ ent slot, ∃ o sa,
               slot = Some o ∧ ifa_addr ent = Some sa
               ∧ (internal o = true ↔ Z.testbit (ifa_flags ent) 3 = true)
               ∧ address o
                 = (if sa_family sa =? AF_INET6
                    then inet_ntop AF_INET6 (sa_data sa)
                    else if sa_family sa =? AF_INET
                         then inet_ntop AF_INET (sa_data sa)
                         else txt "<unknown sa family>")
               ∧ family o
                 = (if sa_family sa =? AF_INET6 then "IPv6"%string
                    else if sa_family sa =? AF_INET then "IPv4"%string
                         else "<unknown>"%string))
            (filter (λ ent, surfaced ent = true ∧ ifa_name ent = name) addrs)
            (default [] (props !! name))
          ∧ (props !! name = None
             ↔ filter (λ ent, surfaced ent = true ∧ ifa_name ent = name) addrs
               = []).
Proof.
  split; [done|].
  destruct (GetInterfaceAddresses_objects addrs) as (props & Hprops & Hall).
  exists props. split; [done|]. intros name. split.
  - rewrite Hall.
    apply Forall2_fmap_r, Forall_Forall2_diag, Forall_forall.
    intros ent [[Hs _] _]%list_elem_of_filter.
    destruct (surfaced_up_running ent Hs) as (_ & _ & sa & Hsa & _).
    eexists _, sa. split; [done|]. split; [done|].
    unfold entry_object. rewrite Hsa, has_flag_loopback.
    cbn [from_option family address internal]. done.
  - cbn in Hprops. injection Hprops as <-.
    assert (filed_as ([] ++ addrs)
              (foldl (interface_entry inet_ntop) (JsHeap [] ∅) addrs))
      as [_ Hfiled].
    { apply interface_loop_filed. split; [split|].
      - intros ? ?. cbn [ret]. by rewrite lookup_empty.
      - intros ? ? ?. cbn [ret]. by rewrite lookup_empty.
      - intros ?. unfold filed. cbn [ret]. by rewrite lookup_empty, filter_nil. }
    simpl in Hfiled. destruct (Hfiled name) as [_ Hnone].
    rewrite lookup_fmap, <- Hnone.
    by destruct (ret _ !! name).
Qed.
End InterfaceObjects.

(** The claim of C8 fails in a build with [ANDROID]: a loopback address
    that is up and running is not surfaced, the function returns undefined;
    built without, the same list gives the object with that address. *)
Lemma GetInterfaceAddresses_android_surfaces_nothing :
  surfaced lo_entry = true
  ∧ Platform.GetInterfaceAddresses (λ _ _, txt "127.0.0.1") true (Some [lo_entry])
    = Platform.JsUndefined
  ∧ (∀ props,
       Platform.GetInterfaceAddresses (λ _ _, txt "127.0.0.1") true
         (Some [lo_entry])
       ≠ Platform.Object_ props)
  ∧ ∃ props,
      Platform.GetInterfaceAddresses (λ _ _, txt "127.0.0.1") false
        (Some [lo_entry])
      = Platform.Object_ props
      ∧ props !! txt "lo"
        = Some [Some (Platform.AddressEntry (txt "127.0.0.1") "IPv4" true)].
Proof.
  split; [reflexivity|]. split; [reflexivity|]. split; [done|].
  eexists. split; [reflexivity|]. by vm_compute.
Qed.

(** ** GetCPUInfo: the descriptor and the shape of the array *)

Section CpuDescriptor.
Import CLib Platform.

#[local] Opaque dec.

Lemma strchr_app s c r : c ∉ s → strchr (s ++ c :: r) c = Some (length s).
Proof.
  induction s as [|a s IH]; intros Hc; simpl.
  - by rewrite Ascii.eqb_refl.
  - apply not_elem_of_cons in Hc as [Hne Hc].
    assert (Ascii.eqb a c = false) as -> by (apply Ascii.eqb_neq; congruence).
    by rewrite IH.
Qed.

Lemma drop_past_two {A} (s : list A) a b r :
  drop (length s + 2) (s ++ a :: b :: r) = r.
Proof. induction s; [done|]. by simpl. Qed.

Lemma skip_space_app ws s :
  Forall (λ c, isspace c = true) ws → stops isspace s → skip_space (ws ++ s) = s.
Proof. intros Hws Hs. unfold skip_space. by rewrite span_app. Qed.

Lemma scan_word_step fmt w c s done :
  w ≠ [] → Forall (λ c, negb (isspace c) = true) w → isspace c = true →
  scan (DConv true ConvStr :: fmt) (w ++ c :: s) done = scan fmt (c :: s) done.
Proof.
  intros Hne Hw Hc.
  change (scan (DConv true ConvStr :: fmt) (w ++ c :: s) done)
    with (match scan_item ConvStr (w ++ c :: s) with
          | Matched v r => scan fmt r done
          | MatchingFailure r => Scanned (Z.of_nat (length done)) done r
          | InputFailure =>
              Scanned (if done is [] then EOF else Z.of_nat (length done)) done []
          end).
  unfold scan_item. destruct w as [|a w]; [done|].
  rewrite skip_space_stops.
  - cbn [app]. cbv iota.
    change (a :: w ++ c :: s) with ((a :: w) ++ c :: s).
    rewrite span_app; [reflexivity|done|]. simpl. by rewrite Hc.
  - inversion Hw as [|? ? Ha _]. simpl. by apply negb_true_iff in Ha.
Qed.

Lemma scan_space_step fmt s done :
  scan (DSpace :: fmt) s done = scan fmt (skip_space s) done.
Proof. reflexivity. Qed.

Lemma scan_lit_step fmt c s done :
  scan (DLit c :: fmt) (c :: s) done = scan fmt s done.
Proof. cbn [scan]. by rewrite Ascii.eqb_refl. Qed.

Lemma parse_format_MHz :
  parse_format "%*s %*s : %u"
  = [DConv true ConvStr; DSpace; DConv true ConvStr; DSpace; DLit ":"; DSpace;
     DConv false (ConvInt false 32)].
Proof. reflexivity. Qed.

(** What [sscanf] finds in a "cpu MHz" line. *)
Lemma sscanf_cpu_MHz_line pad mhz more :
  pad ≠ [] → Forall (λ c, isspace c = true) pad → stops isdigit more →
  assigned (sscanf (c_str (cpu_MHz_line pad mhz more)) "%*s %*s : %u")
  = [VInt (int_result false 32 false (Z.of_N mhz))].
Proof.
  intros Hne Hpad Hmore. unfold sscanf. rewrite parse_format_MHz.
  assert (NUL ∉ pad) as Hnul.
  { intros Hin. rewrite Forall_forall in Hpad. by apply Hpad in Hin. }
  unfold cpu_MHz_line.
  rewrite (c_str_app (txt "cpu MHz")) by (apply (bool_decide_unpack _); by vm_compute).
  rewrite (c_str_app pad) by done.
  rewrite !c_str_cons by discriminate.
  rewrite (c_str_app (dec _)) by apply dec_no_NUL.
  change (txt "cpu MHz" ++ ?r) with (txt "cpu" ++ " "%char :: (txt "MHz" ++ r)).
  rewrite scan_word_step; [|done|by repeat constructor|done].
  rewrite scan_space_step, skip_space_cons by done.
  rewrite skip_space_stops by done.
  destruct pad as [|c pad]; [done|]. inversion Hpad as [|? ? Hc Hpad']; subst.
  cbn [app]. rewrite scan_word_step; [|done|by repeat constructor|done].
  change (c :: pad ++ ?r) with ((c :: pad) ++ r).
  rewrite scan_space_step, skip_space_app by done.
  rewrite scan_lit_step, scan_space_dec.
  rewrite scan_int_step by by apply stops_c_str.
  reflexivity.
Qed.

Lemma strncmp_model_name_line pad sep name last :
  strncmp_eq (model_name_line pad sep name last) "model name" 10 = true.
Proof.
  unfold strncmp_eq, model_name_line.
  rewrite (c_str_app (txt "model name")) by (apply (bool_decide_unpack _); by vm_compute).
  by apply bool_decide_eq_true.
Qed.

Lemma strncmp_cpu_MHz_line pad mhz more :
  strncmp_eq (cpu_MHz_line pad mhz more) "model name" 10 = false
  ∧ strncmp_eq (cpu_MHz_line pad mhz more) "cpu MHz" 7 = true.
Proof.
  unfold strncmp_eq, cpu_MHz_line.
  rewrite (c_str_app (txt "cpu MHz")) by (apply (bool_decide_unpack _); by vm_compute).
  split; [by apply bool_decide_eq_false|by apply bool_decide_eq_true].
Qed.

(** The first "model name" line sets the model. *)
Lemma descriptor_line_model d pad sep name last :
  d_numcpus d = 0%nat →
  ":"%char ∉ pad → NUL ∉ pad ++ sep :: name ++ [last] →
  descriptor_line d (model_name_line pad sep name last)
  = Returns (Descriptor 1 (Some name) (d_cpuspeed d)).
Proof.
  intros Hd Hpad Hnul. unfold descriptor_line.
  rewrite strncmp_model_name_line, Hd. cbn [Nat.eqb].
  assert (c_str (model_name_line pad sep name last)
          = (txt "model name" ++ pad) ++ ":"%char :: sep :: name ++ [last]) as ->.
  { unfold model_name_line. rewrite <- app_assoc. apply c_str_id.
    apply not_elem_of_app in Hnul as [Hnul1 Hnul2].
    apply not_elem_of_app.
    split; [apply (bool_decide_unpack _); by vm_compute|].
    apply not_elem_of_app. split; [done|].
    apply not_elem_of_cons. split; [discriminate|done]. }
  rewrite strchr_app.
  - rewrite drop_past_two.
    destruct (name ++ [last]) eqn:Hname.
    + by destruct name.
    + by rewrite <- Hname, removelast_last.
  - rewrite not_elem_of_app. split; [|done].
    apply (bool_decide_unpack _). by vm_compute.
Qed.

(** A "cpu MHz" line read while one processor has been counted sets the
    speed. *)
Lemma descriptor_line_MHz d pad mhz more :
  d_numcpus d = 1%nat →
  pad ≠ [] → Forall (λ c, isspace c = true) pad → stops isdigit more →
  (mhz < 2 ^ 32)%N →
  descriptor_line d (cpu_MHz_line pad mhz more)
  = Returns (Descriptor 1 (d_model d) (Some (Z.of_N mhz))).
Proof.
  intros Hd Hne Hpad Hmore Hmhz. unfold descriptor_line.
  destruct (strncmp_cpu_MHz_line pad mhz more) as [-> ->].
  rewrite Hd. cbn [Nat.eqb].
  rewrite sscanf_cpu_MHz_line by done.
  rewrite int_result_unsigned; [done|].
  change (2 ^ 32) with (Z.of_N (2 ^ 32)). lia.
Qed.

Lemma descriptor_line_other d l :
  other_line l → descriptor_line d l = Returns d.
Proof. intros [Hm Hs]. unfold descriptor_line. by rewrite Hm, Hs. Qed.

Lemma descriptor_loop_others d ls rest :
  Forall other_line ls → descriptor_loop d (ls ++ rest) = descriptor_loop d rest.
Proof.
  induction 1 as [|l ls Hl _ IH]; [done|].
  cbn [app descriptor_loop]. by rewrite descriptor_line_other.
Qed.

(** Before the first "model name" line nothing is set. *)
Lemma descriptor_loop_before d pre rest :
  d_numcpus d = 0%nat →
  Forall (λ l, strncmp_eq l "model name" 10 = false) pre →
  descriptor_loop d (pre ++ rest) = descriptor_loop d rest.
Proof.
  intros Hd. induction 1 as [|l pre Hl _ IH]; [done|].
  cbn [app descriptor_loop]. unfold descriptor_line. rewrite Hl, Hd.
  cbn [Nat.eqb]. by destruct (strncmp_eq l "cpu MHz" 7).
Qed.

(** From the second processor on, lines are only counted. *)
Lemma descriptor_loop_counts lines : ∀ d,
  (2 ≤ d_numcpus d)%nat →
  descriptor_loop d lines
  = Returns (Descriptor (d_numcpus d + length (model_name_lines lines))
               (d_model d) (d_cpuspeed d)).
Proof.
  unfold model_name_lines.
  induction lines as [|l lines IH]; intros [n m s] Hd; cbn [d_numcpus] in Hd.
  { cbn. by rewrite Nat.add_0_r. }
  cbn [descriptor_loop]. unfold descriptor_line. cbn [d_numcpus d_model d_cpuspeed].
  destruct (strncmp_eq l "model name" 10) eqn:Hm.
  - rewrite filter_cons_True by done.
    destruct n as [|[|n]]; [lia|lia|]. cbn [Nat.eqb mbind outcome_bind].
    rewrite IH by (cbn; lia). cbn [d_numcpus d_model d_cpuspeed length].
    do 2 f_equal. lia.
  - rewrite filter_cons_False by (by rewrite Hm).
    destruct n as [|[|n]]; [lia|lia|]. cbn [Nat.eqb].
    destruct (strncmp_eq l "cpu MHz" 7); cbn [mbind outcome_bind];
      by rewrite IH by (cbn; lia).
Qed.

Lemma descriptor_loop_next d rest :
  d_numcpus d = 1%nat → next_processor rest →
  descriptor_loop d rest
  = Returns (Descriptor (1 + length (model_name_lines rest))
               (d_model d) (d_cpuspeed d)).
Proof.
  intros Hd Hrest. destruct rest as [|l rest]; simpl in Hrest.
  { destruct d. simpl in Hd. by subst. }
  cbn [descriptor_loop]. unfold descriptor_line, model_name_lines.
  rewrite Hrest, Hd, filter_cons_True by done. cbn [Nat.eqb mbind outcome_bind].
  rewrite descriptor_loop_counts by (cbn; lia).
  cbn [d_numcpus d_model d_cpuspeed length]. do 2 f_equal.
Qed.

(** Once a processor has been counted the loop runs to its end and keeps
    the model. *)
Lemma descriptor_loop_keeps_model lines : ∀ d,
  (1 ≤ d_numcpus d)%nat →
  ∃ d', descriptor_loop d lines = Returns d' ∧ d_model d' = d_model d.
Proof.
  induction lines as [|l lines IH]; intros [n m s] Hd; cbn [d_numcpus] in Hd.
  { by eexists. }
  cbn [descriptor_loop]. unfold descriptor_line. cbn [d_numcpus d_model d_cpuspeed].
  destruct n as [|n]; [lia|].
  destruct (strncmp_eq l "model name" 10).
  - cbn [Nat.eqb mbind outcome_bind]. apply (IH (Descriptor _ _ _)). cbn. lia.
  - destruct (strncmp_eq l "cpu MHz" 7); [destruct (S n =? 1)%nat|];
      cbn [mbind outcome_bind]; apply (IH (Descriptor _ _ _)); cbn; lia.
Qed.

(** X12: on a /proc/cpuinfo whose first processor has a "model name" line
    and after it a "cpu MHz" line, the first loop takes the model from the
    text after the colon and the character that follows it, less its last
    character, the speed from the whole megahertz, and counts the "model
    name" lines; what later processors give as model or speed is not
    used. *)
Theorem read_descriptor_first_processor info pre pad sep name last mid
    mpad mhz more mid' rest :
  fgets_all 511 info
  = pre ++ model_name_line pad sep name last :: mid
        ++ cpu_MHz_line mpad mhz more :: mid' ++ rest →
  Forall (λ l, strncmp_eq l "model name" 10 = false) pre →
  Forall other_line mid → Forall other_line mid' → next_processor rest →
  ":"%char ∉ pad → NUL ∉ pad ++ sep :: name ++ [last] →
  mpad ≠ [] → Forall (λ c, isspace c = true) mpad → stops isdigit more →
  (mhz < 2 ^ 32)%N →
  read_descriptor (Some info)
  = Returns (Descriptor (1 + length (model_name_lines rest)) (Some name)
               (Some (Z.of_N mhz))).
Proof.
  intros Hlines Hpre Hmid Hmid' Hrest Hpad Hnul Hne Hmpad Hmore Hmhz.
  unfold read_descriptor. rewrite Hlines.
  rewrite descriptor_loop_before by done.
  cbn [descriptor_loop]. rewrite descriptor_line_model by done.
  cbn [mbind outcome_bind]. rewrite descriptor_loop_others by done.
  cbn [descriptor_loop]. rewrite descriptor_line_MHz by done.
  cbn [mbind outcome_bind d_model]. rewrite descriptor_loop_others by done.
  by rewrite descriptor_loop_next.
Qed.

Lemma read_descriptor_first_processor_witness :
  read_descriptor (proc_cpuinfo two_cores)
  = Returns (Descriptor 2 (Some (txt "ARMv7 Processor rev 2")) (Some 1600)).
Proof.
  apply (read_descriptor_first_processor _
           [txt "processor : 0" ++ [LF]] (txt " ") " " (txt "ARMv7 Processor rev 2") LF
           [] (txt " ") 1600 (txt ".000" ++ [LF]) [txt "processor : 1" ++ [LF]]
           [txt "model name : ARMv7 Processor rev 2" ++ [LF];
            txt "cpu MHz : 1600.000" ++ [LF]]).
  - by vm_compute.
  - repeat constructor.
  - constructor.
  - repeat constructor.
  - by vm_compute.
  - apply (bool_decide_unpack _). by vm_compute.
  - apply (bool_decide_unpack _). by vm_compute.
  - done.
  - repeat constructor.
  - done.
  - done.
Defined.
End CpuDescriptor.

(** ** GetCPUInfo: the array as a whole *)

Section CpuArray.
Import CLib Platform.

#[local] Opaque dec.

(** The store of [cpuinfo] in slot [i] when the slots before [i] are
    filled and those from [i] on are holes. *)
Lemma Set_next_slot {A} (filled : list A) n (e : A) :
  V8.Set_ ((Some <$> filled) ++ replicate n None) (length filled) e
  = (Some <$> (filled ++ [e])) ++ replicate (n - 1) None.
Proof.
  unfold V8.Set_. rewrite length_app, length_fmap, length_replicate, fmap_app.
  destruct (Nat.ltb_spec (length filled) (length filled + n)) as [Hn|Hn].
  - destruct n as [|n]; [lia|].
    rewrite insert_app_r_alt by (rewrite length_fmap; lia).
    rewrite length_fmap, Nat.sub_diag. simpl.
    by rewrite Nat.sub_0_r, <- app_assoc.
  - assert (n = 0%nat) as -> by lia.
    rewrite Nat.add_0_r, Nat.sub_diag. simpl. by rewrite !app_nil_r.
Qed.

Lemma Forall_Set_ {A} (P : option A → Prop) a i v :
  Forall P a → P None → P (Some v) → Forall P (V8.Set_ a i v).
Proof.
  intros Ha Hnone Hv. unfold V8.Set_. destruct (i <? length a)%nat.
  - by apply Forall_insert.
  - apply Forall_app. split; [done|]. apply Forall_app.
    split; [by apply Forall_replicate|by constructor].
Qed.

Section Loop.
Variables (max_freq : nat → option text) (multiplier : Z) (m : option text).

(** Started where the holes begin, the loop fills one slot for each core
    line and appends when the holes are used up. *)
Lemma counters_loop_fills lines : ∀ filled c n,
  ∃ entries,
    counters_loop max_freq multiplier m lines (length filled) c
      ((Some <$> filled) ++ replicate n None)
    = (Some <$> (filled ++ entries)) ++ replicate (n - length entries) None
    ∧ length entries = length (core_lines lines).
Proof.
  induction lines as [|l lines IH]; intros filled c n; simpl.
  { exists []. by rewrite app_nil_r, Nat.sub_0_r. }
  destruct (strncmp_eq l "cpu " 4); [by apply IH|].
  destruct (strncmp_eq l "cpu" 3); simpl.
  - set (e := cpuinfo_object multiplier m _).
    rewrite Set_next_slot.
    destruct (IH (filled ++ [e]) (core_update (max_freq (length filled)) c l)
                (n - 1)%nat) as (entries & Heq & Hlen).
    rewrite length_app in Heq. simpl in Heq. rewrite Nat.add_1_r in Heq.
    exists (e :: entries). split; [|by rewrite <- Hlen].
    rewrite Heq, <- app_assoc. simpl. do 2 f_equal. lia.
  - exists []. by rewrite app_nil_r, Nat.sub_0_r.
Qed.

(** What holds of the variables at every line holds of every object. *)
Lemma counters_loop_Forall (Q : counters → Prop) (P : CpuInfo → Prop) lines :
  (∀ i c l, Q c → Q (core_update (max_freq i) c l)) →
  (∀ c, Q c → P (cpuinfo_object multiplier m c)) →
  ∀ i c cpus,
    Q c → Forall (λ slot, ∀ e, slot = Some e → P e) cpus →
    Forall (λ slot, ∀ e, slot = Some e → P e)
      (counters_loop max_freq multiplier m lines i c cpus).
Proof.
  intros Hstep Hobject.
  induction lines as [|l lines IH]; intros i c cpus Hc Hcpus; simpl; [done|].
  destruct (strncmp_eq l "cpu " 4); [by apply IH|].
  destruct (strncmp_eq l "cpu" 3); simpl; [|done].
  apply IH; [by apply Hstep|].
  apply Forall_Set_; [done|done|].
  intros e [= <-]. by apply Hobject, Hstep.
Qed.

(** The slot of the [k]-th core line, and the variables it was built
    from: those the slot before shows. *)
Lemma counters_loop_slot_before lines : ∀ i c cpus k line,
  core_lines lines !! k = Some line →
  ∃ before,
    counters_loop max_freq multiplier m lines i c cpus !! (i + k)%nat
    = Some (Some (cpuinfo_object multiplier m
                    (core_update (max_freq (i + k)%nat) before line)))
    ∧ match k with
      | O => before = c
      | S j =>
          counters_loop max_freq multiplier m lines i c cpus !! (i + j)%nat
          = Some (Some (cpuinfo_object multiplier m before))
      end.
Proof.
  induction lines as [|l lines IH]; intros i c cpus k line Hk; simpl in *; [done|].
  destruct (strncmp_eq l "cpu " 4); [by apply IH|].
  destruct (strncmp_eq l "cpu" 3); simpl in *; [|done].
  set (c' := core_update (max_freq i) c l).
  set (e := cpuinfo_object multiplier m c').
  assert (counters_loop max_freq multiplier m lines (S i) c' (V8.Set_ cpus i e) !! i
          = Some (Some e)) as Hi.
  { apply counters_loop_below; [lia|apply Set_lookup_eq]. }
  destruct k as [|k].
  - injection Hk as <-. exists c. rewrite Nat.add_0_r. done.
  - destruct (IH (S i) c' (V8.Set_ cpus i e) k line Hk) as (before & Hslot & Hprev).
    exists before. replace (i + S k)%nat with (S i + k)%nat by lia.
    split; [exact Hslot|].
    destruct k as [|j].
    + rewrite Nat.add_0_r. by rewrite Hprev.
    + replace (i + S j)%nat with (S i + j)%nat by lia. exact Hprev.
Qed.
End Loop.

Lemma read_descriptor_processors src d :
  read_descriptor (proc_cpuinfo src) = Returns d → d_numcpus d = processors src.
Proof.
  unfold read_descriptor, processors. destruct (proc_cpuinfo src) as [info|].
  - intros Hd. by apply descriptor_loop_numcpus in Hd.
  - by intros [= <-].
Qed.

Lemma GetCPUInfo_unfold src d :
  clk_tck src `mod` 2 ^ 32 ≠ 0 →
  read_descriptor (proc_cpuinfo src) = Returns d →
  GetCPUInfo src
  = Returns (0, match proc_stat src with
                | Some content =>
                    counters_loop (cpuinfo_max_freq src)
                      ((1000 `div` (clk_tck src `mod` 2 ^ 32)) `mod` 2 ^ 32)
                      (d_model d) (fgets_all 511 content) 0
                      (Counters (d_cpuspeed d) None None None None None)
                      (V8.Array_New (d_numcpus d))
                | None => V8.Array_New (d_numcpus d)
                end).
Proof.
  intros Hclk Hd. unfold GetCPUInfo.
  rewrite (proj2 (Z.eqb_neq _ _) Hclk), Hd. reflexivity.
Qed.

(** X13: the array holds one object for each core line of /proc/stat, in
    the first slots, and after them one hole for each processor that
    /proc/cpuinfo names beyond the number of core lines. *)
Theorem GetCPUInfo_array_shape src d :
  clk_tck src `mod` 2 ^ 32 ≠ 0 →
  read_descriptor (proc_cpuinfo src) = Returns d →
  ∃ entries,
    GetCPUInfo src
    = Returns (0, (Some <$> entries)
                  ++ replicate (processors src - cores src) None)
    ∧ length entries = cores src.
Proof.
  intros Hclk Hd. rewrite (GetCPUInfo_unfold src d) by done.
  rewrite (read_descriptor_processors src d) by done.
  unfold cores. destruct (proc_stat src) as [content|].
  - destruct (counters_loop_fills (cpuinfo_max_freq src)
                ((1000 `div` (clk_tck src `mod` 2 ^ 32)) `mod` 2 ^ 32) (d_model d)
                (fgets_all 511 content) []
                (Counters (d_cpuspeed d) None None None None None)
                (processors src)) as (entries & Heq & Hlen).
    exists entries. split; [|done]. rewrite <- Hlen. f_equal. f_equal. exact Heq.
  - exists []. split; [|done]. by rewrite Nat.sub_0_r.
Qed.

Lemma GetCPUInfo_array_shape_witness :
  ∃ entries,
    GetCPUInfo no_cpuinfo
    = Returns (0, (Some <$> entries)
                  ++ replicate (processors no_cpuinfo - cores no_cpuinfo) None)
    ∧ length entries = cores no_cpuinfo.
Proof.
  apply (GetCPUInfo_array_shape no_cpuinfo (Descriptor 0 None None));
    by vm_compute.
Defined.

(** X14: every object of the array carries the model of the first "model
    name" line of /proc/cpuinfo: the text after its colon and the
    character that follows it, less the last character of the line. *)
Theorem GetCPUInfo_model_of_first_processor src info pre pad sep name last rest :
  clk_tck src `mod` 2 ^ 32 ≠ 0 →
  proc_cpuinfo src = Some info →
  fgets_all 511 info = pre ++ model_name_line pad sep name last :: rest →
  Forall (λ l, strncmp_eq l "model name" 10 = false) pre →
  ":"%char ∉ pad → NUL ∉ pad ++ sep :: name ++ [last] →
  ∃ cpus,
    GetCPUInfo src = Returns (0, cpus)
    ∧ ∀ k e, cpus !! k = Some (Some e) → model e = Some name.
Proof.
  intros Hclk Hinfo Hlines Hpre Hpad Hnul.
  assert (∃ d, read_descriptor (proc_cpuinfo src) = Returns d
               ∧ d_model d = Some name) as (d & Hd & Hmodel).
  { rewrite Hinfo. unfold read_descriptor. rewrite Hlines.
    rewrite descriptor_loop_before by done.
    cbn [descriptor_loop]. rewrite descriptor_line_model by done.
    cbn [mbind outcome_bind].
    apply (descriptor_loop_keeps_model rest (Descriptor 1 (Some name) None)).
    cbn. lia. }
  rewrite (GetCPUInfo_unfold src d) by done. eexists. split; [reflexivity|].
  intros k e Hk. rewrite <- Hmodel.
  assert (Forall (λ slot, ∀ e, slot = Some e → model e = d_model d)
            (V8.Array_New (d_numcpus d))) as Hnew.
  { apply Forall_replicate. by intros ? [=]. }
  destruct (proc_stat src) as [content|].
  - eapply (Forall_lookup_1 _ _ _ _
              (counters_loop_Forall _ _ _ (λ _, True) _ _
                 (λ _ _ _ _, I) (λ _ _, eq_refl) _ _ _ I Hnew) Hk).
    reflexivity.
  - by eapply (Forall_lookup_1 _ _ _ _ Hnew Hk).
Qed.

Lemma GetCPUInfo_model_of_first_processor_witness :
  ∃ cpus,
    GetCPUInfo two_cores = Returns (0, cpus)
    ∧ ∀ k e, cpus !! k = Some (Some e)
             → model e = Some (txt "ARMv7 Processor rev 2").
Proof.
  eapply (GetCPUInfo_model_of_first_processor two_cores _
            [txt "processor : 0" ++ [LF]] (txt " ") " "
            (txt "ARMv7 Processor rev 2") LF).
  - by vm_compute.
  - reflexivity.
  - by vm_compute.
  - repeat constructor.
  - apply (bool_decide_unpack _). by vm_compute.
  - apply (bool_decide_unpack _). by vm_compute.
Defined.

(** X15: when no core has a frequency file, every object of the array
    reports the speed the first loop took from /proc/cpuinfo. *)
Theorem GetCPUInfo_speed_without_frequency_files src d :
  clk_tck src `mod` 2 ^ 32 ≠ 0 →
  read_descriptor (proc_cpuinfo src) = Returns d →
  (∀ i, cpuinfo_max_freq src i = None) →
  ∃ cpus,
    GetCPUInfo src = Returns (0, cpus)
    ∧ ∀ k e, cpus !! k = Some (Some e) → speed e = d_cpuspeed d.
Proof.
  intros Hclk Hd Hfiles.
  rewrite (GetCPUInfo_unfold src d) by done. eexists. split; [reflexivity|].
  intros k e Hk.
  assert (Forall (λ slot, ∀ e, slot = Some e → speed e = d_cpuspeed d)
            (V8.Array_New (d_numcpus d))) as Hnew.
  { apply Forall_replicate. by intros ? [=]. }
  destruct (proc_stat src) as [content|].
  - eapply (Forall_lookup_1 _ _ _ _
              (counters_loop_Forall _ _ _ (λ c, cpuspeed c = d_cpuspeed d) _ _
                 _ _ _ _ _ _ Hnew) Hk).
    reflexivity.
  - by eapply (Forall_lookup_1 _ _ _ _ Hnew Hk).
  Unshelve.
  + intros i c l Hc. cbn [core_update cpuspeed]. by rewrite Hfiles.
  + intros c Hc. exact Hc.
  + reflexivity.
Qed.

Lemma GetCPUInfo_speed_without_frequency_files_witness :
  ∃ cpus,
    GetCPUInfo (CpuSources 100 (proc_cpuinfo two_cores) (proc_stat two_cores)
                  (λ _, None))
    = Returns (0, cpus)
    ∧ ∀ k e, cpus !! k = Some (Some e) → speed e = Some 1600.
Proof.
  apply (GetCPUInfo_speed_without_frequency_files
           (CpuSources 100 (proc_cpuinfo two_cores) (proc_stat two_cores)
              (λ _, None))
           (Descriptor 2 (Some (txt "ARMv7 Processor rev 2")) (Some 1600))).
  - by vm_compute.
  - by vm_compute.
  - reflexivity.
Defined.
End CpuArray.

(** ** GetCPUInfo: a core line without the later counters *)

Section CpuShortLine.
Import CLib Platform.

#[local] Opaque dec.

(** What [sscanf] finds in a line that ends after the idle counter: the
    input ends at the suppressed conversion. *)
Lemma sscanf_short_cpu_line n user nice system idle :
  assigned (sscanf (c_str (short_cpu_line n user nice system idle))
              "%*s %llu %llu %llu %llu %*llu %llu")
  = [VInt (int_result false 64 false (Z.of_N user));
     VInt (int_result false 64 false (Z.of_N nice));
     VInt (int_result false 64 false (Z.of_N system));
     VInt (int_result false 64 false (Z.of_N idle))].
Proof.
  unfold sscanf. rewrite parse_format_stat. unfold short_cpu_line.
  rewrite (c_str_app (txt "cpu")) by (apply (bool_decide_unpack _); by vm_compute).
  repeat first
    [ rewrite (c_str_app (dec _)) by apply dec_no_NUL
    | rewrite c_str_cons by discriminate ].
  change (c_str [LF]) with [LF].
  rewrite (app_assoc (txt "cpu") (dec n)).
  rewrite scan_str_step; [|done|].
  2:{ apply Forall_app. split; [by repeat constructor|apply dec_no_space]. }
  rewrite scan_space_dec, scan_int_step by done.
  rewrite scan_space_dec, scan_int_step by done.
  rewrite scan_space_dec, scan_int_step by done.
  rewrite scan_space_dec, scan_int_step by done.
  reflexivity.
Qed.

(** X16: for a core line that ends after the idle counter, the irq time
    of the core is not taken from its line: it is the irq time reported
    for the core before, and for the first core it is made from the
    variable as declared, which holds no value. *)
Theorem cpu_line_without_irq src d content k n user nice system idle :
  clk_tck src `mod` 2 ^ 32 ≠ 0 →
  read_descriptor (proc_cpuinfo src) = Returns d →
  proc_stat src = Some content →
  core_lines (fgets_all 511 content) !! k
  = Some (short_cpu_line n user nice system idle) →
  ∃ cpus e,
    GetCPUInfo src = Returns (0, cpus)
    ∧ cpus !! k = Some (Some e)
    ∧ match k with
      | O => irq (times e) = None
      | S j => ∃ e', cpus !! j = Some (Some e') ∧ irq (times e) = irq (times e')
      end.
Proof.
  intros Hclk Hd Hstat Hline.
  rewrite (GetCPUInfo_unfold src d), Hstat by done.
  destruct (counters_loop_slot_before (cpuinfo_max_freq src)
              ((1000 `div` (clk_tck src `mod` 2 ^ 32)) `mod` 2 ^ 32)
              (d_model d) _ 0%nat (Counters (d_cpuspeed d) None None None None None)
              (V8.Array_New (d_numcpus d)) k _ Hline) as (before & Hslot & Hprev).
  eexists _, _. split; [reflexivity|]. split; [exact Hslot|].
  assert (∀ fp, ticks_intr (core_update fp before
                              (short_cpu_line n user nice system idle))
                = ticks_intr before) as Hintr.
  { intros fp. unfold core_update. cbn [ticks_intr].
    by rewrite sscanf_short_cpu_line. }
  cbn [cpuinfo_object times irq]. rewrite Hintr.
  destruct k as [|j].
  - by rewrite Hprev.
  - eexists. split; [exact Hprev|]. reflexivity.
Qed.

Lemma cpu_line_without_irq_witness :
  ∃ cpus e,
    GetCPUInfo short_second_core = Returns (0, cpus)
    ∧ cpus !! 1%nat = Some (Some e)
    ∧ ∃ e', cpus !! 0%nat = Some (Some e') ∧ irq (times e) = irq (times e').
Proof.
  apply (cpu_line_without_irq short_second_core
           (Descriptor 2 (Some (txt "ARMv7 Processor rev 2")) (Some 1600))
           (file_of ["cpu  12 22 32 42 52 62 72"; "cpu0 1 2 3 4 5 6 7"]
            ++ short_cpu_line 1 11 12 13 14)
           1%nat 1 11 12 13 14); by vm_compute.
Defined.
End CpuShortLine.

(** ** The process title: the task name, the freed title, and platforms
    without the facility *)

Section TitleEdges.
Import CLib Platform.

(** X17: [SetProcessTitle] hands the kernel its copy of the title: the
    task name becomes the first 15 bytes of the title, while
    [GetProcessTitle] returns the title in its whole length; no exception
    is raised. *)
Theorem SetProcessTitle_names_task st t s :
  title_live st → string_at (memory st) t = Some s →
  process_title st ≠ Some t → Z.of_nat (length s) < 2 ^ 31 →
  ∃ st' q,
    SetProcessTitle true t st = Returns st'
    ∧ task_name st' = take 15 s
    ∧ GetProcessTitle st' = Returns (Some q, Z.of_nat (length s))
    ∧ string_at (memory st') q = Some s
    ∧ pending_exception st' = pending_exception st.
Proof.
  intros Hlive Hs Hne Hlen.
  pose proof (string_at_no_NUL _ _ _ Hs) as Hnul.
  eexists _, _. split; [by apply (SetProcessTitle_returns st t s)|].
  split; [done|]. split; [|split; [|done]].
  - by apply GetProcessTitle_returns; [apply string_at_insert_eq|].
  - by apply string_at_insert_eq.
Qed.

Lemma SetProcessTitle_names_task_witness :
  ∃ st' q,
    SetProcessTitle true 4%positive
      (Process {[ 1%positive := txt "node" ++ [NUL];
                  4%positive := txt "a-title-of-more-than-15-bytes" ++ [NUL] ]}
         (Some 1%positive) (txt "node") None)
    = Returns st'
    ∧ task_name st' = take 15 (txt "a-title-of-more-than-15-bytes")
    ∧ GetProcessTitle st' = Returns (Some q, 29)
    ∧ string_at (memory st') q = Some (txt "a-title-of-more-than-15-bytes")
    ∧ pending_exception st' = None.
Proof.
  apply (SetProcessTitle_names_task
           (Process {[ 1%positive := txt "node" ++ [NUL];
                       4%positive := txt "a-title-of-more-than-15-bytes" ++ [NUL] ]}
              (Some 1%positive) (txt "node") None)
           4%positive (txt "a-title-of-more-than-15-bytes")).
  - by (vm_compute; eauto).
  - by vm_compute.
  - done.
  - by vm_compute.
Defined.

(** X18: [SetProcessTitle] frees the title before it copies the new one:
    called with the pointer [GetProcessTitle] returns, it reads the block
    it has just freed. *)
Theorem SetProcessTitle_own_title st p len :
  GetProcessTitle st = Returns (Some p, len) →
  SetProcessTitle true p st = Undefined.
Proof.
  unfold GetProcessTitle, SetProcessTitle.
  destruct (process_title st) as [p0|] eqn:Hp; [|done].
  destruct (string_at (memory st) p0) as [s|] eqn:Hs; [|done].
  intros [= <- _]. apply string_at_live in Hs as [b Hb].
  unfold free. rewrite Hb. cbn [mbind outcome_bind].
  unfold strdup, string_at. by rewrite lookup_delete_eq.
Qed.

Lemma SetProcessTitle_own_title_witness :
  GetProcessTitle title_example = Returns (Some 1%positive, 4)
  ∧ SetProcessTitle true 1%positive title_example = Undefined.
Proof.
  split; [by vm_compute|].
  apply (SetProcessTitle_own_title title_example 1%positive 4). by vm_compute.
Defined.

Lemma run_calls_not_writable cs : ∀ st,
  Forall (λ c, ∀ a, c ≠ CallSetupArgs a) cs →
  (∀ p, process_title st = Some p → is_Some (string_at (memory st) p)) →
  ∃ st',
    run_calls false cs st = Returns st'
    ∧ memory st' = memory st ∧ process_title st' = process_title st
    ∧ task_name st' = task_name st
    ∧ (pending_exception st'
       = Some "'process.title' is not writable on your system, sorry."%string
       ∨ Forall (λ c, c = CallGetProcessTitle) cs
         ∧ pending_exception st' = pending_exception st).
Proof.
  induction cs as [|c cs IH]; intros st Hcs Hst.
  { exists st. repeat (split; [done|]). by right. }
  inversion Hcs as [|? ? Hc Hcs']; subst.
  destruct c as [a|t|]; [by destruct (Hc a)| |].
  - cbn [run_calls run_call SetProcessTitle mbind outcome_bind].
    destruct (IH (Process (memory st) (process_title st) (task_name st)
                    (Some "'process.title' is not writable on your system, sorry."%string))
                Hcs' Hst) as (st' & Hrun & Hm & Hp & Hn & Hx).
    exists st'. repeat (split; [done|]). left.
    destruct Hx as [Hx|[_ Hx]]; exact Hx.
  - cbn [run_calls run_call].
    assert (∃ r, GetProcessTitle st = Returns r) as [r ->].
    { unfold GetProcessTitle. destruct (process_title st) as [p|]; [|eauto].
      destruct (Hst p eq_refl) as [s ->]. eauto. }
    cbn [mbind outcome_bind].
    destruct (IH st Hcs' Hst) as (st' & Hrun & Hm & Hp & Hn & Hx).
    exists st'. repeat (split; [done|]).
    destruct Hx as [Hx|[Hall Hx]]; [by left|right].
    split; [by constructor|done].
Qed.

(** X19: on a platform without [PR_SET_NAME], no call of
    [SetProcessTitle] changes the title: after [SetupArgs] and any history
    of [SetProcessTitle] and [GetProcessTitle] calls, the title is still
    the copy of [argv[0]], the heap and the task name are as [SetupArgs]
    left them, and an exception is pending if [SetProcessTitle] was
    called. *)
Theorem title_not_writable m name argv0 s cs :
  string_at m argv0 = Some s →
  Forall (λ c, ∀ a, c ≠ CallSetupArgs a) cs →
  ∃ st q,
    run_calls false (CallSetupArgs argv0 :: cs) (process_start m name) = Returns st
    ∧ process_title st = Some q ∧ m !! q = None
    ∧ memory st = <[q := s ++ [NUL]]> m
    ∧ string_at (memory st) q = Some s
    ∧ task_name st = name
    ∧ (Exists (λ c, ∃ t, c = CallSetProcessTitle t) cs →
       pending_exception st
       = Some "'process.title' is not writable on your system, sorry."%string).
Proof.
  intros Hs Hcs. set (q := fresh (dom m)).
  pose proof (string_at_no_NUL _ _ _ Hs) as Hnul.
  cbn [run_calls run_call]. unfold SetupArgs. cbn [process_start memory].
  rewrite (strdup_returns _ _ s) by done. cbn [mbind outcome_bind]. fold q.
  destruct (run_calls_not_writable cs
              (Process (<[q := s ++ [NUL]]> m) (Some q) name None) Hcs)
    as (st & Hrun & Hm & Hp & Hn & Hx).
  { intros p [= <-]. cbn [memory]. rewrite string_at_insert_eq by done. eauto. }
  exists st, q. split; [exact Hrun|]. split; [done|].
  split; [apply fresh_not_live|]. split; [done|].
  split; [rewrite Hm; by apply string_at_insert_eq|]. split; [done|].
  intros Hex. destruct Hx as [Hx|[Hall _]]; [done|].
  apply Exists_exists in Hex as (c & Hin & t & ->).
  rewrite Forall_forall in Hall. by specialize (Hall _ Hin).
Qed.

Lemma title_not_writable_witness :
  ∃ st q,
    run_calls false
      [CallSetupArgs 1%positive; CallSetProcessTitle 2%positive; CallGetProcessTitle]
      (process_start (memory title_example) (txt "node"))
    = Returns st
    ∧ process_title st = Some q ∧ memory title_example !! q = None
    ∧ memory st = <[q := txt "node" ++ [NUL]]> (memory title_example)
    ∧ string_at (memory st) q = Some (txt "node")
    ∧ task_name st = txt "node"
    ∧ (Exists (λ c, ∃ t, c = CallSetProcessTitle t)
         [CallSetProcessTitle 2%positive; CallGetProcessTitle] →
       pending_exception st
       = Some "'process.title' is not writable on your system, sorry."%string).
Proof.
  apply (title_not_writable (memory title_example) (txt "node") 1%positive
           (txt "node")
           [CallSetProcessTitle 2%positive; CallGetProcessTitle]).
  - by vm_compute.
  - by repeat constructor.
Defined.
End TitleEdges.

(** ** GetCPUInfo: the times reported *)

Section CpuTimes.
Import CLib Platform.

#[local] Opaque dec.

(** C7, as the code has it: for a line of /proc/stat that [GetCPUInfo]
    parses as a core's line, each of the five times reported for that core
    is the [double] nearest to the line's counter (user, nice, system,
    idle, irq) multiplied by the whole quotient 1000 /
    [sysconf(_SC_CLK_TCK)] - provided counter and product fit [unsigned long
    long].  The time is that product itself when the product is below
    2^53, and the quotient is the number of milliseconds in a tick only
    when the clock rate divides 1000. *)
Theorem cpu_times_in_milliseconds src d content k
    n user nice system idle iowait irq more :
  0 < clk_tck src < 2 ^ 32 →
  read_descriptor (proc_cpuinfo src) = Returns d →
  proc_stat src = Some content →
  core_lines (fgets_all 511 content) !! k
  = Some (cpu_line n user nice system idle iowait irq more) →
  stops isdigit more →
  fits_ms (clk_tck src) user → fits_ms (clk_tck src) nice →
  fits_ms (clk_tck src) system → fits_ms (clk_tck src) idle →
  fits_ms (clk_tck src) irq →
  ∃ cpus e,
    GetCPUInfo src = Returns (0, cpus)
    ∧ cpus !! k = Some (Some e)
    ∧ times e
      = MkCpuTimes (Some (to_double (Z.of_N user * (1000 `div` clk_tck src))))
                   (Some (to_double (Z.of_N nice * (1000 `div` clk_tck src))))
                   (Some (to_double (Z.of_N system * (1000 `div` clk_tck src))))
                   (Some (to_double (Z.of_N idle * (1000 `div` clk_tck src))))
                   (Some (to_double (Z.of_N irq * (1000 `div` clk_tck src))))
    ∧ (Forall (λ t, Z.of_N t * (1000 `div` clk_tck src) < 2 ^ 53)
         [user; nice; system; idle; irq] →
       times e
       = MkCpuTimes (Some (Z.of_N user * (1000 `div` clk_tck src)))
                    (Some (Z.of_N nice * (1000 `div` clk_tck src)))
                    (Some (Z.of_N system * (1000 `div` clk_tck src)))
                    (Some (Z.of_N idle * (1000 `div` clk_tck src)))
                    (Some (Z.of_N irq * (1000 `div` clk_tck src))))
    ∧ ((clk_tck src | 1000) → 1000 `div` clk_tck src * clk_tck src = 1000).
Proof.
  intros Hclk Hd Hstat Hline Hmore Hu Hn Hs Hi Hq.
  rewrite (GetCPUInfo_unfold src d) by first [done | rewrite Z.mod_small; lia].
  rewrite Hstat, multiplier_small by done.
  destruct (counters_loop_slot (cpuinfo_max_freq src) (1000 `div` clk_tck src)
              (d_model d) _ 0%nat (Counters (d_cpuspeed d) None None None None None)
              (V8.Array_New (d_numcpus d)) k _ Hline) as (before & Hslot & _).
  eexists _, _. split; [reflexivity|]. split; [exact Hslot|].
  assert (0 ≤ 1000 `div` clk_tck src) as Hms by (apply Z.div_pos; lia).
  unfold cpuinfo_object, core_update. cbn [times ticks_user ticks_nice ticks_sys
    ticks_idle ticks_intr].
  rewrite sscanf_cpu_line by done. unfold assigned_or.
  cbn [lookup list_lookup].
  rewrite !milliseconds_fits by (done || lia).
  split; [reflexivity|]. split.
  - intros Hsmall.
    apply Forall_cons in Hsmall as [Hu' Hsmall].
    apply Forall_cons in Hsmall as [Hn' Hsmall].
    apply Forall_cons in Hsmall as [Hs' Hsmall].
    apply Forall_cons in Hsmall as [Hi' Hsmall].
    apply Forall_cons in Hsmall as [Hq' _].
    rewrite !to_double_small by (split; [apply Z.mul_nonneg_nonneg; lia|done]).
    reflexivity.
  - intros [q Hq']. rewrite Hq', Z.div_mul by lia. done.
Qed.

Lemma cpu_times_in_milliseconds_witness :
  0 < clk_tck two_cores < 2 ^ 32
  ∧ ∃ cpus e,
      GetCPUInfo two_cores = Returns (0, cpus)
      ∧ cpus !! 1%nat = Some (Some e)
      ∧ times e
        = MkCpuTimes (Some (to_double (Z.of_N 11 * (1000 `div` clk_tck two_cores))))
                     (Some (to_double (Z.of_N 12 * (1000 `div` clk_tck two_cores))))
                     (Some (to_double (Z.of_N 13 * (1000 `div` clk_tck two_cores))))
                     (Some (to_double (Z.of_N 14 * (1000 `div` clk_tck two_cores))))
                     (Some (to_double (Z.of_N 16 * (1000 `div` clk_tck two_cores))))
      ∧ (Forall (λ t, Z.of_N t * (1000 `div` clk_tck two_cores) < 2 ^ 53)
           [11; 12; 13; 14; 16]%N →
         times e
         = MkCpuTimes (Some (Z.of_N 11 * (1000 `div` clk_tck two_cores)))
                      (Some (Z.of_N 12 * (1000 `div` clk_tck two_cores)))
                      (Some (Z.of_N 13 * (1000 `div` clk_tck two_cores)))
                      (Some (Z.of_N 14 * (1000 `div` clk_tck two_cores)))
                      (Some (Z.of_N 16 * (1000 `div` clk_tck two_cores))))
      ∧ ((clk_tck two_cores | 1000)
         → 1000 `div` clk_tck two_cores * clk_tck two_cores = 1000).
Proof.
  assert (0 < clk_tck two_cores < 2 ^ 32) as Hclk by (vm_compute; split; reflexivity).
  assert (∀ t, (t < 1000)%N → fits_ms (clk_tck two_cores) t) as Hfits.
  { intros t Ht. unfold fits_ms. change (1000 `div` clk_tck two_cores) with 10. lia. }
  split; [exact Hclk|].
  apply (cpu_times_in_milliseconds two_cores
           (Descriptor 2 (Some (txt "ARMv7 Processor rev 2")) (Some 1600))
           (file_of ["cpu  12 22 32 42 52 62 72"; "cpu0 1 2 3 4 5 6 7";
                     "cpu1 11 12 13 14 15 16 17"; "intr 5"])
           1%nat 1 11 12 13 14 15 16 (txt " 17" ++ [LF]));
    first [ by (vm_compute; reflexivity) | exact Hclk | by apply Hfits ].
Defined.

(** The claim of C7 fails when the clock rate does not divide 1000: at
    300 ticks a second the 11 ticks of a core are reported as 33, which is
    neither 11000 / 300 nor its whole part.  It fails as well for a product
    of 2^53 or more: at 100 ticks a second the counter 2^53 + 1 is reported
    as 90071992547409936, not as ten times the counter. *)
Lemma times_are_not_milliseconds :
  (∃ e0 e1,
     GetCPUInfo clock_300 = Returns (0, [Some e0; Some e1])
     ∧ user (times e1) = Some 33
     ∧ 33 * clk_tck clock_300 ≠ 11 * 1000
     ∧ 33 ≠ (11 * 1000) `div` clk_tck clock_300)
  ∧ ∃ e,
      GetCPUInfo long_running = Returns (0, [Some e])
      ∧ user (times e) = Some 90071992547409936
      ∧ 90071992547409936 ≠ 9007199254740993 * (1000 `div` clk_tck long_running).
Proof.
  split.
  - eexists _, _. split; [vm_compute; reflexivity|].
    split; [reflexivity|]. split; by vm_compute.
  - eexists. split; [vm_compute; reflexivity|].
    split; [reflexivity|]. by vm_compute.
Qed.
End CpuTimes.

(** ** GetCPUInfo: unreadable sources *)

Section CpuBestEffort.
Import CLib Platform.

#[local] Opaque dec.





End CpuBestEffort.
